(** * Smoke-screen obscuration model and adaptive differential evolution

    A shallow embedding of the Python sources

      - [3.解答代码_solve1_2/config.py], [geometry.py], [core_objects.py]
      - [4.probelm3_4代码/optimizer.py], [solve_problem_3.py]
      - [5.问题五py转为cpp/optimizer.py]
      - [5.问题五py转为cpp2/adaptive_de.py]

    Python floats are idealised as exact rationals ([Q]): rounding is not
    modelled.  What numpy does on a division by zero is modelled where the
    sources can reach it: numpy raises nothing there, the quotient is a
    non-finite value and every comparison with it is [False].  The library
    functions of numpy and scipy (square root, trigonometry, the ODE solver,
    the random generator) are interfaces; the development holds for every
    implementation of them and runs on the small executable ones given
    below. *)

From Stdlib Require Import QArith Qround Qminmax Qabs Lqa Lia List ZArith Bool Permutation.
From stdpp Require Import base gmap strings sorting.
Import ListNotations.
Open Scope Q_scope.

(** ** Numbers *)

Definition Qltb (x y : Q) : bool := negb (Qle_bool y x).

(** [np.clip(x, lo, hi)] is [minimum(maximum(x, lo), hi)]. *)
Definition np_clip (x lo hi : Q) : Q := Qmin (Qmax x lo) hi.

(** [int(x)]: truncation towards zero. *)
Definition py_int (x : Q) : Z := Z.quot (Qnum x) (Zpos (Qden x)).

(** [np.sum] of a one-dimensional array. *)
Definition np_sum (l : list Q) : Q := fold_right Qplus 0 l.

(** [np.mean] of a one-dimensional array. *)
Definition np_mean (l : list Q) : Q := np_sum l / inject_Z (Z.of_nat (length l)).

(** ** Exceptions *)

Inductive exn : Type :=
| ValueError
| IndexError
| KeyError
| ZeroDivisionError
| NotImplementedError.

Inductive exc (A : Type) : Type :=
| Ok (a : A)
| Raise (e : exn).
Arguments Ok {A} a.
Arguments Raise {A} e.

#[global] Instance exc_ret : MRet exc := fun A a => Ok a.
#[global] Instance exc_bind : MBind exc := fun A B k m =>
  match m with
  | Ok a => k a
  | Raise e => Raise e
  end.

Definition is_raise {A : Type} (m : exc A) : bool :=
  match m with
  | Ok _ => false
  | Raise _ => true
  end.

(** ** The numpy functions the sources call *)

Class NumPy : Type := {
  np_sqrt : Q -> Q;
  np_arccos : Q -> Q;
  np_arcsin : Q -> Q;
  np_cos : Q -> Q;
  np_sin : Q -> Q
}.

(** ** Vectors: [np.array] of three floats *)

Record vec3 : Type := Vec3 { vx : Q; vy : Q; vz : Q }.

Definition vadd (a b : vec3) : vec3 := Vec3 (vx a + vx b) (vy a + vy b) (vz a + vz b).
Definition vsub (a b : vec3) : vec3 := Vec3 (vx a - vx b) (vy a - vy b) (vz a - vz b).
Definition vscale (k : Q) (a : vec3) : vec3 := Vec3 (k * vx a) (k * vy a) (k * vz a).
Definition vmul (a : vec3) (k : Q) : vec3 := Vec3 (vx a * k) (vy a * k) (vz a * k).
Definition vdiv (a : vec3) (k : Q) : vec3 := Vec3 (vx a / k) (vy a / k) (vz a / k).
Definition np_dot (a b : vec3) : Q := vx a * vx b + vy a * vy b + vz a * vz b.
Definition np_cross (a b : vec3) : vec3 :=
  Vec3 (vy a * vz b - vz a * vy b)
       (vz a * vx b - vx a * vz b)
       (vx a * vy b - vy a * vx b).
Definition norm `{NumPy} (a : vec3) : Q := np_sqrt (np_dot a a).

Definition veq (a b : vec3) : Prop := vx a == vx b /\ vy a == vy b /\ vz a == vz b.

(** A point with float coordinates.  [NonFinite] is what a division by a
    zero norm leaves: numpy gives nan or inf components and a
    RuntimeWarning, no exception. *)
Inductive point : Type :=
| Finite (p : vec3)
| NonFinite.

(** [v / np.linalg.norm(v)]. *)
Definition unit_of `{NumPy} (v : vec3) : point :=
  if Qeq_bool (norm v) 0 then NonFinite else Finite (vdiv v (norm v)).

(** [C + k * u] for a direction [u] that may be non-finite. *)
Definition offset_point (C : vec3) (k : Q) (u : point) : point :=
  match u with
  | Finite u => Finite (vadd C (vscale k u))
  | NonFinite => NonFinite
  end.

Definition minus_offset_point (C : vec3) (k : Q) (u : point) : point :=
  match u with
  | Finite u => Finite (vsub C (vscale k u))
  | NonFinite => NonFinite
  end.

(** ** config.py *)

Definition G : Q := 9.8.
Definition CLOUD_SINK_SPEED : Q := 3.0.
Definition CLOUD_RADIUS : Q := 10.0.
Definition CLOUD_DURATION : Q := 20.0.
Definition UAV_SPEED_MIN : Q := 70.0.
Definition UAV_SPEED_MAX : Q := 140.0.
Definition GRENADE_INTERVAL : Q := 1.0.
Definition GRENADE_MASS : Q := 5.0.
Definition GRENADE_DRAG_FACTOR : Q := 0.005.

Record target_specs : Type := TargetSpecs {
  center_bottom : vec3;
  spec_radius : Q;
  spec_height : Q
}.

Definition TRUE_TARGET_SPECS : target_specs :=
  TargetSpecs (Vec3 0.0 200.0 0.0) 7.0 10.0.

Record missile_specs : Type := MissileSpecs {
  missile_pos : vec3;
  missile_speed : Q;
  missile_target : vec3
}.

Definition MISSILES_INITIAL : gmap string missile_specs :=
  <["M1" := MissileSpecs (Vec3 20000.0 0.0 2000.0) 300.0 (Vec3 0.0 0.0 0.0)]>
  (<["M2" := MissileSpecs (Vec3 19000.0 600.0 2100.0) 300.0 (Vec3 0.0 0.0 0.0)]>
  (<["M3" := MissileSpecs (Vec3 18000.0 (-600.0) 1900.0) 300.0 (Vec3 0.0 0.0 0.0)]> ∅)).

Definition UAVS_INITIAL : gmap string vec3 :=
  <["FY1" := Vec3 17800.0 0.0 1800.0]>
  (<["FY2" := Vec3 12000.0 1400.0 1400.0]>
  (<["FY3" := Vec3 6000.0 (-3000.0) 700.0]>
  (<["FY4" := Vec3 11000.0 2000.0 1800.0]>
  (<["FY5" := Vec3 13000.0 (-2000.0) 1300.0]> ∅)))).

(** ** geometry.py *)

(** The test of line 21: [V], [C] and the axis [d] are colinear. *)
Definition colinear_case `{NumPy} (V d C : vec3) : bool :=
  let vec_vc := vsub C V in
  Qltb (norm (np_cross vec_vc d)) (1e-6 * norm vec_vc).

(** [points_to_check] of [check_circle_in_cone], lines 17 to 39. *)
Definition points_to_check `{NumPy} (V d C : vec3) (r : Q) (n_c : vec3) : list point :=
  let vec_vc := vsub C V in
  if colinear_case V d C then
    let perp_vec :=
      if Qltb (Qabs (vx n_c)) 0.9 then Vec3 1.0 0.0 0.0 else Vec3 0.0 1.0 0.0 in
    let ortho_vec := np_cross n_c perp_vec in
    let extreme_point := offset_point C r (unit_of ortho_vec) in
    [extreme_point]
  else
    let plane_normal := np_cross vec_vc d in
    let intersection_dir := np_cross plane_normal n_c in
    let unit_intersection_dir := unit_of intersection_dir in
    let p1 := offset_point C r unit_intersection_dir in
    let p2 := minus_offset_point C r unit_intersection_dir in
    [p1; p2].

(** The loop of lines 42 to 55 over [points_to_check].  On a non-finite
    point every quantity of the body is nan: [vec_vp_norm < 1e-9] and
    [beta > cone_half_angle] are both [False], and the loop goes on. *)
Fixpoint check_points `{NumPy} (V d : vec3) (cone_half_angle : Q) (ps : list point) : bool :=
  match ps with
  | [] => true
  | NonFinite :: ps' => check_points V d cone_half_angle ps'
  | Finite p :: ps' =>
      let vec_vp := vsub p V in
      let vec_vp_norm := norm vec_vp in
      if Qltb vec_vp_norm 1e-9 then check_points V d cone_half_angle ps'
      else
        let cos_beta := np_dot vec_vp d / vec_vp_norm in
        let beta := np_arccos (np_clip cos_beta (-1.0) 1.0) in
        if Qltb cone_half_angle beta then false
        else check_points V d cone_half_angle ps'
  end.

Definition check_circle_in_cone `{NumPy}
    (cone_vertex cone_axis_unit_vec : vec3) (cone_half_angle : Q)
    (circle_center : vec3) (circle_radius : Q) (circle_normal : vec3) : bool :=
  check_points cone_vertex cone_axis_unit_vec cone_half_angle
    (points_to_check cone_vertex cone_axis_unit_vec circle_center circle_radius circle_normal).

(** [TargetCylinder] of core_objects.py. *)
Record TargetCylinder : Type := mkTargetCylinder {
  radius : Q;
  height : Q;
  bottom_center : vec3;
  top_center : vec3
}.

Definition TargetCylinder_init (specs : target_specs) : TargetCylinder :=
  mkTargetCylinder (spec_radius specs) (spec_height specs) (center_bottom specs)
    (vadd (center_bottom specs) (Vec3 0.0 0.0 (spec_height specs))).


Definition cone_half_angle_of `{NumPy} (missile_pos cloud_center : vec3) : Q :=
  np_arcsin (CLOUD_RADIUS / norm (vsub cloud_center missile_pos)).

Definition check_full_obscuration `{NumPy}
    (missile_pos cloud_center : vec3) (target_cylinder : TargetCylinder) : bool :=
  let cone_vertex := missile_pos in
  let dist_to_cloud := norm (vsub cloud_center cone_vertex) in
  if Qle_bool dist_to_cloud CLOUD_RADIUS then true
  else
    let cone_axis_unit_vec := vdiv (vsub cloud_center cone_vertex) dist_to_cloud in
    let cone_half_angle := np_arcsin (CLOUD_RADIUS / dist_to_cloud) in
    let bottom_circle_ok :=
      check_circle_in_cone cone_vertex cone_axis_unit_vec cone_half_angle
        (bottom_center target_cylinder) (radius target_cylinder) (Vec3 0 0 (-1)) in
    if negb bottom_circle_ok then false
    else
      let top_circle_ok :=
        check_circle_in_cone cone_vertex cone_axis_unit_vec cone_half_angle
          (top_center target_cylinder) (radius target_cylinder) (Vec3 0 0 1) in
      if negb top_circle_ok then false
      else true.

(** ** core_objects.py *)

(** [Missile]: the threat, on a straight line towards its aim point. *)
Record Missile : Type := mkMissile {
  missile_id : string;
  start_pos : vec3;
  speed : Q;
  unit_vec : vec3
}.

Definition Missile_init `{NumPy} (id : string) : exc Missile :=
  match MISSILES_INITIAL !! id with
  | None => Raise KeyError
  | Some specs =>
      let direction_vec := vsub (missile_target specs) (missile_pos specs) in
      Ok (mkMissile id (missile_pos specs) (missile_speed specs)
            (vdiv direction_vec (norm direction_vec)))
  end.

Definition Missile_get_position (self : Missile) (t : Q) : vec3 :=
  vadd (start_pos self) (vmul (vmul (unit_vec self) (speed self)) t).

(** [SmokeCloud].  The object has the three attributes set by [__init__];
    no method assigns to them. *)
Record SmokeCloud : Type := mkSmokeCloud {
  detonate_pos : vec3;
  start_time : Q;
  end_time : Q
}.

Definition SmokeCloud_init (detonate_pos : vec3) (detonate_time : Q) : SmokeCloud :=
  mkSmokeCloud detonate_pos detonate_time (detonate_time + CLOUD_DURATION).

Definition get_center (self : SmokeCloud) (t : Q) : option vec3 :=
  if negb (Qle_bool (start_time self) t && Qltb t (end_time self)) then None
  else
    let t_since_detonate := t - start_time self in
    Some (vsub (detonate_pos self) (Vec3 0.0 0.0 (CLOUD_SINK_SPEED * t_since_detonate))).

Definition check_obscuration_at_time `{NumPy}
    (self : SmokeCloud) (t : Q) (missile : Missile) (target : TargetCylinder) : bool :=
  let missile_pos := Missile_get_position missile t in
  let cloud_center := get_center self t in
  match cloud_center with
  | None => false
  | Some cloud_center => check_full_obscuration missile_pos cloud_center target
  end.

(** The state of the munition's ODE: [[x, y, z, vx, vy, vz]]. *)
Record state6 : Type := State6 { st_pos : vec3; st_vel : vec3 }.

(** [grenade_motion_ode].  [mass] and [drag_factor] arrive as Python floats,
    so [drag_factor / mass] raises ZeroDivisionError on a zero mass. *)
Definition grenade_motion_ode `{NumPy} (t : Q) (y : state6) (mass drag_factor : Q) : exc state6 :=
  let velocity := st_vel y in
  let gravity_accel := Vec3 0.0 0.0 (- G) in
  let speed := norm velocity in
  drag_accel ←
    (if Qltb 1e-6 speed then
       if Qeq_bool mass 0 then Raise ZeroDivisionError
       else Ok (vscale (- (drag_factor / mass) * speed) velocity)
     else Ok (Vec3 0.0 0.0 0.0));
  let total_accel := vadd gravity_accel drag_accel in
  Ok (State6 velocity total_accel).

(** What [scipy.integrate.solve_ivp] returns, as far as the sources read
    it: the flag [success] (never read) and the columns of [y], one for
    each time of [t_eval] the integration reached. *)
Record OdeResult : Type := mkOdeResult {
  ode_success : bool;
  ode_y : list state6
}.

(** scipy's solver: [solve_ivp fun t_span y0 t_eval], with [method='RK45']. *)
Class SciPy : Type := {
  solve_ivp : (Q -> state6 -> exc state6) -> Q * Q -> state6 -> list Q -> exc OdeResult
}.

Record Grenade : Type := mkGrenade {
  deploy_time : Q;
  fuse_time : Q;
  detonate_time : Q;
  grenade_detonate_pos : vec3
}.

(** [solution.y[:, -1]]: the last column; indexing an empty result raises. *)
Definition last_column (y : list state6) : exc state6 :=
  match last y with
  | Some s => Ok s
  | None => Raise IndexError
  end.

Definition _solve_trajectory_scipy `{NumPy} `{SciPy}
    (fuse_time : Q) (deploy_pos deploy_vel : vec3) : exc vec3 :=
  let y0 := State6 deploy_pos deploy_vel in
  let t_span := (0, fuse_time) in
  solution ← solve_ivp
    (fun t y => grenade_motion_ode t y GRENADE_MASS GRENADE_DRAG_FACTOR)
    t_span y0 [fuse_time];
  final_state ← last_column (ode_y solution);
  let final_position := st_pos final_state in
  Ok final_position.

Definition Grenade_init `{NumPy} `{SciPy}
    (deploy_pos deploy_vel : vec3) (deploy_time fuse_time : Q) : exc Grenade :=
  let detonate_time := deploy_time + fuse_time in
  detonate_pos ← _solve_trajectory_scipy fuse_time deploy_pos deploy_vel;
  Ok (mkGrenade deploy_time fuse_time detonate_time detonate_pos).

Definition generate_smoke_cloud (self : Grenade) : SmokeCloud :=
  SmokeCloud_init (grenade_detonate_pos self) (detonate_time self).

(** [UAV]: [velocity_vec] is [None] until [set_flight_strategy]. *)
Record UAV : Type := mkUAV {
  uav_id : string;
  uav_start_pos : vec3;
  uav_speed : option Q;
  uav_angle : option Q;
  velocity_vec : option vec3
}.

Definition UAV_init (id : string) : exc UAV :=
  match UAVS_INITIAL !! id with
  | None => Raise KeyError
  | Some pos => Ok (mkUAV id pos None None None)
  end.

Definition set_flight_strategy `{NumPy} (self : UAV) (speed angle : Q) : UAV :=
  mkUAV (uav_id self) (uav_start_pos self) (Some speed) (Some angle)
    (Some (vscale speed (Vec3 (np_cos angle) (np_sin angle) 0.0))).

Definition UAV_get_position (self : UAV) (t : Q) : exc vec3 :=
  match velocity_vec self with
  | None => Raise ValueError
  | Some v => Ok (vadd (uav_start_pos self) (vmul v t))
  end.

Definition deploy_grenade `{NumPy} `{SciPy} (self : UAV) (deploy_time fuse_time : Q) : exc Grenade :=
  match velocity_vec self with
  | None => Raise ValueError
  | Some v =>
      deploy_pos ← UAV_get_position self deploy_time;
      Grenade_init deploy_pos v deploy_time fuse_time
  end.

(** ** 4.probelm3_4代码/optimizer.py: [ObscurationOptimizer] *)

Record grenade_strat : Type := GrenadeStrat { t_deploy : Q; t_fuse : Q }.

Record uav_strat : Type := UavStrat {
  strat_speed : Q;
  strat_angle : Q;
  grenades : list grenade_strat
}.

(** The strategy dict, in insertion order (the order [.items()] yields). *)
Definition strategy : Type := list (string * uav_strat).

(** Modelled from the spec: [TargetCylinder.get_key_points] and
    [geometry.check_collective_obscuration] are imported by this optimizer
    and are not among the sources.  The key-point set is "a deterministic,
    cached finite sample of points on the target's bounding surface", a
    function of the target geometry alone; its sampling density is left
    open by the spec. *)
Class KeyPointSampler : Type := {
  get_key_points : TargetCylinder -> list vec3
}.

(** Modelled from the spec: the single-point test of section 4.2.  The
    observer inside the cloud is hidden (step 1); else the point is covered
    iff its angle to the axis is at most [asin(cloudRadius / distance)],
    a point that coincides with the apex being covered. *)
Definition point_in_shadow_cone `{NumPy} (observer cloud_center p : vec3) : bool :=
  let dist := norm (vsub cloud_center observer) in
  if Qle_bool dist CLOUD_RADIUS then true
  else
    check_points observer (vdiv (vsub cloud_center observer) dist)
      (np_arcsin (CLOUD_RADIUS / dist)) [Finite p].

(** Modelled from the spec: [isCollectivelyHidden] of section 4.2.  Every
    key point is covered by some cloud; zero active clouds hide nothing. *)
Definition check_collective_obscuration `{NumPy}
    (observer : vec3) (cloud_centers : list vec3) (key_points : list vec3) : bool :=
  match cloud_centers with
  | [] => false
  | _ =>
      forallb (fun p => existsb (fun c => point_in_shadow_cone observer c p) cloud_centers)
        key_points
  end.



(** The base class leaves the decoding to its subclasses. *)
Definition _parse_decision_variables_base (decision_variables : list Q) : exc strategy :=
  Raise NotImplementedError.


(** The inner loop of lines 31 to 33. *)
Fixpoint deploy_all `{NumPy} `{SciPy}
    (uav : UAV) (gs : list grenade_strat) (smoke_clouds : list SmokeCloud)
    : exc (list SmokeCloud) :=
  match gs with
  | [] => Ok smoke_clouds
  | g_strat :: gs' =>
      grenade ← deploy_grenade uav (t_deploy g_strat) (t_fuse g_strat);
      deploy_all uav gs' (smoke_clouds ++ [generate_smoke_cloud grenade])
  end.

(** The loop of lines 28 to 33. *)
Fixpoint build_smoke_clouds `{NumPy} `{SciPy}
    (items : strategy) (smoke_clouds : list SmokeCloud) : exc (list SmokeCloud) :=
  match items with
  | [] => Ok smoke_clouds
  | (uav_id, uav_strat) :: items' =>
      uav ← UAV_init uav_id;
      let uav := set_flight_strategy uav (strat_speed uav_strat) (strat_angle uav_strat) in
      smoke_clouds ← deploy_all uav (grenades uav_strat) smoke_clouds;
      build_smoke_clouds items' smoke_clouds
  end.

(** [min] and [max] of a non-empty sequence of floats. *)
Definition py_min (x : Q) (l : list Q) : Q := fold_left Qmin l x.
Definition py_max (x : Q) (l : list Q) : Q := fold_left Qmax l x.

(** [round(x)]: to the nearest integer, a tie to the even one. *)
Definition py_round (x : Q) : Z :=
  let f := Qfloor x in
  let frac := x - inject_Z f in
  if Qltb frac 0.5 then f
  else if Qltb 0.5 frac then (f + 1)%Z
  else if Z.even f then f else (f + 1)%Z.

(** [np.arange(start, stop, step)]: [ceil((stop - start) / step)] values
    [start + i * step]. *)
Definition np_arange (start stop step : Q) : exc (list Q) :=
  if Qeq_bool step 0 then Raise ZeroDivisionError
  else
    let n := Z.to_nat (Qceiling ((stop - start) / step)) in
    Ok (map (fun i => start + inject_Z (Z.of_nat i) * step) (seq 0 n)).





(** ** 5.问题五py转为cpp/optimizer.py: [GlobalOptimizer] *)

Record grenade_strat5 : Type := GrenadeStrat5 {
  t_deploy5 : Q;
  t_fuse5 : Q;
  target_missile : string
}.

Record uav_strat5 : Type := UavStrat5 {
  speed5 : Q;
  angle5 : Q;
  grenades5 : list grenade_strat5
}.

(** A dict with string keys, in insertion order. *)
Definition pydict (V : Type) : Type := list (string * V).

(** [d[k] = v]: the value of an existing key is replaced in place, a new
    key goes last. *)
Fixpoint dict_set {V : Type} (d : pydict V) (k : string) (v : V) : pydict V :=
  match d with
  | [] => [(k, v)]
  | (k', v') :: d' =>
      if String.eqb k' k then (k', v) :: d' else (k', v') :: dict_set d' k v
  end.

(** [d[k]]. *)
Fixpoint dict_get {V : Type} (d : pydict V) (k : string) : exc V :=
  match d with
  | [] => Raise KeyError
  | (k', v') :: d' => if String.eqb k' k then Ok v' else dict_get d' k
  end.

Definition strategy5 : Type := pydict uav_strat5.

Record GlobalOptimizer : Type := mkGlobalOptimizer {
  uav_ids : list string;
  missile_ids : list string;
  threat_weights : gmap string Q;
  uav_grenade_counts : gmap string nat;
  missiles : gmap string Missile;
  g_target : TargetCylinder;
  g_time_step : Q;
  g_target_key_points : list vec3;
  num_missiles : nat
}.

(** [sorted(list(ids))] on strings. *)
Fixpoint insert_sorted (x : string) (l : list string) : list string :=
  match l with
  | [] => [x]
  | y :: l' => if String.leb x y then x :: y :: l' else y :: insert_sorted x l'
  end.

Definition py_sorted (l : list string) : list string := fold_right insert_sorted [] l.

(** [__init__], lines 9 to 22.  (The [UAV] objects it makes are modelled
    where [objective_function] uses them.) *)
Definition GlobalOptimizer_init `{NumPy} `{KeyPointSampler}
    (uav_ids missile_ids : list string) (threat_weights : gmap string Q)
    (uav_grenade_counts : gmap string nat) : exc GlobalOptimizer :=
  let uav_ids := py_sorted uav_ids in
  let missile_ids := py_sorted missile_ids in
  missiles ←
    fold_left (fun acc m_id => acc ← acc; m ← Missile_init m_id; Ok (<[m_id := m]> acc))
      missile_ids (Ok ∅);
  _ ← mapM UAV_init uav_ids;
  let target := TargetCylinder_init TRUE_TARGET_SPECS in
  Ok (mkGlobalOptimizer uav_ids missile_ids threat_weights uav_grenade_counts
        missiles target 0.1 (get_key_points target) (length missile_ids)).

(** [dv[i]] for an index that is not negative. *)
Definition dv_get (dv : list Q) (i : nat) : exc Q :=
  match dv !! i with
  | Some x => Ok x
  | None => Raise IndexError
  end.

(** [l[i]] for a Python int: a negative index counts from the end. *)
Definition py_getitem {A : Type} (l : list A) (i : Z) : exc A :=
  let j := if (i <? 0)%Z then (i + Z.of_nat (length l))%Z else i in
  if (j <? 0)%Z then Raise IndexError
  else
    match l !! Z.to_nat j with
    | Some a => Ok a
    | None => Raise IndexError
    end.

(** [a, b = s]. *)
Definition unpack2 (s : list Q) : exc (Q * Q) :=
  match s with
  | [a; b] => Ok (a, b)
  | _ => Raise ValueError
  end.

(** [dv[i : j]] for [0 <= i <= j]: a slice never raises, it is cut short. *)
Definition dv_slice (dv : list Q) (i j : nat) : list Q := take (j - i) (drop i dv).

(** The loop of lines 42 to 66: [k] munitions are still to decode and [i]
    is the loop variable. *)
Fixpoint parse_grenades (self : GlobalOptimizer) (dv : list Q)
    (k i : nat) (last_td : Q) (dv_index : nat) (gs : list grenade_strat5)
    : exc (list grenade_strat5 * nat) :=
  match k with
  | O => Ok (gs, dv_index)
  | S k' =>
      x ← dv_get dv dv_index;
      let t_d := if Nat.eqb i 0 then x else last_td + x in
      t_f ← dv_get dv (dv_index + 1);
      target_selector ← dv_get dv (dv_index + 2);
      let target_missile_index :=
        Z.min (py_int (target_selector * inject_Z (Z.of_nat (num_missiles self))))
              (Z.of_nat (num_missiles self) - 1) in
      target_missile_id ← py_getitem (missile_ids self) target_missile_index;
      parse_grenades self dv k' (S i) t_d (dv_index + 3)
        (gs ++ [GrenadeStrat5 t_d t_f target_missile_id])
  end.

(** The loop of lines 31 to 68 over [self.uav_ids]. *)
Fixpoint parse_uavs (self : GlobalOptimizer) (dv : list Q)
    (ids : list string) (dv_index : nat) (strategy : strategy5) : exc strategy5 :=
  match ids with
  | [] => Ok strategy
  | uav_id :: ids' =>
      num_grenades ←
        match uav_grenade_counts self !! uav_id with
        | Some n => Ok n
        | None => Raise KeyError
        end;
      '(speed, angle) ← unpack2 (dv_slice dv dv_index (dv_index + 2));
      let dv_index := (dv_index + 2)%nat in
      '(gs, dv_index) ← parse_grenades self dv num_grenades 0 0 dv_index [];
      parse_uavs self dv ids' dv_index (dict_set strategy uav_id (UavStrat5 speed angle gs))
  end.

Definition _parse_decision_variables (self : GlobalOptimizer) (dv : list Q) : exc strategy5 :=
  parse_uavs self dv (uav_ids self) 0 [].

(** The length of the vectors the decoder is written for: two scalars for
    each carrier and three for each of its munitions. *)
Fixpoint schema_length (counts : gmap string nat) (ids : list string) : option nat :=
  match ids with
  | [] => Some 0%nat
  | uav_id :: ids' =>
      n ← counts !! uav_id;
      rest ← schema_length counts ids';
      Some (2 + 3 * n + rest)%nat
  end.

(** Lines 86 to 91: the munitions of one carrier, each cloud with the id
    of the missile it is meant for. *)
Fixpoint deploy_all5 `{NumPy} `{SciPy}
    (uav : UAV) (gs : list grenade_strat5) (clouds : list (SmokeCloud * string))
    : exc (list (SmokeCloud * string)) :=
  match gs with
  | [] => Ok clouds
  | g_strat :: gs' =>
      grenade ← deploy_grenade uav (t_deploy5 g_strat) (t_fuse5 g_strat);
      deploy_all5 uav gs' (clouds ++ [(generate_smoke_cloud grenade, target_missile g_strat)])
  end.

(** Lines 83 to 91.  [self.uavs[uav_id]] is the [UAV] made in [__init__];
    [set_flight_strategy] overwrites all it keeps of an earlier call. *)
Fixpoint build_smoke_clouds5 `{NumPy} `{SciPy}
    (items : strategy5) (clouds : list (SmokeCloud * string))
    : exc (list (SmokeCloud * string)) :=
  match items with
  | [] => Ok clouds
  | (uav_id, uav_strat) :: items' =>
      uav ← UAV_init uav_id;
      let uav := set_flight_strategy uav (speed5 uav_strat) (angle5 uav_strat) in
      clouds ← deploy_all5 uav (grenades5 uav_strat) clouds;
      build_smoke_clouds5 items' clouds
  end.

(** Lines 105 to 125: one missile at one instant. *)
Definition sample_missile `{NumPy}
    (self : GlobalOptimizer) (clouds : list (SmokeCloud * string)) (t : Q)
    (totals : exc (pydict Q)) (missile_id : string) : exc (pydict Q) :=
  totals ← totals;
  missile ←
    match missiles self !! missile_id with
    | Some m => Ok m
    | None => Raise KeyError
    end;
  let active_cloud_centers_for_missile :=
    omap (fun c => if String.eqb (snd c) missile_id then get_center (fst c) t else None)
      clouds in
  match active_cloud_centers_for_missile with
  | [] => Ok totals
  | _ =>
      let missile_pos := Missile_get_position missile t in
      if check_collective_obscuration missile_pos active_cloud_centers_for_missile
           (g_target_key_points self)
      then
        old ← dict_get totals missile_id;
        Ok (dict_set totals missile_id (old + g_time_step self))
      else Ok totals
  end.

(** Lines 128 to 130. *)
Fixpoint weighted_total (self : GlobalOptimizer) (items : pydict Q) (score : Q) : exc Q :=
  match items with
  | [] => Ok score
  | (missile_id, obs_time) :: items' =>
      w ←
        match threat_weights self !! missile_id with
        | Some w => Ok w
        | None => Raise KeyError
        end;
      weighted_total self items' (score + w * obs_time)
  end.

(** Lines 81 to 133: the score of a decoded strategy. *)
Definition evaluate_strategy `{NumPy} `{SciPy}
    (self : GlobalOptimizer) (strategy : strategy5) : exc Q :=
  all_smoke_clouds ← build_smoke_clouds5 strategy [];
  match all_smoke_clouds with
  | [] => Ok 1e9
  | c :: cs =>
      let sim_start_time := py_min (start_time (fst c)) ((start_time ∘ fst) <$> cs) in
      let sim_end_time := py_max (end_time (fst c)) ((end_time ∘ fst) <$> cs) in
      let total_obscured_time_per_missile :=
        fold_left (fun d m_id => dict_set d m_id 0.0) (missile_ids self) [] in
      ts ← np_arange sim_start_time sim_end_time (g_time_step self);
      totals ←
        fold_left
          (fun totals t =>
             fold_left (sample_missile self all_smoke_clouds t) (missile_ids self) totals)
          ts (Ok total_obscured_time_per_missile);
      total_weighted_score ← weighted_total self totals 0;
      Ok (- total_weighted_score)
  end.

(** [objective_function], lines 72 to 133. *)
Definition objective_function5 `{NumPy} `{SciPy}
    (self : GlobalOptimizer) (decision_variables : list Q) : exc Q :=
  match _parse_decision_variables self decision_variables with
  | Raise ValueError | Raise IndexError => Ok 1e9
  | Raise e => Raise e
  | Ok strategy => evaluate_strategy self strategy
  end.

(** ** State and exceptions

    [St S A]: a computation over a mutable state [S] that returns an [A] or
    raises.  What was assigned before an exception stays assigned. *)

Definition St (S A : Type) : Type := S -> exc A * S.

#[global] Instance St_ret (S : Type) : MRet (St S) := fun A a s => (Ok a, s).
#[global] Instance St_bind (S : Type) : MBind (St S) := fun A B k m s =>
  match m s with
  | (Ok a, s') => k a s'
  | (Raise e, s') => (Raise e, s')
  end.

Definition st_raise {S A : Type} (e : exn) : St S A := fun s => (Raise e, s).
Definition st_get {S : Type} : St S S := fun s => (Ok s, s).
Definition st_put {S : Type} (s' : S) : St S unit := fun _ => (Ok tt, s').
Definition st_of_exc {S A : Type} (m : exc A) : St S A := fun s => (m, s).

(** A computation on the second component of the state. *)
Definition lift_snd {S W A : Type} (m : St W A) : St (S * W) A := fun s =>
  let '(r, w') := m (snd s) in (r, (fst s, w')).

(** ** 5.问题五py转为cpp2/adaptive_de.py *)

Inductive MutationStrategy : Type :=
| DE_RAND_1
| DE_BEST_1
| DE_CURRENT_TO_BEST_1
| DE_RAND_2
| DE_BEST_2.

Definition MutationStrategy_eqb (a b : MutationStrategy) : bool :=
  match a, b with
  | DE_RAND_1, DE_RAND_1 | DE_BEST_1, DE_BEST_1
  | DE_CURRENT_TO_BEST_1, DE_CURRENT_TO_BEST_1
  | DE_RAND_2, DE_RAND_2 | DE_BEST_2, DE_BEST_2 => true
  | _, _ => false
  end.

Inductive BoundaryHandling : Type :=
| CLIP
| REFLECT
| REINITIALIZE
| MIDPOINT.

(** The functions of [numpy.random] the optimizer calls, on a world [W]
    that holds the generator's state. *)
Class NpRandom (W : Type) : Type := {
  (** [np.random.seed(seed)] with [random.seed(seed)] *)
  random_seed : nat -> W -> W;
  (** [np.random.normal(loc, scale)] *)
  random_normal : Q -> Q -> St W Q;
  (** [np.random.uniform(low, high)] *)
  random_uniform : Q -> Q -> St W Q;
  (** [np.random.random()] *)
  random_random : St W Q;
  (** [np.random.randint(low, high)]; ValueError when [low >= high] *)
  random_randint : nat -> nat -> St W nat;
  (** [np.random.choice(a, size, replace=False)]; ValueError when [a] is
      shorter than [size] *)
  random_choice : list nat -> nat -> St W (list nat);
  (** [np.random.choice(a, p=weights)] *)
  random_choice_p : list MutationStrategy -> list Q -> St W MutationStrategy
}.

(** A float or [np.inf]. *)
Inductive xfloat : Type :=
| Fin (x : Q)
| PosInf.

(** [x < y] for a float [x] and [y] a float or inf. *)
Definition lt_xfloat (x : Q) (y : xfloat) : bool :=
  match y with
  | Fin y => Qltb x y
  | PosInf => true
  end.

(** [abs(y) < tol]. *)
Definition abs_lt (y : xfloat) (tol : Q) : bool :=
  match y with
  | Fin y => Qltb (Qabs y) tol
  | PosInf => false
  end.

(** [collections.deque(maxlen=n).append(x)]: the oldest entries fall out. *)
Definition deque_append {A : Type} (maxlen : nat) (d : list A) (x : A) : list A :=
  drop (length (d ++ [x]) - maxlen) (d ++ [x]).

(** *** [AdaptiveParameters] *)

Record AdaptiveParameters : Type := mkAdaptiveParameters {
  memory_size : nat;
  successful_F : list Q;
  successful_CR : list Q;
  mean_F : Q;
  mean_CR : Q;
  std_F : Q;
  std_CR : Q
}.

Definition AdaptiveParameters_init (memory_size : nat) : AdaptiveParameters :=
  mkAdaptiveParameters memory_size [] [] 0.5 0.5 0.1 0.1.

Definition add_success (self : AdaptiveParameters) (F CR : Q) : AdaptiveParameters :=
  mkAdaptiveParameters (memory_size self)
    (deque_append (memory_size self) (successful_F self) F)
    (deque_append (memory_size self) (successful_CR self) CR)
    (mean_F self) (mean_CR self) (std_F self) (std_CR self).

Definition update_parameters (self : AdaptiveParameters) : AdaptiveParameters :=
  if Nat.ltb 0 (length (successful_F self)) then
    let F_values := successful_F self in
    let new_mean_F :=
      if Qltb 0 (np_sum F_values)
      then np_sum ((fun f => f ^ 2) <$> F_values) / np_sum F_values
      else 0.5 in
    let new_mean_CR := np_mean (successful_CR self) in
    mkAdaptiveParameters (memory_size self) [] [] new_mean_F new_mean_CR
      (std_F self) (std_CR self)
  else self.

Definition generate_parameters {W : Type} `{NpRandom W}
    (self : AdaptiveParameters) : St W (Q * Q) :=
  f ← random_normal (mean_F self) (std_F self);
  let F := np_clip f 0.0 2.0 in
  cr ← random_normal (mean_CR self) (std_CR self);
  let CR := np_clip cr 0.0 1.0 in
  F ← (if Qle_bool F 0 then random_uniform 0.1 0.9 else mret F);
  mret (F, CR).

(** *** [StrategySelector] *)

(** A dict keyed by the strategies, in insertion order. *)
Definition sdict (V : Type) : Type := list (MutationStrategy * V).

Fixpoint sdict_get {V : Type} (d : sdict V) (k : MutationStrategy) : exc V :=
  match d with
  | [] => Raise KeyError
  | (k', v) :: d' => if MutationStrategy_eqb k' k then Ok v else sdict_get d' k
  end.

Fixpoint sdict_set {V : Type} (d : sdict V) (k : MutationStrategy) (v : V) : sdict V :=
  match d with
  | [] => [(k, v)]
  | (k', v') :: d' =>
      if MutationStrategy_eqb k' k then (k', v) :: d' else (k', v') :: sdict_set d' k v
  end.

Record StrategySelector : Type := mkStrategySelector {
  strategies : list MutationStrategy;
  success_rates : sdict Q;
  total_uses : sdict nat;
  recent_successes : sdict (list Q)
}.

Definition StrategySelector_init (strategies : list MutationStrategy) : StrategySelector :=
  mkStrategySelector strategies
    (fold_left (fun d s => sdict_set d s 1.0) strategies [])
    (fold_left (fun d s => sdict_set d s 1%nat) strategies [])
    (fold_left (fun d s => sdict_set d s []) strategies []).

(** The weight of one strategy, lines 87 to 90. *)
Definition strategy_weight (self : StrategySelector) (strategy : MutationStrategy) : exc Q :=
  recent ← sdict_get (recent_successes self) strategy;
  let recent_success_rate :=
    match recent with
    | [] => 0.5
    | _ => np_mean recent
    end in
  overall_rate ← sdict_get (success_rates self) strategy;
  Ok (0.7 * overall_rate + 0.3 * recent_success_rate).

Definition select_strategy {W : Type} `{NpRandom W}
    (self : StrategySelector) : St W MutationStrategy :=
  weights ← st_of_exc (mapM (strategy_weight self) (strategies self));
  let total := np_sum weights in
  let weights := (fun w => w / total) <$> weights in
  random_choice_p (strategies self) weights.

Definition update_strategy_performance (self : StrategySelector)
    (strategy : MutationStrategy) (success : bool) : exc StrategySelector :=
  uses ← sdict_get (total_uses self) strategy;
  let total_uses' := sdict_set (total_uses self) strategy (uses + 1)%nat in
  recent ← sdict_get (recent_successes self) strategy;
  let recent_successes' :=
    sdict_set (recent_successes self) strategy
      (deque_append 10 recent (if success then 1.0 else 0.0)) in
  let decay_factor := 0.95 in
  rate ← sdict_get (success_rates self) strategy;
  let rate' :=
    if success then decay_factor * rate + (1 - decay_factor) * 1.0
    else decay_factor * rate + (1 - decay_factor) * 0.0 in
  Ok (mkStrategySelector (strategies self)
        (sdict_set (success_rates self) strategy rate') total_uses' recent_successes').

(** *** [AdaptiveDifferentialEvolution] *)

(** An individual: a one-dimensional [np.ndarray] of floats. *)
Abbreviation arr := (list Q).

Definition arr_add (a b : arr) : arr := zip_with Qplus a b.
Definition arr_sub (a b : arr) : arr := zip_with Qminus a b.
Definition arr_scale (k : Q) (a : arr) : arr := Qmult k <$> a.

(** [a[i]] and [a[i] = v] for an index that is not negative. *)
Definition arr_get {A : Type} (a : list A) (i : nat) : exc A :=
  match a !! i with
  | Some x => Ok x
  | None => Raise IndexError
  end.

Definition arr_set {A : Type} (a : list A) (i : nat) (v : A) : exc (list A) :=
  if Nat.ltb i (length a) then Ok (<[i := v]> a) else Raise IndexError.

(** The attributes [__init__] sets and nothing assigns afterwards. *)
Record DEConfig (W : Type) : Type := mkDEConfig {
  objective_func : arr -> St W Q;
  bounds : list (Q * Q);
  dim : nat;
  lower_bounds : list Q;
  upper_bounds : list Q;
  popsize : nat;
  maxiter : nat;
  tol : Q;
  boundary_handling : BoundaryHandling;
  use_archive : bool;
  archive_size : nat;
  adaptive_popsize : bool
}.
Arguments mkDEConfig {W}.
Arguments objective_func {W}.
Arguments bounds {W}.
Arguments dim {W}.
Arguments lower_bounds {W}.
Arguments upper_bounds {W}.
Arguments popsize {W}.
Arguments maxiter {W}.
Arguments tol {W}.
Arguments boundary_handling {W}.
Arguments use_archive {W}.
Arguments archive_size {W}.
Arguments adaptive_popsize {W}.

(** The attributes a run assigns.  [population] and [fitness] are [None]
    until [initialize_population] assigns them, which [optimize] does
    before anything reads them; they start empty here. *)
Record DERun : Type := mkDERun {
  adaptive_params : AdaptiveParameters;
  strategy_selector : StrategySelector;
  archive : option (list arr);
  population : list arr;
  fitness : list Q;
  best_idx : nat;
  best_fitness : xfloat;
  generation : nat;
  convergence_history : list xfloat
}.

Definition set_adaptive_params (v : AdaptiveParameters) (s : DERun) : DERun :=
  mkDERun v (strategy_selector s) (archive s) (population s) (fitness s)
    (best_idx s) (best_fitness s) (generation s) (convergence_history s).
Definition set_strategy_selector (v : StrategySelector) (s : DERun) : DERun :=
  mkDERun (adaptive_params s) v (archive s) (population s) (fitness s)
    (best_idx s) (best_fitness s) (generation s) (convergence_history s).
Definition set_archive (v : option (list arr)) (s : DERun) : DERun :=
  mkDERun (adaptive_params s) (strategy_selector s) v (population s) (fitness s)
    (best_idx s) (best_fitness s) (generation s) (convergence_history s).
Definition set_population (v : list arr) (s : DERun) : DERun :=
  mkDERun (adaptive_params s) (strategy_selector s) (archive s) v (fitness s)
    (best_idx s) (best_fitness s) (generation s) (convergence_history s).
Definition set_fitness (v : list Q) (s : DERun) : DERun :=
  mkDERun (adaptive_params s) (strategy_selector s) (archive s) (population s) v
    (best_idx s) (best_fitness s) (generation s) (convergence_history s).
Definition set_best_idx (v : nat) (s : DERun) : DERun :=
  mkDERun (adaptive_params s) (strategy_selector s) (archive s) (population s) (fitness s)
    v (best_fitness s) (generation s) (convergence_history s).
Definition set_best_fitness (v : xfloat) (s : DERun) : DERun :=
  mkDERun (adaptive_params s) (strategy_selector s) (archive s) (population s) (fitness s)
    (best_idx s) v (generation s) (convergence_history s).
Definition set_generation (v : nat) (s : DERun) : DERun :=
  mkDERun (adaptive_params s) (strategy_selector s) (archive s) (population s) (fitness s)
    (best_idx s) (best_fitness s) v (convergence_history s).
Definition set_convergence_history (v : list xfloat) (s : DERun) : DERun :=
  mkDERun (adaptive_params s) (strategy_selector s) (archive s) (population s) (fitness s)
    (best_idx s) (best_fitness s) (generation s) v.

(** The optimizer at work: its attributes and the world around it. *)
Definition Opt (W A : Type) : Type := St (DERun * W) A.

Definition get_self {W : Type} : Opt W DERun := fun s => (Ok (fst s), s).
Definition modify_self {W : Type} (f : DERun -> DERun) : Opt W unit :=
  fun s => (Ok tt, (f (fst s), snd s)).

(** [__init__], lines 116 to 169. *)
Definition AdaptiveDifferentialEvolution_init {W : Type} `{NpRandom W}
    (objective_func : arr -> St W Q) (bounds : list (Q * Q)) (popsize : option nat)
    (maxiter : nat) (tol : Q) (seed : option nat) (boundary_handling : BoundaryHandling)
    (use_archive : bool) (archive_size : nat) (adaptive_popsize : bool) (w : W)
    : DEConfig W * DERun * W :=
  let dim := length bounds in
  let w :=
    match seed with
    | Some seed => random_seed seed w
    | None => w
    end in
  let available_strategies := [DE_RAND_1; DE_BEST_1; DE_CURRENT_TO_BEST_1; DE_RAND_2] in
  (mkDEConfig objective_func bounds dim (fst <$> bounds) (snd <$> bounds)
     (match popsize with
      | Some p => p
      | None => Nat.max 30 (4 * dim)
      end)
     maxiter tol boundary_handling use_archive archive_size adaptive_popsize,
   mkDERun (AdaptiveParameters_init 100) (StrategySelector_init available_strategies)
     (if use_archive then Some [] else None)
     [] [] 0 PosInf 0 [],
   w).

(** [np.argmin]: the first index of the least entry; ValueError on an
    empty array. *)
Fixpoint argmin_from (best_i : nat) (best : Q) (i : nat) (l : list Q) : nat :=
  match l with
  | [] => best_i
  | x :: l' =>
      if Qltb x best then argmin_from i x (S i) l' else argmin_from best_i best (S i) l'
  end.

Definition np_argmin (l : list Q) : exc nat :=
  match l with
  | [] => Raise ValueError
  | x :: l' => Ok (argmin_from 0 x 1 l')
  end.

(** [np.argsort]: the indices in the order of their entries.  (An index
    goes before the indices of equal entries that follow it; numpy's
    default sort may order equal entries otherwise.) *)
Fixpoint insert_index (a : list Q) (j : nat) (l : list nat) : list nat :=
  match l with
  | [] => [j]
  | k :: l' =>
      if Qltb (nth k a 0) (nth j a 0) then k :: insert_index a j l' else j :: k :: l'
  end.

Definition np_argsort (a : list Q) : list nat :=
  fold_right (insert_index a) [] (seq 0 (length a)).

(** [a[indices]] for an array of indices. *)
Definition take_indices {A : Type} (a : list A) (indices : list nat) : list A :=
  omap (fun j => a !! j) indices.

(** [np.random.uniform(lower_bounds, upper_bounds, (popsize, dim))]. *)
Definition uniform_row {W : Type} `{NpRandom W} (lower upper : list Q) : St W arr :=
  mapM (fun b => random_uniform (fst b) (snd b)) (zip lower upper).

Definition uniform_matrix {W : Type} `{NpRandom W}
    (lower upper : list Q) (rows : nat) : St W (list arr) :=
  mapM (fun _ => uniform_row lower upper) (seq 0 rows).

Definition initialize_population {W : Type} `{NpRandom W} (cfg : DEConfig W) : Opt W unit :=
  pop ← lift_snd (uniform_matrix (lower_bounds cfg) (upper_bounds cfg) (popsize cfg));
  modify_self (set_population pop);;
  fit ← lift_snd (mapM (objective_func cfg) pop);
  modify_self (set_fitness fit);;
  idx ← st_of_exc (np_argmin fit);
  modify_self (set_best_idx idx);;
  best ← st_of_exc (arr_get fit idx);
  modify_self (set_best_fitness (Fin best)).

(** [mutate], lines 189 to 226. *)
Definition mutate {W : Type} `{NpRandom W}
    (population : list arr) (best_idx target_idx : nat)
    (strategy : MutationStrategy) (F : Q) : St W arr :=
  let pop_size := length population in
  let x i := st_of_exc (arr_get population i) : St W arr in
  match strategy with
  | DE_RAND_1 | DE_BEST_2 =>
      let candidates := List.filter (fun i => negb (i =? target_idx)%nat) (seq 0 pop_size) in
      rs ← random_choice candidates 3;
      match rs with
      | [r1; r2; r3] =>
          x1 ← x r1; x2 ← x r2; x3 ← x r3;
          mret (arr_add x1 (arr_scale F (arr_sub x2 x3)))
      | _ => st_raise ValueError
      end
  | DE_BEST_1 =>
      let candidates :=
        List.filter (fun i => negb (i =? target_idx)%nat && negb (i =? best_idx)%nat)
          (seq 0 pop_size) in
      rs ← random_choice candidates 2;
      match rs with
      | [r1; r2] =>
          xb ← x best_idx; x1 ← x r1; x2 ← x r2;
          mret (arr_add xb (arr_scale F (arr_sub x1 x2)))
      | _ => st_raise ValueError
      end
  | DE_CURRENT_TO_BEST_1 =>
      let candidates :=
        List.filter (fun i => negb (i =? target_idx)%nat && negb (i =? best_idx)%nat)
          (seq 0 pop_size) in
      rs ← random_choice candidates 2;
      match rs with
      | [r1; r2] =>
          xi ← x target_idx; xb ← x best_idx; x1 ← x r1; x2 ← x r2;
          mret (arr_add (arr_add xi (arr_scale F (arr_sub xb xi)))
                        (arr_scale F (arr_sub x1 x2)))
      | _ => st_raise ValueError
      end
  | DE_RAND_2 =>
      let candidates := List.filter (fun i => negb (i =? target_idx)%nat) (seq 0 pop_size) in
      rs ← random_choice candidates 5;
      match rs with
      | [r1; r2; r3; r4; r5] =>
          x1 ← x r1; x2 ← x r2; x3 ← x r3; x4 ← x r4; x5 ← x r5;
          mret (arr_add (arr_add x1 (arr_scale F (arr_sub x2 x3)))
                        (arr_scale F (arr_sub x4 x5)))
      | _ => st_raise ValueError
      end
  end.

(** [crossover], lines 228 to 239: the loop over [i], with [n] dimensions
    still to visit. *)
Fixpoint crossover_loop {W : Type} `{NpRandom W}
    (mutant : arr) (CR : Q) (random_dim : nat) (n i : nat) (trial : arr) : St W arr :=
  match n with
  | O => mret trial
  | S n' =>
      u ← random_random;
      trial ←
        (if Qltb u CR || (i =? random_dim)%nat
         then m ← st_of_exc (arr_get mutant i); st_of_exc (arr_set trial i m)
         else mret trial);
      crossover_loop mutant CR random_dim n' (S i) trial
  end.

Definition crossover {W : Type} `{NpRandom W}
    (dim : nat) (target mutant : arr) (CR : Q) : St W arr :=
  let trial := target in
  random_dim ← random_randint 0 dim;
  crossover_loop mutant CR random_dim dim 0 trial.

(** [handle_boundary], lines 241 to 268, one dimension at a time. *)
Definition reflect1 (x lo hi : Q) : Q :=
  if Qltb x lo then Qmin (lo + (lo - x)) hi
  else if Qltb hi x then Qmax (hi - (x - hi)) lo
  else x.

Definition reinitialize1 {W : Type} `{NpRandom W} (x lo hi : Q) : St W Q :=
  if Qltb x lo || Qltb hi x then random_uniform lo hi else mret x.

Definition midpoint1 (x lo hi : Q) : Q :=
  if Qltb x lo || Qltb hi x then (lo + hi) / 2.0 else x.

Definition handle_boundary {W : Type} `{NpRandom W}
    (cfg : DEConfig W) (individual : arr) : St W arr :=
  let dims := zip individual (zip (lower_bounds cfg) (upper_bounds cfg)) in
  match boundary_handling cfg with
  | CLIP => mret ((fun d => np_clip (fst d) (fst (snd d)) (snd (snd d))) <$> dims)
  | REFLECT => mret ((fun d => reflect1 (fst d) (fst (snd d)) (snd (snd d))) <$> dims)
  | REINITIALIZE => mapM (fun d => reinitialize1 (fst d) (fst (snd d)) (snd (snd d))) dims
  | MIDPOINT => mret ((fun d => midpoint1 (fst d) (fst (snd d)) (snd (snd d))) <$> dims)
  end.

(** [update_population_size], lines 270 to 288. *)
Definition update_population_size {W : Type} (cfg : DEConfig W) (self : DERun) : DERun :=
  if negb (adaptive_popsize cfg) then self
  else
    let min_popsize := Nat.max 4 (dim cfg / 2) in
    let max_popsize := popsize cfg in
    let progress := inject_Z (Z.of_nat (generation self)) / inject_Z (Z.of_nat (maxiter cfg)) in
    let current_popsize :=
      py_int (inject_Z (Z.of_nat max_popsize)
              - progress * (inject_Z (Z.of_nat max_popsize) - inject_Z (Z.of_nat min_popsize))) in
    let current_popsize := Z.max current_popsize (Z.of_nat min_popsize) in
    if (current_popsize <? Z.of_nat (length (population self)))%Z then
      let sorted_indices := np_argsort (fitness self) in
      let kept := take (Z.to_nat current_popsize) sorted_indices in
      set_best_idx 0
        (set_fitness (take_indices (fitness self) kept)
           (set_population (take_indices (population self) kept) self))
    else self.

(** The four lists a generation keeps, lines 302 to 305. *)
Record gen_log : Type := mkGenLog {
  generation_successful_F : list Q;
  generation_successful_CR : list Q;
  generation_strategies_used : list MutationStrategy;
  generation_strategies_success : list bool
}.

(** What the trial of one individual consists of, lines 310 to 324. *)
Record trial_result : Type := mkTrial {
  trial_F : Q;
  trial_CR : Q;
  trial_strategy : MutationStrategy;
  trial_vector : arr;
  trial_fitness : Q
}.

(** Lines 310 to 324: parameters, strategy, mutant, trial and its
    evaluation.  Nothing of the optimizer is assigned here. *)
Definition make_trial {W : Type} `{NpRandom W}
    (cfg : DEConfig W) (self : DERun) (i : nat) : St W trial_result :=
  '(F, CR) ← generate_parameters (adaptive_params self);
  strategy ← select_strategy (strategy_selector self);
  mutant ← mutate (population self) (best_idx self) i strategy F;
  mutant ← handle_boundary cfg mutant;
  target ← st_of_exc (arr_get (population self) i);
  trial ← crossover (dim cfg) target mutant CR;
  trial ← handle_boundary cfg trial;
  fit ← objective_func cfg trial;
  mret (mkTrial F CR strategy trial fit).

(** Lines 333 to 344: the trial replaces individual [i]. *)
Definition replace_individual {W : Type} (cfg : DEConfig W)
    (self : DERun) (i : nat) (old : arr) (t : trial_result) : DERun :=
  let self :=
    match archive self with
    | Some a => set_archive (Some (deque_append (archive_size cfg) a old)) self
    | None => self
    end in
  let self := set_population (<[i := trial_vector t]> (population self)) self in
  let self := set_fitness (<[i := trial_fitness t]> (fitness self)) self in
  if lt_xfloat (trial_fitness t) (best_fitness self)
  then set_best_fitness (Fin (trial_fitness t)) (set_best_idx i self)
  else self.

(** The body of the loop over the individuals, lines 308 to 348. *)
Definition evolve_individual {W : Type} `{NpRandom W}
    (cfg : DEConfig W) (log : gen_log) (i : nat) : Opt W gen_log :=
  self ← get_self;
  t ← lift_snd (make_trial cfg self i);
  fit_i ← st_of_exc (arr_get (fitness self) i);
  old ← st_of_exc (arr_get (population self) i);
  let success := Qltb (trial_fitness t) fit_i in
  log ←
    (if success then
       modify_self (fun self => replace_individual cfg self i old t);;
       mret (mkGenLog (generation_successful_F log ++ [trial_F t])
                      (generation_successful_CR log ++ [trial_CR t])
                      (generation_strategies_used log)
                      (generation_strategies_success log))
     else mret log);
  mret (mkGenLog (generation_successful_F log) (generation_successful_CR log)
          (generation_strategies_used log ++ [trial_strategy t])
          (generation_strategies_success log ++ [success])).

Fixpoint evolve_all {W : Type} `{NpRandom W}
    (cfg : DEConfig W) (log : gen_log) (indices : list nat) : Opt W gen_log :=
  match indices with
  | [] => mret log
  | i :: indices' =>
      log ← evolve_individual cfg log i;
      evolve_all cfg log indices'
  end.

(** Lines 351 to 353 on the adaptive parameters. *)
Definition record_generation (ap : AdaptiveParameters) (Fs CRs : list Q) : AdaptiveParameters :=
  update_parameters
    (fold_left (fun ap p => add_success ap (fst p) (snd p)) (zip Fs CRs) ap).

(** Lines 356 and 357. *)
Fixpoint update_selector {W : Type}
    (used : list (MutationStrategy * bool)) : Opt W unit :=
  match used with
  | [] => mret tt
  | (strategy, success) :: used' =>
      self ← get_self;
      sel ← st_of_exc (update_strategy_performance (strategy_selector self) strategy success);
      modify_self (set_strategy_selector sel);;
      update_selector used'
  end.

(** The end of a generation, lines 350 to 360. *)
Definition end_of_generation {W : Type} (log : gen_log) : Opt W unit :=
  modify_self (fun self =>
    set_adaptive_params
      (record_generation (adaptive_params self)
         (generation_successful_F log) (generation_successful_CR log)) self);;
  update_selector (zip (generation_strategies_used log) (generation_strategies_success log));;
  modify_self (fun self =>
    set_convergence_history (convergence_history self ++ [best_fitness self]) self).

(** One pass of the loop over the generations, lines 296 to 360. *)
Definition run_generation {W : Type} `{NpRandom W}
    (cfg : DEConfig W) (generation : nat) : Opt W unit :=
  modify_self (set_generation generation);;
  modify_self (update_population_size cfg);;
  self ← get_self;
  log ← evolve_all cfg (mkGenLog [] [] [] []) (seq 0 (length (population self)));
  end_of_generation log.

(** The loop over the generations with its [break], lines 295 to 371. *)
Fixpoint run_generations {W : Type} `{NpRandom W}
    (cfg : DEConfig W) (gens : list nat) : Opt W unit :=
  match gens with
  | [] => mret tt
  | generation :: gens' =>
      run_generation cfg generation;;
      self ← get_self;
      if abs_lt (best_fitness self) (tol cfg) then mret tt
      else run_generations cfg gens'
  end.

Record OptimizeResult : Type := mkOptimizeResult {
  res_x : arr;
  res_fun : xfloat;
  res_nit : nat;
  res_success : bool;
  res_convergence_history : list xfloat;
  res_final_population : list arr;
  res_final_fitness : list Q
}.

Definition create_result {W : Type} (cfg : DEConfig W) : Opt W OptimizeResult :=
  self ← get_self;
  x ← st_of_exc (arr_get (population self) (best_idx self));
  mret (mkOptimizeResult x (best_fitness self) (generation self)
          (abs_lt (best_fitness self) (tol cfg)) (convergence_history self)
          (population self) (fitness self)).

(** [optimize], lines 290 to 373. *)
Definition optimize {W : Type} `{NpRandom W} (cfg : DEConfig W) : Opt W OptimizeResult :=
  initialize_population cfg;;
  run_generations cfg (seq 0 (maxiter cfg));;
  create_result cfg.

(** [adaptive_differential_evolution], lines 388 to 418: the optimizer it
    makes, and the run from the world [__init__] leaves. *)
Definition adaptive_differential_evolution_optimizer {W : Type} `{NpRandom W}
    (objective_func : arr -> St W Q) (bounds : list (Q * Q)) (popsize : option nat)
    (maxiter : nat) (tol : Q) (seed : option nat) (w : W) : DEConfig W * DERun * W :=
  AdaptiveDifferentialEvolution_init objective_func bounds popsize maxiter tol seed
    REFLECT true 100 true w.

Definition adaptive_differential_evolution {W : Type} `{NpRandom W}
    (objective_func : arr -> St W Q) (bounds : list (Q * Q)) (popsize : option nat)
    (maxiter : nat) (tol : Q) (seed : option nat) (w : W)
    : exc OptimizeResult * (DERun * W) :=
  let '(cfg, self, w) :=
    adaptive_differential_evolution_optimizer objective_func bounds popsize maxiter tol seed w in
  optimize cfg (self, w).

(** ** Executable implementations of the interfaces

    Small rational stand-ins for the libraries, to run the definitions on
    concrete inputs.  No theorem below depends on them. *)

(** The floor of the square root of a rational, on its reduced form. *)
Definition Qsqrt_floor (q : Q) : Q :=
  let r := Qred q in
  Z.sqrt (Qnum r * Zpos (Qden r)) # Qden r.

(** First-order approximations of the trigonometric functions. *)
Definition rational_numpy : NumPy := {|
  np_sqrt := Qsqrt_floor;
  np_arccos := fun x => 1.5708 - x;
  np_arcsin := fun x => x;
  np_cos := fun x => 1 - x * x / 2;
  np_sin := fun x => x
|}.

(** One explicit Euler step over the whole span. *)
Definition euler_scipy : SciPy := {|
  solve_ivp := fun f t_span y0 t_eval =>
    dy ← f (fst t_span) y0;
    let h := snd t_span - fst t_span in
    Ok (mkOdeResult true
          [State6 (vadd (st_pos y0) (vscale h (st_pos dy)))
                  (vadd (st_vel y0) (vscale h (st_vel dy)))])
|}.

(** The two centres and four rim points at each height. *)
Definition axis_sampler : KeyPointSampler := {|
  get_key_points := fun c =>
    let r := radius c in
    let rim o := [vadd o (Vec3 r 0 0); vsub o (Vec3 r 0 0);
                  vadd o (Vec3 0 r 0); vsub o (Vec3 0 r 0)] in
    [bottom_center c; top_center c] ++ rim (bottom_center c) ++ rim (top_center c)
|}.

(** A linear congruential generator on [Z]. *)
Definition lcg_next (s : Z) : Z := ((s * 1103515245 + 12345) mod 2147483648)%Z.

(** A draw in [[0, 1)] with three decimals. *)
Definition lcg_unit (s : Z) : Q := (s / 65536) mod 1000 # 1000.

Definition lcg_random : NpRandom Z := {|
  random_seed := fun seed _ => Z.of_nat seed;
  random_normal := fun loc scale s =>
    (Ok (loc + scale * (2 * lcg_unit s - 1)), lcg_next s);
  random_uniform := fun low high s =>
    (Ok (low + (high - low) * lcg_unit s), lcg_next s);
  random_random := fun s => (Ok (lcg_unit s), lcg_next s);
  random_randint := fun low high s =>
    if (low <? high)%nat
    then (Ok (low + Z.to_nat ((s / 65536) mod Z.of_nat (high - low)))%nat, lcg_next s)
    else (Raise ValueError, s);
  random_choice := fun a size s =>
    if (size <=? length a)%nat
    then (Ok (take size (rotate (Z.to_nat ((s / 65536) mod Z.of_nat (length a))) a)),
          lcg_next s)
    else (Raise ValueError, s);
  random_choice_p := fun a p s =>
    match a !! Z.to_nat ((s / 65536) mod Z.of_nat (length a)) with
    | Some x => (Ok x, lcg_next s)
    | None => (Raise ValueError, s)
    end
|}.

(** The sphere benchmark [f(x) = sum(x**2)], as an objective that touches
    nothing of the world. *)
Definition sphere_function {W : Type} (x : arr) : St W Q :=
  mret (np_sum ((fun xi => xi ^ 2) <$> x)).

(** ** The spec's angular radius of the rim

    Section 4.2 of the spec: a rim circle is inside the cone iff its
    extremal points satisfy [angle(apex -> point, axis) <= half-angle].  The
    angular radius the rim subtends is the largest of these angles over
    both circles, the [max_beta_overall] of the analytical variant kept in
    models.py. *)





(** One carrier with one munition against one missile: the decoder is
    written for vectors of five entries. *)
Definition one_carrier_optimizer : exc GlobalOptimizer :=
  @GlobalOptimizer_init rational_numpy axis_sampler
    ["FY1"%string] ["M1"%string] {[ "M1"%string := 1 ]} {[ "FY1"%string := 1%nat ]}.

(** ** The spec's words for the adaptive centres *)

(** The Lehmer mean [sum(F**2) / sum(F)]. *)
Definition lehmer_mean (l : list Q) : Q := np_sum ((fun f => f ^ 2) <$> l) / np_sum l.

(** The last [n] entries of a list: what a deque of capacity [n] keeps. *)
Definition lastn {A : Type} (n : nat) (l : list A) : list A := drop (length l - n) l.

(** What the generator is relied on for: [randint] answers within its
    range and [random] raises nothing. *)
Class NpRandomLaws (W : Type) `{NpRandom W} : Prop := {
  random_randint_range : forall (low high : nat) (w : W),
    (low < high)%nat ->
    exists j w', random_randint low high w = (Ok j, w') /\ (low <= j < high)%nat;
  random_random_returns : forall w : W, exists u w', random_random w = (Ok u, w')
}.

(** ** Invariants of the optimizer *)

(** [a <= b] for floats or inf. *)
Definition xle (a b : xfloat) : Prop :=
  match a, b with
  | Fin x, Fin y => x <= y
  | _, PosInf => True
  | PosInf, Fin _ => False
  end.

(** Every entry is less than or equal to its predecessor. *)
Definition non_increasing (h : list xfloat) : Prop :=
  forall (k : nat) (a b : xfloat), h !! k = Some a -> h !! S k = Some b -> xle b a.

(** [np.min] of a one-dimensional array. *)
Definition np_min (l : list Q) : option Q :=
  match l with
  | [] => None
  | x :: l' => Some (fold_left Qmin l' x)
  end.

(** [best_fitness] is the minimum of the cached fitness array, which has an
    entry for each individual, and [fitness[best_idx] == best_fitness]. *)
Definition best_is_minimum (self : DERun) : Prop :=
  length (population self) = length (fitness self)
  /\ exists best m f : Q,
       best_fitness self = Fin best
       /\ np_min (fitness self) = Some m /\ best == m
       /\ fitness self !! best_idx self = Some f /\ f == best.

(** The history does not increase, and the best fitness is at most its
    last entry. *)
Definition history_follows_best (self : DERun) : Prop :=
  non_increasing (convergence_history self)
  /\ forall a, last (convergence_history self) = Some a -> xle (best_fitness self) a.

(** The memory of successful pairs is empty. *)
Definition memory_is_empty (self : DERun) : Prop :=
  successful_F (adaptive_params self) = [] /\ successful_CR (adaptive_params self) = [].

(** The state of the optimizer a computation leaves, whether it returns or
    raises. *)
Definition final_self {W A : Type} (m : Opt W A) (self : DERun) (w : W) : DERun :=
  fst (snd (m (self, w))).

(** A computation keeps a property of the optimizer's state: on its return
    and also at an exception. *)
Definition keeps {W A : Type} (P : DERun -> Prop) (m : Opt W A) : Prop :=
  forall (self : DERun) (w : W), P self -> P (final_self m self w).

(** What a property has to survive to be kept by a whole run. *)
Record step_closed {W : Type} (P : DERun -> Prop) : Prop := {
  closed_adaptive_params : forall self Fs CRs,
    P self ->
    P (set_adaptive_params (record_generation (adaptive_params self) Fs CRs) self);
  closed_strategy_selector : forall v self, P self -> P (set_strategy_selector v self);
  closed_generation : forall v self, P self -> P (set_generation v self);
  closed_replace : forall (cfg : DEConfig W) self i old t f,
    P self -> fitness self !! i = Some f -> trial_fitness t < f ->
    P (replace_individual cfg self i old t);
  closed_shrink : forall (cfg : DEConfig W) self, P self -> P (update_population_size cfg self);
  closed_history : forall self,
    P self -> P (set_convergence_history (convergence_history self ++ [best_fitness self]) self)
}.

Arguments closed_adaptive_params {W P} _.
Arguments closed_strategy_selector {W P} _.
Arguments closed_generation {W P} _.
Arguments closed_replace {W P} _.
Arguments closed_shrink {W P} _.
Arguments closed_history {W P} _.


(** A run as in test_adaptive_de.py, kept small: the sphere function on
    [[-5, 5]] in two dimensions with seed 42, six individuals and two
    generations. *)
Definition sphere_run : DEConfig Z * DERun * Z :=
  @adaptive_differential_evolution_optimizer Z lcg_random sphere_function
    [(-5.0, 5.0); (-5.0, 5.0)] (Some 6%nat) 2 1e-6 (Some 42%nat) 0%Z.

Definition sphere_cfg : DEConfig Z := fst (fst sphere_run).
Definition sphere_self : DERun := snd (fst sphere_run).
Definition sphere_world : Z := snd sphere_run.

(** ** Notions of the proofs *)


(** A value of the array below all its values. *)
Definition minimum_of (l : list Q) (best : Q) : Prop :=
  (exists f, f ∈ l /\ f == best) /\ Forall (fun x => best <= x) l.

(** The order [np.argsort] sorts the indices by. *)
Definition fitness_le (a : list Q) (i j : nat) : Prop := nth i a 0 <= nth j a 0.

(** ** What the optimizer relies on [numpy.random] for *)

(** [uniform] answers between its two arguments and [normal] answers for a
    scale that is not negative. *)
Class NpRandomRange (W : Type) `{NpRandom W} : Prop := {
  random_uniform_range : forall (low high : Q) (w : W),
    low <= high ->
    exists x w', random_uniform low high w = (Ok x, w') /\ low <= x /\ x <= high;
  random_normal_returns : forall (loc scale : Q) (w : W),
    0 <= scale -> exists x w', random_normal loc scale w = (Ok x, w')
}.

(** [choice(a, size, replace=False)] answers [size] entries of [a] when [a]
    has as many, and raises ValueError when it has not. *)
Class NpRandomChoice (W : Type) `{NpRandom W} : Prop := {
  random_choice_sample : forall (a : list nat) (size : nat) (w : W),
    (size <= length a)%nat ->
    exists rs w', random_choice a size w = (Ok rs, w')
                  /\ length rs = size /\ Forall (fun r => r ∈ a) rs;
  random_choice_short : forall (a : list nat) (size : nat) (w : W),
    (length a < size)%nat ->
    exists w', random_choice a size w = (Raise ValueError, w')
}.

(** ** Bounds of the search space *)

(** Every dimension has its two bounds, the lower one not above the upper
    one. *)
Definition proper_bounds {W : Type} (cfg : DEConfig W) : Prop :=
  length (lower_bounds cfg) = dim cfg
  /\ length (upper_bounds cfg) = dim cfg
  /\ Forall (fun b => fst b <= snd b) (zip (lower_bounds cfg) (upper_bounds cfg)).

(** [all(lower_bounds[i] <= x[i] <= upper_bounds[i] for i in range(dim))],
    for an individual of [dim] entries. *)
Definition within_bounds {W : Type} (cfg : DEConfig W) (x : arr) : Prop :=
  Forall2 (fun xi b => fst b <= xi /\ xi <= snd b) x
    (zip (lower_bounds cfg) (upper_bounds cfg)).

(** ** The strategy selector's entries *)

#[global] Instance MutationStrategy_eq_dec : EqDecision MutationStrategy.
Proof. solve_decision. Defined.

(** The selector has an entry for the strategy in each of its three dicts:
    a success rate in (0, 1], at most ten recent outcomes, each 0.0 or
    1.0, and a number of uses. *)
Definition selector_entry_ok (self : StrategySelector) (s : MutationStrategy) : Prop :=
  exists (rate : Q) (recent : list Q) (uses : nat),
    sdict_get (success_rates self) s = Ok rate /\ 0 < rate /\ rate <= 1
    /\ sdict_get (recent_successes self) s = Ok recent
    /\ (length recent <= 10)%nat /\ Forall (fun r => r == 0 \/ r == 1) recent
    /\ sdict_get (total_uses self) s = Ok uses /\ (1 <= uses)%nat.

Definition selector_ok (self : StrategySelector) : Prop :=
  Forall (selector_entry_ok self) (strategies self).

(** The individuals [mutate] needs in the population: the target and the
    three or five others it draws (for best/1 and current-to-best/1 the
    target, the best and two others). *)
Definition individuals_needed (strategy : MutationStrategy) : nat :=
  match strategy with
  | DE_RAND_2 => 6
  | _ => 4
  end.

(** ** The optimizer's state apart from its archive *)

(** The attributes of a run other than [archive]. *)
Definition without_archive (s : DERun) : DERun := set_archive None s.

(** Two optimizers made with the same arguments apart from [use_archive]
    and [archive_size]. *)
Definition same_but_archive {W : Type} (cfg1 cfg2 : DEConfig W) : Prop :=
  objective_func cfg1 = objective_func cfg2
  /\ bounds cfg1 = bounds cfg2
  /\ dim cfg1 = dim cfg2
  /\ lower_bounds cfg1 = lower_bounds cfg2
  /\ upper_bounds cfg1 = upper_bounds cfg2
  /\ popsize cfg1 = popsize cfg2
  /\ maxiter cfg1 = maxiter cfg2
  /\ tol cfg1 = tol cfg2
  /\ boundary_handling cfg1 = boundary_handling cfg2
  /\ adaptive_popsize cfg1 = adaptive_popsize cfg2.

(** Two runs agree: on what they return or raise, on the world they leave
    and on the optimizer's attributes other than [archive]. *)
Definition same_outcome {W A : Type} (r1 r2 : exc A * (DERun * W)) : Prop :=
  fst r1 = fst r2
  /\ snd (snd r1) = snd (snd r2)
  /\ without_archive (fst (snd r1)) = without_archive (fst (snd r2)).

(** Two computations agree from states that agree apart from [archive]. *)
Definition archive_blind {W A : Type} (m1 m2 : Opt W A) : Prop :=
  forall (s1 s2 : DERun) (w : W),
    without_archive s1 = without_archive s2 -> same_outcome (m1 (s1, w)) (m2 (s2, w)).

(** ** A run that returns *)

(** The sphere function on [[-5, 5]] in two dimensions with seed 42: six
    individuals, one generation, clipping at the bounds, no shrinking. *)
Definition clip_run : DEConfig Z * DERun * Z :=
  @AdaptiveDifferentialEvolution_init Z lcg_random sphere_function
    [(-5.0, 5.0); (-5.0, 5.0)] (Some 6%nat) 1 1e-6 (Some 42%nat) CLIP true 100 false 0%Z.

Definition clip_cfg : DEConfig Z := fst (fst clip_run).
Definition clip_self : DERun := snd (fst clip_run).
Definition clip_world : Z := snd clip_run.

Definition clip_outcome : exc OptimizeResult * (DERun * Z) :=
  @optimize Z lcg_random clip_cfg (clip_self, clip_world).

(** What the run returns. *)
Definition clip_result : OptimizeResult :=
  match fst clip_outcome with
  | Ok res => res
  | Raise _ => mkOptimizeResult [] PosInf 0 false [] [] []
  end.

(** ** 5.问题五贪心+遗传/threat_assessor.py *)

(** The builtin [sum]: from 0, left to right. *)
Definition py_sum (l : list Q) : Q := fold_left Qplus l 0.

(** [MISSILES_INITIAL.keys()], in the order of the dict literal. *)
Definition MISSILES_INITIAL_keys : list string := ["M1"; "M2"; "M3"]%string.

Record FactorWeights : Type := mkFactorWeights {
  fw_tti : Q;
  fw_crit : Q;
  fw_diff : Q
}.

(** [FactorWeights()] with the default arguments. *)
Definition FactorWeights_default : FactorWeights := mkFactorWeights 0.5 0.3 0.2.

Record ThreatMetrics : Type := mkThreatMetrics {
  time_to_impact : Q;
  criticality : Q;
  difficulty : Q;
  overall_threat : Q
}.

Definition calculate_time_to_impact `{NumPy} (missile_id : string) : Q :=
  match MISSILES_INITIAL !! missile_id with
  | None => 1000.0
  | Some missile_spec =>
      let direction := vsub (missile_target missile_spec) (missile_pos missile_spec) in
      let distance := norm direction in
      distance / missile_speed missile_spec
  end.

Definition calculate_criticality `{NumPy} (missile_id : string) : Q :=
  match MISSILES_INITIAL !! missile_id with
  | None => 0.5
  | Some missile_spec =>
      let distance_to_target :=
        norm (vsub (missile_pos missile_spec) (missile_target missile_spec)) in
      let speed_factor := missile_speed missile_spec / 400.0 in
      let altitude := vz (missile_pos missile_spec) in
      let altitude_factor := 1.0 - Qabs (altitude - 2000.0) / 2000.0 in
      let distance_score := Qmax 0.0 (1.0 - distance_to_target / 25000.0) in
      let speed_score := Qmin 1.0 speed_factor in
      let altitude_score := Qmax 0.0 altitude_factor in
      distance_score * 0.5 + speed_score * 0.3 + altitude_score * 0.2
  end.

Definition calculate_difficulty `{NumPy} (missile_id : string) : Q :=
  match MISSILES_INITIAL !! missile_id with
  | None => 0.5
  | Some missile_spec =>
      let target_center := center_bottom TRUE_TARGET_SPECS in
      let missile_pos := missile_pos missile_spec in
      let lateral_deviation := Qabs (vy missile_pos - vy target_center) in
      let altitude_deviation := Qabs (vz missile_pos - 2000.0) in
      let distance := norm (vsub missile_pos target_center) in
      let lateral_score := Qmin 1.0 (lateral_deviation / 1000.0) in
      let altitude_score := Qmin 1.0 (altitude_deviation / 1000.0) in
      let distance_score := Qmin 1.0 (distance / 20000.0) in
      lateral_score * 0.4 + altitude_score * 0.3 + distance_score * 0.3
  end.

Definition assess_single_missile_threat `{NumPy}
    (missile_id : string) (factor_weights : option FactorWeights) : ThreatMetrics :=
  let factor_weights :=
    match factor_weights with
    | None => FactorWeights_default
    | Some fw => fw
    end in
  let tti := calculate_time_to_impact missile_id in
  let crit := calculate_criticality missile_id in
  let diff := calculate_difficulty missile_id in
  let tti_score := 1.0 / (1.0 + tti / 60.0) in
  let overall_threat :=
    fw_tti factor_weights * tti_score + fw_crit factor_weights * crit
    + fw_diff factor_weights * diff in
  mkThreatMetrics tti crit diff overall_threat.

(** [assess_threat_weights]: the dict it returns, in insertion order. *)
Definition assess_threat_weights `{NumPy} (factor_weights : option FactorWeights) : pydict Q :=
  let factor_weights :=
    match factor_weights with
    | None => FactorWeights_default
    | Some fw => fw
    end in
  let threat_scores :=
    (fun missile_id =>
       (missile_id,
        overall_threat (assess_single_missile_threat missile_id (Some factor_weights))))
    <$> MISSILES_INITIAL_keys in
  let total_threat := py_sum (snd <$> threat_scores) in
  if Qltb 0.0 total_threat then
    fold_left (fun d p => dict_set d (fst p) (snd p / total_threat)) threat_scores []
  else
    let equal_weight := 1.0 / inject_Z (Z.of_nat (length MISSILES_INITIAL_keys)) in
    fold_left (fun d missile_id => dict_set d missile_id equal_weight) MISSILES_INITIAL_keys [].

(** ** 3.解答代码_solve1_2/optimizer.py: [ObscurationOptimizer]

    The optimizer of problems 1 and 2: a cloud obscures the target on its
    own ([SmokeCloud.check_obscuration_at_time]); there are no key
    points. *)

Record ObscurationOptimizer12 : Type := mkObscurationOptimizer12 {
  missile12 : Missile;
  target12 : TargetCylinder;
  uav_assignments12 : gmap string nat;
  time_step12 : Q
}.

Definition ObscurationOptimizer12_init `{NumPy}
    (missile_id : string) (uav_assignments : gmap string nat) : exc ObscurationOptimizer12 :=
  missile ← Missile_init missile_id;
  let target := TargetCylinder_init TRUE_TARGET_SPECS in
  Ok (mkObscurationOptimizer12 missile target uav_assignments 0.1).

(** The body of the time loop, lines 39 to 42. *)
Definition sample_instant12 `{NumPy}
    (self : ObscurationOptimizer12) (smoke_clouds : list SmokeCloud)
    (obscured_time_points : gset Z) (t : Q) : gset Z :=
  let is_obscured_at_t :=
    existsb (fun cloud => check_obscuration_at_time cloud t (missile12 self) (target12 self))
      smoke_clouds in
  if is_obscured_at_t
  then {[ py_round (t / time_step12 self) ]} ∪ obscured_time_points
  else obscured_time_points.

(** [objective_function], lines 18 to 45, with the subclass's decoder.
    The decoding is outside the [try]: what it raises goes to the
    caller. *)
Definition objective_function12 `{NumPy} `{SciPy}
    (self : ObscurationOptimizer12) (_parse_decision_variables : list Q -> exc strategy)
    (decision_variables : list Q) : exc Q :=
  strategies ← _parse_decision_variables decision_variables;
  match build_smoke_clouds strategies [] with
  | Raise ValueError | Raise KeyError => Ok 0
  | Raise e => Raise e
  | Ok [] => Ok 0
  | Ok (c :: cs) =>
      let smoke_clouds := c :: cs in
      let sim_start_time := py_min (start_time c) (start_time <$> cs) in
      let sim_end_time := py_max (end_time c) (end_time <$> cs) in
      ts ← np_arange sim_start_time sim_end_time (time_step12 self);
      let obscured_time_points := fold_left (sample_instant12 self smoke_clouds) ts ∅ in
      let total_time :=
        inject_Z (Z.of_nat (size obscured_time_points)) * time_step12 self in
      Ok (- total_time)
  end.

(** [Problem2Optimizer._parse_decision_variables] of solve_problem_2.py:
    unpacking a vector that has not four entries raises ValueError. *)
Definition _parse_decision_variables_p2 (dv : list Q) : exc strategy :=
  match dv with
  | [speed; angle; t_d; t_f] =>
      Ok [("FY1"%string, UavStrat speed angle [GrenadeStrat t_d t_f])]
  | _ => Raise ValueError
  end.

(** The optimizer solve_problem_2.py makes. *)
Definition problem2_optimizer : exc ObscurationOptimizer12 :=
  @ObscurationOptimizer12_init rational_numpy "M1" {[ "FY1"%string := 1%nat ]}.

(** ** 5.问题五py转为cpp/solve_problem_5.py: the bounds *)

(** [np.pi]. *)
Definition np_pi : Q := 3.141592653589793.

(** The three bounds of munition [i] of a carrier, lines 39 to 46. *)
Definition grenade_bounds (i : nat) : list (Q * Q) :=
  [ (if (i =? 0)%nat then (0.1, 30.0) else (GRENADE_INTERVAL, 15.0));
    (0.1, 20.0);
    (0.0, 1.0) ].

(** The loop of lines 31 to 46 over the sorted carrier ids; a carrier
    without a munition count raises KeyError. *)
Fixpoint problem5_bounds (counts : gmap string nat) (ids : list string) : exc (list (Q * Q)) :=
  match ids with
  | [] => Ok []
  | uav_id :: ids' =>
      num_grenades ←
        match counts !! uav_id with
        | Some n => Ok n
        | None => Raise KeyError
        end;
      rest ← problem5_bounds counts ids';
      Ok ([(UAV_SPEED_MIN, UAV_SPEED_MAX); (0, 2 * np_pi)]
          ++ concat (grenade_bounds <$> seq 0 num_grenades) ++ rest)
  end.

(** [ALL_UAV_IDS], [ALL_MISSILE_IDS] and [UAV_GRENADE_COUNTS] of
    solve_problem_5.py: the keys of the configuration in the order of its
    dict literals, three munitions for each carrier. *)
Definition ALL_UAV_IDS : list string := ["FY1"; "FY2"; "FY3"; "FY4"; "FY5"]%string.
Definition ALL_MISSILE_IDS : list string := ["M1"; "M2"; "M3"]%string.
Definition UAV_GRENADE_COUNTS : gmap string nat :=
  list_to_map ((fun u_id => (u_id, 3%nat)) <$> ALL_UAV_IDS).

(** The optimizer solve_problem_5.py makes, with equal threat weights. *)
Definition problem5_optimizer : exc GlobalOptimizer :=
  @GlobalOptimizer_init rational_numpy axis_sampler ALL_UAV_IDS ALL_MISSILE_IDS
    (list_to_map ((fun m_id => (m_id, 1.0 / inject_Z (Z.of_nat (length ALL_MISSILE_IDS))))
                  <$> ALL_MISSILE_IDS))
    UAV_GRENADE_COUNTS.

(** ** Notions of the proofs about the decoder *)

(** What the entries of a carrier's munitions satisfy: [k] munitions from
    position [dv_index] on, the first of them being munition [i]. *)
Definition grenade_entries (Pfirst Pdelta Pfuse : Q -> Prop) (dv : list Q)
    (k i dv_index : nat) : Prop :=
  forall j, (j < k)%nat ->
    exists x tf sel,
      dv !! (dv_index + 3 * j)%nat = Some x
      /\ dv !! (dv_index + 3 * j + 1)%nat = Some tf
      /\ dv !! (dv_index + 3 * j + 2)%nat = Some sel
      /\ (if (i + j =? 0)%nat then Pfirst x else Pdelta x)
      /\ Pfuse tf /\ 0 <= sel.

(** What the entries of the carriers satisfy, from position [dv_index]
    on. *)
Fixpoint carrier_entries (Pspeed Pangle Pfirst Pdelta Pfuse : Q -> Prop)
    (counts : gmap string nat) (dv : list Q) (ids : list string) (dv_index : nat) : Prop :=
  match ids with
  | [] => True
  | uav_id :: ids' =>
      exists n speed angle,
        counts !! uav_id = Some n
        /\ dv !! dv_index = Some speed /\ dv !! (dv_index + 1)%nat = Some angle
        /\ Pspeed speed /\ Pangle angle
        /\ grenade_entries Pfirst Pdelta Pfuse dv n 0 (dv_index + 2)
        /\ carrier_entries Pspeed Pangle Pfirst Pdelta Pfuse counts dv ids'
             (dv_index + 2 + 3 * n)
  end.

(** The deploy times of a carrier's munitions: the first is an entry, each
    other one the time before it plus an entry. *)
Fixpoint deploy_chain (Pfirst Pdelta : Q -> Prop) (i : nat) (last_td : Q)
    (gs : list grenade_strat5) : Prop :=
  match gs with
  | [] => True
  | g :: gs' =>
      (if (i =? 0)%nat then Pfirst (t_deploy5 g)
       else exists x, Pdelta x /\ t_deploy5 g = last_td + x)
      /\ deploy_chain Pfirst Pdelta (S i) (t_deploy5 g) gs'
  end.

(** What a decoded carrier satisfies. *)
Definition carrier_decoded (Pspeed Pangle Pfirst Pdelta Pfuse : Q -> Prop)
    (self : GlobalOptimizer) (entry : string * uav_strat5) : Prop :=
  Pspeed (speed5 (snd entry)) /\ Pangle (angle5 (snd entry))
  /\ uav_grenade_counts self !! fst entry = Some (length (grenades5 (snd entry)))
  /\ Forall (fun g => target_missile g ∈ missile_ids self /\ Pfuse (t_fuse5 g))
       (grenades5 (snd entry))
  /\ deploy_chain Pfirst Pdelta 0 0 (grenades5 (snd entry)).

(** ** 5.问题五贪心+遗传/boundary_calculator.py *)

(** The three points are projected on the missile's direction of flight:
    the cloud is between when its projection is strictly between the
    missile's and the target's. *)
Definition is_cloud_between_missile_and_target_internal
    (cloud_pos missile_pos target_pos missile_unit_vec : vec3) : bool :=
  let u := missile_unit_vec in
  let proj_cloud := np_dot cloud_pos u in
  let proj_missile := np_dot missile_pos u in
  let proj_target := np_dot target_pos u in
  Qltb proj_missile proj_cloud && Qltb proj_cloud proj_target.

(** The loop of lines 68 to 93 over the fuse times: it stops at the first
    one for which the cloud is between, and [is_any_fuse_time_valid] is
    what it leaves. *)
Fixpoint any_fuse_time_valid `{NumPy} `{SciPy} (uav : UAV) (missile : Missile)
    (target : TargetCylinder) (t_deploy : Q) (fuse_time_options : list Q) : exc bool :=
  match fuse_time_options with
  | [] => Ok false
  | t_fuse :: rest =>
      grenade ← deploy_grenade uav t_deploy t_fuse;
      let t_b := detonate_time grenade in
      let cloud_pos := grenade_detonate_pos grenade in
      let missile_pos := Missile_get_position missile t_b in
      if is_cloud_between_missile_and_target_internal cloud_pos missile_pos
           (bottom_center target) (unit_vec missile)
      then Ok true
      else any_fuse_time_valid uav missile target t_deploy rest
  end.

(** The scan of lines 57 to 113 over the deploy times; the carrier keeps
    the flight strategy set in the iteration before. *)
Fixpoint scan_deploy_times `{NumPy} `{SciPy} (uav : UAV) (missile : Missile)
    (target : TargetCylinder) (fuse_time_options : list Q) (ts : list Q) : exc Q :=
  match ts with
  | [] =>
      let max_t_deploy_fallback := 40.0 in
      Ok max_t_deploy_fallback
  | t_deploy :: rest =>
      let optimal_angle := np_pi in
      let uav := set_flight_strategy uav UAV_SPEED_MAX optimal_angle in
      is_any_fuse_time_valid ← any_fuse_time_valid uav missile target t_deploy fuse_time_options;
      if negb is_any_fuse_time_valid then
        let max_t_deploy := t_deploy - 0.5 in
        Ok max_t_deploy
      else scan_deploy_times uav missile target fuse_time_options rest
  end.

(** [find_max_effective_deploy_time]; the default of [fuse_time_options]
    is [[0.1; 20.0]]. *)
Definition find_max_effective_deploy_time `{NumPy} `{SciPy}
    (uav_id missile_id : string) (fuse_time_options : list Q) : exc Q :=
  uav ← UAV_init uav_id;
  missile ← Missile_init missile_id;
  let target := TargetCylinder_init TRUE_TARGET_SPECS in
  ts ← np_arange 0.1 40.0 0.5;
  scan_deploy_times uav missile target fuse_time_options ts.

(** ** task_allocator.py

    The allocator is in two versions: 5.问题五py转为cpp3 assigns greedily,
    5.问题五py转为cpp solves an integer program.  Both first turn the threat
    weights into a number of carriers for each missile. *)

(** [UAVS_INITIAL.keys()], in the order of the dict literal. *)
Definition UAVS_INITIAL_keys : list string := ["FY1"; "FY2"; "FY3"; "FY4"; "FY5"]%string.

Definition calculate_engagement_time_cost `{NumPy}
    (uav_spec : vec3) (missile_spec : missile_specs) : Q :=
  let uav_pos := uav_spec in
  let missile_start_pos := missile_pos missile_spec in
  let missile_target_pos := missile_target missile_spec in
  let intercept_point :=
    vadd missile_start_pos (vdiv (vsub missile_target_pos missile_start_pos) 3.0) in
  let distance_to_intercept := norm (vsub uav_pos intercept_point) in
  let time_to_intercept := distance_to_intercept / UAV_SPEED_MAX in
  time_to_intercept.

(** [max(d, key=d.get)] and [min(d, key=d.get)]: the first key, in the
    order of the dict, whose value no other one beats; ValueError on an
    empty dict. *)
Fixpoint first_best (better : Q -> Q -> bool) (best : string) (best_v : Q) (d : pydict Q)
    : string :=
  match d with
  | [] => best
  | (k, v) :: d' =>
      if better v best_v then first_best better k v d' else first_best better best best_v d'
  end.

Definition py_max_key (d : pydict Q) : exc string :=
  match d with
  | [] => Raise ValueError
  | (k, v) :: d' => Ok (first_best (fun v best_v => Qltb best_v v) k v d')
  end.

Definition py_min_key (d : pydict Q) : exc string :=
  match d with
  | [] => Raise ValueError
  | (k, v) :: d' => Ok (first_best (fun v best_v => Qltb v best_v) k v d')
  end.

(** [{k: f(k) for k in keys}], the entries added to [d] in the order of
    the keys. *)
Fixpoint dict_comprehension {V : Type} (f : string -> exc V) (keys : list string)
    (d : pydict V) : exc (pydict V) :=
  match keys with
  | [] => Ok d
  | k :: keys' =>
      v ← f k;
      dict_comprehension f keys' (dict_set d k v)
  end.

(** [sum] of integers. *)
Definition py_sum_int (l : list Z) : Z := fold_left Z.add l 0%Z.

(** [sorted(l, key=...)]: a stable sort; [goes_first y x] says that [y]
    is strictly before [x]. *)
Fixpoint insert_before {A : Type} (goes_first : A -> A -> bool) (x : A) (l : list A) : list A :=
  match l with
  | [] => [x]
  | y :: l' =>
      if goes_first y x then y :: insert_before goes_first x l' else x :: y :: l'
  end.

Definition sorted_by {A : Type} (goes_first : A -> A -> bool) (l : list A) : list A :=
  fold_right (insert_before goes_first) [] l.

(** A [while] loop is run for at most a number of iterations: the answer
    is [None] when the loop has not ended by then. *)
Definition loop_bind {A B : Type} (m : option (exc A)) (k : A -> option (exc B))
    : option (exc B) :=
  match m with
  | None => None
  | Some (Raise e) => Some (Raise e)
  | Some (Ok a) => k a
  end.

(** [temp_alloc]: the weight of each missile times the number of carriers,
    rounded. *)
Definition rounded_allocation (threat_weights : pydict Q) (missile_ids : list string)
    (num_uavs : nat) : exc (pydict Z) :=
  dict_comprehension
    (fun m_id =>
       w ← dict_get threat_weights m_id;
       Ok (py_round (w * inject_Z (Z.of_nat num_uavs))))
    missile_ids [].

(** The first loop: while fewer carriers are allocated than there are, one
    more goes to the missile of the greatest weight. *)
Fixpoint raise_total (fuel : nat) (threat_weights : pydict Q) (num_uavs : nat)
    (temp_alloc : pydict Z) (current_total : Z) : option (exc (pydict Z * Z)) :=
  if (current_total <? Z.of_nat num_uavs)%Z then
    match fuel with
    | O => None
    | S fuel' =>
        loop_bind
          (Some (m_id_to_add ← py_max_key threat_weights;
                 n ← dict_get temp_alloc m_id_to_add;
                 Ok (dict_set temp_alloc m_id_to_add (n + 1)%Z)))
          (fun temp_alloc =>
             raise_total fuel' threat_weights num_uavs temp_alloc (current_total + 1)%Z)
    end
  else Some (Ok (temp_alloc, current_total)).

(** The second loop as 5.问题五py转为cpp3/task_allocator.py has it (lines 36
    to 40): the total is counted down in every iteration, whether or not
    the missile of the least weight had a carrier to give up. *)
Fixpoint lower_total_threat (fuel : nat) (threat_weights : pydict Q) (num_uavs : nat)
    (temp_alloc : pydict Z) (current_total : Z) : option (exc (pydict Z * Z)) :=
  if (Z.of_nat num_uavs <? current_total)%Z then
    match fuel with
    | O => None
    | S fuel' =>
        loop_bind
          (Some (m_id_to_sub ← py_min_key threat_weights;
                 n ← dict_get temp_alloc m_id_to_sub;
                 Ok (if (0 <? n)%Z then dict_set temp_alloc m_id_to_sub (n - 1)%Z
                     else temp_alloc)))
          (fun temp_alloc =>
             lower_total_threat fuel' threat_weights num_uavs temp_alloc (current_total - 1)%Z)
    end
  else Some (Ok (temp_alloc, current_total)).

(** The second loop as 5.问题五py转为cpp/task_allocator.py has it (lines 40
    to 45): the total is counted down only when the missile of the least
    weight gives up a carrier. *)
Fixpoint lower_total_optimal (fuel : nat) (threat_weights : pydict Q) (num_uavs : nat)
    (temp_alloc : pydict Z) (current_total : Z) : option (exc (pydict Z * Z)) :=
  if (Z.of_nat num_uavs <? current_total)%Z then
    match fuel with
    | O => None
    | S fuel' =>
        loop_bind
          (Some (m_id_to_sub ← py_min_key threat_weights;
                 n ← dict_get temp_alloc m_id_to_sub;
                 Ok (if (0 <? n)%Z
                     then (dict_set temp_alloc m_id_to_sub (n - 1)%Z, (current_total - 1)%Z)
                     else (temp_alloc, current_total))))
          (fun st => lower_total_optimal fuel' threat_weights num_uavs (fst st) (snd st))
    end
  else Some (Ok (temp_alloc, current_total)).

(** [allocation_requirements] of [assign_tasks_by_threat], lines 22 to 42
    of 5.问题五py转为cpp3/task_allocator.py. *)
Definition allocation_requirements_threat (fuel : nat) (threat_weights : pydict Q)
    (missile_ids : list string) (num_uavs : nat) : option (exc (pydict Z)) :=
  loop_bind (Some (rounded_allocation threat_weights missile_ids num_uavs)) (fun temp_alloc =>
  let current_total := py_sum_int (snd <$> temp_alloc) in
  loop_bind (raise_total fuel threat_weights num_uavs temp_alloc current_total) (fun st =>
  loop_bind (lower_total_threat fuel threat_weights num_uavs (fst st) (snd st)) (fun st =>
  let allocation_requirements := fst st in
  Some (Ok allocation_requirements)))).

(** [allocation_requirements] of [assign_tasks_by_optimal_allocation],
    lines 23 to 47 of 5.问题五py转为cpp/task_allocator.py, for the sorted
    keys of [MISSILES_INITIAL] and [UAVS_INITIAL]: what the function
    computes before it sets up the integer program. *)
Definition allocation_requirements_optimal (fuel : nat) (threat_weights : pydict Q)
    : option (exc (pydict Z)) :=
  let uav_ids := py_sorted UAVS_INITIAL_keys in
  let missile_ids := py_sorted MISSILES_INITIAL_keys in
  let num_uavs := length uav_ids in
  loop_bind (Some (rounded_allocation threat_weights missile_ids num_uavs)) (fun temp_alloc =>
  let current_total := py_sum_int (snd <$> temp_alloc) in
  loop_bind (raise_total fuel threat_weights num_uavs temp_alloc current_total) (fun st =>
  loop_bind (lower_total_optimal fuel threat_weights num_uavs (fst st) (snd st)) (fun st =>
  let allocation_requirements := fst st in
  Some (Ok allocation_requirements)))).

(** [uav_missile_costs]: a dict of dicts. *)
Definition uav_missile_costs `{NumPy} (uav_ids missile_ids : list string)
    : exc (pydict (pydict Q)) :=
  dict_comprehension
    (fun u_id =>
       dict_comprehension
         (fun m_id =>
            uav_spec ← match UAVS_INITIAL !! u_id with
                       | Some spec => Ok spec
                       | None => Raise KeyError
                       end;
            missile_spec ← match MISSILES_INITIAL !! m_id with
                           | Some spec => Ok spec
                           | None => Raise KeyError
                           end;
            Ok (calculate_engagement_time_cost uav_spec missile_spec))
         missile_ids [])
    uav_ids [].

(** The list of the free carriers with their cost for [missile_id]. *)
Fixpoint candidates_of (costs : pydict (pydict Q)) (missile_id : string)
    (assigned_uavs : gset string) (uav_ids : list string) : exc (list (string * Q)) :=
  match uav_ids with
  | [] => Ok []
  | u_id :: rest =>
      if decide (u_id ∈ assigned_uavs) then candidates_of costs missile_id assigned_uavs rest
      else
        row ← dict_get costs u_id;
        c ← dict_get row missile_id;
        tl ← candidates_of costs missile_id assigned_uavs rest;
        Ok ((u_id, c) :: tl)
  end.

(** The loop of lines 65 to 68 over [range(min(num_needed, len(candidates)))]. *)
Fixpoint assign_candidates (candidates : list (string * Q)) (missile_id : string)
    (indices : list nat) (assignments : pydict (pydict nat)) (assigned_uavs : gset string)
    : exc (pydict (pydict nat) * gset string) :=
  match indices with
  | [] => Ok (assignments, assigned_uavs)
  | i :: rest =>
      candidate ← match candidates !! i with
                  | Some c => Ok c
                  | None => Raise IndexError
                  end;
      let uav_to_assign := fst candidate in
      uav_alloc ← dict_get assignments missile_id;
      let assignments := dict_set assignments missile_id (dict_set uav_alloc uav_to_assign 3%nat) in
      let assigned_uavs := {[ uav_to_assign ]} ∪ assigned_uavs in
      assign_candidates candidates missile_id rest assignments assigned_uavs
  end.

(** The loop of lines 56 to 68 over the missiles, greatest weight first. *)
Fixpoint assign_missiles (costs : pydict (pydict Q)) (allocation_requirements : pydict Z)
    (uav_ids : list string) (order : list string)
    (assignments : pydict (pydict nat)) (assigned_uavs : gset string)
    : exc (pydict (pydict nat)) :=
  match order with
  | [] => Ok assignments
  | missile_id :: rest =>
      let num_needed :=
        match dict_get allocation_requirements missile_id with
        | Ok n => n
        | Raise _ => 0%Z
        end in
      if (num_needed =? 0)%Z then
        assign_missiles costs allocation_requirements uav_ids rest assignments assigned_uavs
      else
        candidates ← candidates_of costs missile_id assigned_uavs uav_ids;
        let candidates := sorted_by (fun y x => Qltb (snd y) (snd x)) candidates in
        let count := Z.to_nat (Z.min num_needed (Z.of_nat (length candidates))) in
        st ← assign_candidates candidates missile_id (seq 0 count) assignments assigned_uavs;
        assign_missiles costs allocation_requirements uav_ids rest (fst st) (snd st)
  end.

(** [assign_tasks_by_threat] of 5.问题五py转为cpp3/task_allocator.py. *)
Definition assign_tasks_by_threat `{NumPy} (fuel : nat) (threat_weights : pydict Q)
    : option (exc (pydict (pydict nat))) :=
  let uav_ids := UAVS_INITIAL_keys in
  let missile_ids := MISSILES_INITIAL_keys in
  let num_uavs := length uav_ids in
  loop_bind (allocation_requirements_threat fuel threat_weights missile_ids num_uavs)
    (fun allocation_requirements =>
       Some (uav_missile_costs ← uav_missile_costs uav_ids missile_ids;
             assignments ← dict_comprehension (fun m_id => Ok []) missile_ids [];
             let order :=
               fst <$> sorted_by (fun y x => Qltb (snd x) (snd y)) threat_weights in
             assign_missiles uav_missile_costs allocation_requirements uav_ids order
               assignments ∅)).

(** ** Notions of the proofs about the allocator *)

(** The carriers of an assignment, missile after missile. *)
Definition assigned_carriers (assignments : pydict (pydict nat)) : list string :=
  concat ((fun entry => (snd entry).*1) <$> assignments).

(** What the greedy loops keep: an entry for each missile, no carrier
    assigned twice, every assigned carrier recorded in [assigned_uavs],
    and 3 munitions for each. *)
Definition assignment_kept (uav_ids missile_ids : list string)
    (assignments : pydict (pydict nat)) (assigned_uavs : gset string) : Prop :=
  assignments.*1 = missile_ids
  /\ NoDup (assigned_carriers assignments)
  /\ (forall u, u ∈ assigned_carriers assignments -> u ∈ assigned_uavs)
  /\ Forall (fun entry => Forall (fun q => fst q ∈ uav_ids /\ snd q = 3%nat) (snd entry))
       assignments.

(** * Theorems *)

(** ** Comparisons *)

Lemma Qltb_lt (x y : Q) : Qltb x y = true <-> x < y.
Proof.
  unfold Qltb. rewrite negb_true_iff.
  destruct (Qle_bool y x) eqn:E.
  - apply Qle_bool_iff in E. split; [discriminate | lra].
  - split; [intros _ | reflexivity].
    apply Qnot_le_lt. intros Hle. apply Qle_bool_iff in Hle. congruence.
Qed.

Lemma Qltb_ge (x y : Q) : Qltb x y = false <-> y <= x.
Proof.
  destruct (Qltb x y) eqn:E.
  - apply Qltb_lt in E. split; [discriminate | lra].
  - split; [intros _ | reflexivity].
    apply Qnot_lt_le. intros Hlt. apply Qltb_lt in Hlt. congruence.
Qed.

Lemma Qle_bool_false (x y : Q) : Qle_bool x y = false <-> y < x.
Proof.
  destruct (Qle_bool x y) eqn:E.
  - apply Qle_bool_iff in E. split; [discriminate | lra].
  - split; [intros _ | reflexivity].
    apply Qnot_le_lt. intros Hle. apply Qle_bool_iff in Hle. congruence.
Qed.

(** ** geometry.py *)

Section Geometry.
Context `{NumPy}.










End Geometry.

(** ** core_objects.py: the cloud *)

(** C4.  A cloud made at [detonate_pos] and [detonate_time] keeps the window
    [[detonate_time, detonate_time + CLOUD_DURATION)] its constructor set:
    [get_center] decides by it alone and returns no new cloud.  Inside the
    window the centre has sunk by [CLOUD_SINK_SPEED * (t - detonate_time)];
    outside it [get_center] is [None], and then
    [check_obscuration_at_time] is [False]. *)
Theorem get_center_window `{NumPy}
    (detonate_pos : vec3) (detonate_time t : Q)
    (missile : Missile) (target : TargetCylinder) :
  let cloud := SmokeCloud_init detonate_pos detonate_time in
  start_time cloud = detonate_time
  /\ end_time cloud = detonate_time + CLOUD_DURATION
  /\ (detonate_time <= t < detonate_time + CLOUD_DURATION ->
      get_center cloud t
      = Some (vsub detonate_pos (Vec3 0.0 0.0 (CLOUD_SINK_SPEED * (t - detonate_time)))))
  /\ (~ (detonate_time <= t < detonate_time + CLOUD_DURATION) -> get_center cloud t = None)
  /\ (get_center cloud t = None ->
      check_obscuration_at_time cloud t missile target = false).
Proof.
  cbv zeta. split; [reflexivity|]. split; [reflexivity|].
  unfold check_obscuration_at_time, get_center, SmokeCloud_init; simpl.
  destruct (Qle_bool detonate_time t) eqn:E1;
    destruct (Qltb t (detonate_time + CLOUD_DURATION)) eqn:E2; simpl.
  - split; [reflexivity|]. split; [|discriminate].
    apply Qle_bool_iff in E1. apply Qltb_lt in E2. tauto.
  - apply Qltb_ge in E2. split; [intros; lra|]. split; reflexivity.
  - apply Qle_bool_false in E1. split; [intros; lra|]. split; reflexivity.
  - apply Qle_bool_false in E1. split; [intros; lra|]. split; reflexivity.
Qed.

(** ** 5.问题五py转为cpp/optimizer.py: the decoder *)

Section Decoder.
Variable self : GlobalOptimizer.
Variable dv : list Q.

Lemma dv_get_short (i : nat) : (length dv <= i)%nat -> dv_get dv i = Raise IndexError.
Proof.
  intros Hi. unfold dv_get. rewrite (proj2 (lookup_ge_None dv i)); [reflexivity | lia].
Qed.

Lemma dv_get_raises (i : nat) (e : exn) : dv_get dv i = Raise e -> e = IndexError.
Proof. unfold dv_get. destruct (dv !! i); congruence. Qed.

Lemma py_getitem_raises {A : Type} (l : list A) (i : Z) (e : exn) :
  py_getitem l i = Raise e -> e = IndexError.
Proof.
  unfold py_getitem. destruct (_ <? 0)%Z; [congruence|].
  destruct (l !! _); congruence.
Qed.

(** The loop over the munitions raises nothing but IndexError, and when it
    returns it has read three entries for each munition. *)
Lemma parse_grenades_spec (k i : nat) (last_td : Q) (dv_index : nat) (gs : list grenade_strat5) :
  match parse_grenades self dv k i last_td dv_index gs with
  | Ok (_, dv_index') =>
      dv_index' = (dv_index + 3 * k)%nat /\ (k = 0%nat \/ dv_index' <= length dv)%nat
  | Raise e => e = IndexError
  end.
Proof.
  revert i last_td dv_index gs.
  induction k as [|k IH]; intros i last_td dv_index gs; simpl.
  - split; [lia | left; reflexivity].
  - destruct (dv_get dv dv_index) as [x|e] eqn:E0; simpl; [|eauto using dv_get_raises].
    destruct (dv_get dv (dv_index + 1)) as [tf|e] eqn:E1; simpl; [|eauto using dv_get_raises].
    destruct (dv_get dv (dv_index + 2)) as [sel|e] eqn:E2; simpl; [|eauto using dv_get_raises].
    destruct (py_getitem _ _) as [m|e] eqn:E3; simpl; [|eauto using py_getitem_raises].
    specialize (IH (S i) (if Nat.eqb i 0 then x else last_td + x) (dv_index + 3)%nat
                  (gs ++ [GrenadeStrat5 (if Nat.eqb i 0 then x else last_td + x) tf m])).
    destruct (parse_grenades _ _ _ _ _ _ _) as [[gs' idx']|e]; [|exact IH].
    destruct IH as [-> Hk]. split; [lia|]. right.
    destruct Hk as [->|Hk]; [|lia].
    unfold dv_get in E2. destruct (dv !! (dv_index + 2)%nat) eqn:El; [|discriminate].
    apply lookup_lt_Some in El. lia.
Qed.

Lemma unpack2_slice (dv_index : nat) :
  (length dv < dv_index + 2)%nat ->
  unpack2 (dv_slice dv dv_index (dv_index + 2)) = Raise ValueError.
Proof.
  intros Hlen. unfold dv_slice.
  replace (dv_index + 2 - dv_index)%nat with 2%nat by lia.
  pose proof (length_drop dv dv_index) as Hd.
  destruct (drop dv_index dv) as [|a [|b l]]; simpl in *; try reflexivity. lia.
Qed.

Lemma unpack2_raises (s : list Q) (e : exn) : unpack2 s = Raise e -> e = ValueError.
Proof. destruct s as [|a [|b [|c s]]]; simpl; congruence. Qed.

(** A vector too short for the carriers still to decode is rejected. *)
Lemma parse_uavs_short (ids : list string) (dv_index L : nat) (strategy : strategy5) :
  schema_length (uav_grenade_counts self) ids = Some L ->
  (dv_index <= length dv < dv_index + L)%nat ->
  parse_uavs self dv ids dv_index strategy = Raise ValueError
  \/ parse_uavs self dv ids dv_index strategy = Raise IndexError.
Proof.
  revert dv_index L strategy.
  induction ids as [|uav_id ids IH]; intros dv_index L strategy; simpl.
  - intros [= <-] ?. lia.
  - destruct (uav_grenade_counts self !! uav_id) as [n|]; simpl; [|discriminate].
    destruct (schema_length _ ids) as [rest|] eqn:Erest; simpl; [|discriminate].
    intros [= <-] Hlen.
    destruct (unpack2 _) as [[speed angle]|e] eqn:E2; simpl.
    2:{ left. f_equal. eauto using unpack2_raises. }
    pose proof (parse_grenades_spec n 0 0 (dv_index + 2) []) as Hs.
    destruct (parse_grenades _ _ _ _ _ _ _) as [[gs idx']|e]; simpl.
    2:{ right. congruence. }
    destruct Hs as [-> Hk].
    assert (dv_index + 2 <= length dv)%nat as H2.
    { destruct (Nat.le_gt_cases (dv_index + 2) (length dv)) as [?|Hgt]; [assumption|].
      rewrite unpack2_slice in E2 by lia. discriminate. }
    apply (IH _ rest); [reflexivity|].
    destruct Hk as [->|Hk]; lia.
Qed.

(** The decoder reads the entries below the schema length only. *)
Lemma dv_get_take (L i : nat) : (i < L)%nat -> dv_get (take L dv) i = dv_get dv i.
Proof. intros Hi. unfold dv_get. rewrite lookup_take_lt by exact Hi. reflexivity. Qed.

Lemma dv_slice_take (L dv_index : nat) :
  (dv_index + 2 <= L)%nat ->
  dv_slice (take L dv) dv_index (dv_index + 2) = dv_slice dv dv_index (dv_index + 2).
Proof.
  intros Hi. unfold dv_slice. rewrite skipn_firstn_comm, take_take.
  f_equal. lia.
Qed.

Lemma parse_grenades_take (L k i : nat) (last_td : Q) (dv_index : nat)
    (gs : list grenade_strat5) :
  (dv_index + 3 * k <= L)%nat ->
  parse_grenades self (take L dv) k i last_td dv_index gs
  = parse_grenades self dv k i last_td dv_index gs.
Proof.
  revert i last_td dv_index gs.
  induction k as [|k IH]; intros i last_td dv_index gs Hk; simpl; [reflexivity|].
  rewrite !dv_get_take by lia.
  destruct (dv_get dv dv_index) as [x|e]; simpl; [|reflexivity].
  destruct (dv_get dv (dv_index + 1)) as [tf|e]; simpl; [|reflexivity].
  destruct (dv_get dv (dv_index + 2)) as [sel|e]; simpl; [|reflexivity].
  destruct (py_getitem _ _) as [m|e]; simpl; [|reflexivity].
  apply IH. lia.
Qed.

Lemma parse_uavs_take (L : nat) (ids : list string) (dv_index rest : nat)
    (strategy : strategy5) :
  schema_length (uav_grenade_counts self) ids = Some rest ->
  (dv_index + rest <= L)%nat ->
  parse_uavs self (take L dv) ids dv_index strategy = parse_uavs self dv ids dv_index strategy.
Proof.
  revert dv_index rest strategy.
  induction ids as [|uav_id ids IH]; intros dv_index rest strategy; simpl; [reflexivity|].
  destruct (uav_grenade_counts self !! uav_id) as [n|]; simpl; [|reflexivity].
  destruct (schema_length _ ids) as [rest'|] eqn:Erest; simpl; [|discriminate].
  intros [= <-] Hlen.
  rewrite dv_slice_take by lia.
  destruct (unpack2 _) as [[speed angle]|e]; simpl; [|reflexivity].
  rewrite parse_grenades_take by lia.
  pose proof (parse_grenades_spec n 0 0 (dv_index + 2) []) as Hs.
  destruct (parse_grenades _ _ _ _ _ _ _) as [[gs idx']|e]; simpl; [|reflexivity].
  destruct Hs as [-> _]. apply (IH _ rest'); [reflexivity | lia].
Qed.

End Decoder.

(** C3, as the code has it.  A decision vector shorter than the schema (two
    scalars for each carrier, three for each of its munitions) is rejected
    by [_parse_decision_variables] with ValueError or IndexError, never
    with a partial strategy, and [objective_function] turns exactly that
    into the score [1e9].  A vector at least as long as the schema is
    decoded as its first entries are, whatever follows them. *)
Theorem short_vector_is_rejected `{NumPy} `{SciPy}
    (self : GlobalOptimizer) (dv : list Q) (L : nat) :
  schema_length (uav_grenade_counts self) (uav_ids self) = Some L ->
  ((length dv < L)%nat ->
   (_parse_decision_variables self dv = Raise ValueError
    \/ _parse_decision_variables self dv = Raise IndexError)
   /\ objective_function5 self dv = Ok 1e9)
  /\ ((L <= length dv)%nat ->
      _parse_decision_variables self dv = _parse_decision_variables self (take L dv)).
Proof.
  intros HL. split.
  - intros Hlen.
    assert (_parse_decision_variables self dv = Raise ValueError
            \/ _parse_decision_variables self dv = Raise IndexError) as Hr.
    { apply (parse_uavs_short self dv _ 0 L []); [exact HL | lia]. }
    split; [exact Hr|].
    unfold objective_function5. destruct Hr as [-> | ->]; reflexivity.
  - intros _. symmetry. apply (parse_uavs_take self dv L _ 0 L []); [exact HL | lia].
Qed.

Lemma short_vector_is_rejected_witness :
  exists self,
    one_carrier_optimizer = Ok self
    /\ ((_parse_decision_variables self [70; 0; 1] = Raise ValueError
         \/ _parse_decision_variables self [70; 0; 1] = Raise IndexError)
        /\ @objective_function5 rational_numpy euler_scipy self [70; 0; 1] = Ok 1e9).
Proof.
  eexists. split; [vm_compute; reflexivity|].
  apply (@short_vector_is_rejected rational_numpy euler_scipy _ [70; 0; 1] 5%nat).
  - vm_compute; reflexivity.
  - simpl; lia.
Defined.

(** C3 as stated fails for a vector that is too long.  The decoder of one
    carrier with one munition is written for five entries; it decodes a
    vector of six from the first five and ignores the sixth. *)
Lemma longer_vector_is_decoded :
  exists self,
    one_carrier_optimizer = Ok self
    /\ schema_length (uav_grenade_counts self) (uav_ids self) = Some 5%nat
    /\ length [100; 0.5; 2; 3; 0.4; 99] = 6%nat
    /\ _parse_decision_variables self [100; 0.5; 2; 3; 0.4; 99]
       = Ok [("FY1"%string, UavStrat5 100 0.5 [GrenadeStrat5 2 3 "M1"])].
Proof.
  eexists. split; [vm_compute; reflexivity|].
  repeat split; vm_compute; reflexivity.
Qed.

(** ** Running a computation *)

Lemma St_bind_Ok {S A B : Type} (m : St S A) (k : A -> St S B) (s s' : S) (a : A) :
  m s = (Ok a, s') -> (m ≫= k) s = k a s'.
Proof. intros Hm. unfold mbind, St_bind. rewrite Hm. reflexivity. Qed.

Lemma St_bind_Raise {S A B : Type} (m : St S A) (k : A -> St S B) (s s' : S) (e : exn) :
  m s = (Raise e, s') -> (m ≫= k) s = (Raise e, s').
Proof. intros Hm. unfold mbind, St_bind. rewrite Hm. reflexivity. Qed.

Lemma arr_get_Some {A : Type} (a : list A) (i : nat) (x : A) :
  a !! i = Some x -> arr_get a i = Ok x.
Proof. intros Hx. unfold arr_get. rewrite Hx. reflexivity. Qed.

Lemma arr_get_Ok {A : Type} (a : list A) (i : nat) (x : A) :
  arr_get a i = Ok x -> a !! i = Some x.
Proof. unfold arr_get. destruct (a !! i); congruence. Qed.

Lemma arr_set_lt {A : Type} (a : list A) (i : nat) (v : A) :
  (i < length a)%nat -> arr_set a i v = Ok (<[i := v]> a).
Proof.
  intros Hi. unfold arr_set.
  replace (i <? length a)%nat with true by (symmetry; apply Nat.ltb_lt; exact Hi).
  reflexivity.
Qed.

(** ** adaptive_de.py: the adaptive parameters *)

Lemma lastn_app_one {A : Type} (n : nat) (x : list A) (a : A) :
  lastn n (lastn n x ++ [a]) = lastn n (x ++ [a]).
Proof.
  unfold lastn.
  rewrite !length_app, length_drop. simpl.
  rewrite <- (drop_app_le x [a] (length x - n)) by lia.
  rewrite drop_drop. f_equal. lia.
Qed.

Lemma deque_append_lastn {A : Type} (n : nat) (x : list A) (a : A) :
  deque_append n (lastn n x) a = lastn n (x ++ [a]).
Proof. unfold deque_append. apply lastn_app_one. Qed.

Lemma lastn_nil {A : Type} (n : nat) : lastn n (@nil A) = [].
Proof. reflexivity. Qed.

(** The memory after the pairs of a generation went in: the last
    [memory_size] of what it held and of the pairs. *)
Lemma add_success_fold (ap : AdaptiveParameters) (xF xCR Fs CRs : list Q) :
  length Fs = length CRs ->
  successful_F ap = lastn (memory_size ap) xF ->
  successful_CR ap = lastn (memory_size ap) xCR ->
  let ap' := fold_left (fun ap p => add_success ap (fst p) (snd p)) (zip Fs CRs) ap in
  memory_size ap' = memory_size ap
  /\ successful_F ap' = lastn (memory_size ap) (xF ++ Fs)
  /\ successful_CR ap' = lastn (memory_size ap) (xCR ++ CRs)
  /\ mean_F ap' = mean_F ap /\ mean_CR ap' = mean_CR ap
  /\ std_F ap' = std_F ap /\ std_CR ap' = std_CR ap.
Proof.
  revert ap xF xCR CRs.
  induction Fs as [|F Fs IH]; intros ap xF xCR [|CR CRs] Hlen HF HCR;
    try discriminate; simpl.
  - rewrite !app_nil_r. tauto.
  - injection Hlen as Hlen.
    destruct (IH (add_success ap F CR) (xF ++ [F]) (xCR ++ [CR]) CRs Hlen) as (Hm & H1 & H2 & H3);
      simpl.
    + rewrite HF. apply deque_append_lastn.
    + rewrite HCR. apply deque_append_lastn.
    + simpl in *. rewrite <- !app_assoc in *. simpl in *. tauto.
Qed.

(** What lines 351 to 353 make of an empty memory and the successful pairs
    of a generation. *)
Lemma record_generation_pairs (ap : AdaptiveParameters) (pairs : list (Q * Q)) :
  successful_F ap = [] ->
  successful_CR ap = [] ->
  let ap' := record_generation ap (fst <$> pairs) (snd <$> pairs) in
  let kept := lastn (memory_size ap) pairs in
  memory_size ap' = memory_size ap
  /\ successful_F ap' = []
  /\ successful_CR ap' = []
  /\ (kept = [] -> mean_F ap' = mean_F ap /\ mean_CR ap' = mean_CR ap)
  /\ (kept <> [] ->
      mean_F ap' = (if Qltb 0 (np_sum (fst <$> kept)) then lehmer_mean (fst <$> kept) else 0.5)
      /\ mean_CR ap' = np_mean (snd <$> kept)).
Proof.
  intros HF HCR. cbv zeta. unfold record_generation.
  destruct (add_success_fold ap [] [] (fst <$> pairs) (snd <$> pairs))
    as (Hm & H1 & H2 & H3 & H4 & _).
  { rewrite !length_fmap. reflexivity. }
  { rewrite HF. reflexivity. }
  { rewrite HCR. reflexivity. }
  simpl in H1, H2.
  assert (forall (A : Type) (g : Q * Q -> A),
            lastn (memory_size ap) (g <$> pairs) = g <$> lastn (memory_size ap) pairs) as Hfmap.
  { intros A g. unfold lastn. rewrite fmap_drop, length_fmap. reflexivity. }
  rewrite Hfmap in H1, H2.
  set (b := fold_left _ _ ap) in *. unfold update_parameters.
  destruct (lastn (memory_size ap) pairs) as [|p kept] eqn:Ek.
  - rewrite H1. simpl. repeat split; try assumption; try congruence.
  - rewrite H1. simpl. rewrite H2. repeat split; try assumption; try discriminate.
Qed.

(** The same for lists of any lengths: the memory is empty afterwards. *)
Lemma record_generation_empties (ap : AdaptiveParameters) (Fs CRs : list Q) :
  successful_F ap = [] ->
  successful_CR ap = [] ->
  successful_F (record_generation ap Fs CRs) = []
  /\ successful_CR (record_generation ap Fs CRs) = [].
Proof.
  intros HF HCR.
  destruct (record_generation_pairs ap (zip Fs CRs) HF HCR) as (_ & H1 & H2 & _).
  unfold record_generation in *. rewrite zip_fst_snd in H1, H2. split; assumption.
Qed.

(** ** adaptive_de.py: crossover *)

Section Crossover.
Context {W : Type} `{NpRandomLaws W}.

(** The loop from dimension [i] on, [n] dimensions to go: it returns, it
    leaves the dimensions before [i] alone, every other component is the
    trial's or the mutant's, and the forced one is the mutant's. *)
Lemma crossover_loop_spec (mutant : arr) (CR : Q) (random_dim : nat) (n i : nat)
    (trial : arr) (w : W) :
  length trial = length mutant ->
  (i + n = length mutant)%nat ->
  exists trial' w',
    crossover_loop mutant CR random_dim n i trial w = (Ok trial', w')
    /\ length trial' = length mutant
    /\ (forall k, (k < i)%nat -> trial' !! k = trial !! k)
    /\ (forall k, trial' !! k = trial !! k \/ trial' !! k = mutant !! k)
    /\ ((i <= random_dim < i + n)%nat -> trial' !! random_dim = mutant !! random_dim).
Proof.
  revert i trial w. induction n as [|n IH]; intros i trial w Hlen Hin; simpl.
  - exists trial, w. repeat split; auto. lia.
  - destruct (random_random_returns w) as (u & w1 & Hu).
    rewrite (St_bind_Ok _ _ _ _ _ Hu).
    assert (exists m, mutant !! i = Some m) as [m Hm].
    { apply lookup_lt_is_Some. lia. }
    set (c := Qltb u CR || (i =? random_dim)%nat).
    assert (exists trial1,
               (if c then m ← st_of_exc (arr_get mutant i); st_of_exc (arr_set trial i m)
                else mret trial) w1 = (Ok trial1, w1)
               /\ length trial1 = length mutant
               /\ (forall k, k <> i -> trial1 !! k = trial !! k)
               /\ (trial1 !! i = trial !! i \/ trial1 !! i = mutant !! i)
               /\ (c = true -> trial1 !! i = mutant !! i)) as (trial1 & Hrun & Hl1 & Hk1 & Hi1 & Hc1).
    { destruct c.
      - exists (<[i := m]> trial).
        assert (<[i := m]> trial !! i = mutant !! i) as Hi.
        { rewrite Hm. apply list_lookup_insert_eq. lia. }
        split.
        { erewrite St_bind_Ok by (unfold st_of_exc; rewrite (arr_get_Some _ _ _ Hm); reflexivity).
          unfold st_of_exc. rewrite arr_set_lt by lia. reflexivity. } split; [rewrite length_insert; exact Hlen|].
        split; [intros k Hk; apply list_lookup_insert_ne; congruence|].
        split; [right; exact Hi | intros _; exact Hi].
      - exists trial. split; [reflexivity|]. repeat split; auto. discriminate. }
    rewrite (St_bind_Ok _ _ _ _ _ Hrun).
    destruct (IH (S i) trial1 w1 Hl1 ltac:(lia)) as (trial' & w' & -> & Hl & Hbefore & Hany & Hforced).
    exists trial', w'. split; [reflexivity|]. split; [exact Hl|].
    split; [intros k Hk; rewrite Hbefore by lia; apply Hk1; lia|].
    split.
    + intros k. destruct (Nat.eq_dec k i) as [->|Hne].
      * rewrite Hbefore by lia. exact Hi1.
      * destruct (Hany k) as [Hk| Hk]; [left; rewrite Hk; apply Hk1; exact Hne | right; exact Hk].
    + intros Hrd. destruct (Nat.eq_dec random_dim i) as [->|Hne].
      * rewrite Hbefore by lia. apply Hc1. unfold c.
        rewrite Nat.eqb_refl. apply orb_true_r.
      * apply Hforced. lia.
Qed.

(** C8, as the code has it.  For vectors of dimension [dim > 0] the trial
    takes the component of a forced dimension [j < dim] from the mutant,
    whatever [CR] and the random draws are, and every other component from
    the target or the mutant.  So the trial differs from the target
    whenever the mutant differs from it at [j]; where the mutant agrees
    with the target the trial may be the target. *)
Theorem crossover_forced_dimension (dim : nat) (target mutant : arr) (CR : Q) (w : W) :
  (0 < dim)%nat -> length target = dim -> length mutant = dim ->
  exists trial w' j,
    crossover dim target mutant CR w = (Ok trial, w')
    /\ (j < dim)%nat
    /\ length trial = dim
    /\ trial !! j = mutant !! j
    /\ (forall k, trial !! k = target !! k \/ trial !! k = mutant !! k)
    /\ (mutant !! j <> target !! j -> trial <> target).
Proof.
  intros Hdim Ht Hm. unfold crossover.
  destruct (random_randint_range 0 dim w Hdim) as (j & w1 & Hrun & Hj).
  rewrite (St_bind_Ok _ _ _ _ _ Hrun).
  destruct (crossover_loop_spec mutant CR j dim 0 target w1 ltac:(congruence) ltac:(lia))
    as (trial & w' & -> & Hl & _ & Hany & Hforced).
  exists trial, w', j. split; [reflexivity|]. split; [lia|]. split; [congruence|].
  split; [apply Hforced; lia|]. split; [exact Hany|].
  intros Hne ->. apply Hne. symmetry. apply Hforced. lia.
Qed.

End Crossover.

Lemma lcg_random_laws : @NpRandomLaws Z lcg_random.
Proof.
  split.
  - intros low high w Hlt. simpl.
    replace (low <? high)%nat with true by (symmetry; apply Nat.ltb_lt; exact Hlt).
    eexists _, _. split; [reflexivity|].
    pose proof (Z.mod_pos_bound (w / 65536) (Z.of_nat (high - low)) ltac:(lia)). lia.
  - intros w. simpl. eexists _, _. reflexivity.
Qed.

Lemma crossover_forced_dimension_witness :
  exists trial w' j,
    @crossover Z lcg_random 2 [1; 2] [3; 4] 0.5 42%Z = (Ok trial, w')
    /\ (j < 2)%nat
    /\ length trial = 2%nat
    /\ trial !! j = [3; 4] !! j
    /\ (forall k, trial !! k = [1; 2] !! k \/ trial !! k = [3; 4] !! k)
    /\ ([3; 4] !! j <> [1; 2] !! j -> trial <> [1; 2]).
Proof.
  apply (@crossover_forced_dimension Z lcg_random lcg_random_laws 2 [1; 2] [3; 4] 0.5 42%Z).
  - lia.
  - reflexivity.
  - reflexivity.
Defined.

(** C8 as stated fails where the mutant has the target's component in the
    forced dimension.  With [CR = 0], target [[1, 2]], mutant [[1, 5]] and
    the forced dimension 0, the trial is the target. *)
Lemma crossover_may_return_target :
  fst (@random_randint Z lcg_random 0 2 0%Z) = Ok 0%nat
  /\ fst (@crossover Z lcg_random 2 [1; 2] [1; 5] 0 0%Z) = Ok [1; 2].
Proof. split; vm_compute; reflexivity. Qed.

(** ** adaptive_de.py: what the steps of [optimize] keep *)

Section Keeps.
Context {W : Type}.
Variable P : DERun -> Prop.

Lemma keeps_bind {A B : Type} (m : Opt W A) (k : A -> Opt W B) :
  keeps P m -> (forall a, keeps P (k a)) -> keeps P (m ≫= k).
Proof.
  intros Hm Hk self w HP. specialize (Hm self w HP).
  unfold final_self, mbind, St_bind in *.
  destruct (m (self, w)) as [[a|e] [self' w']]; simpl in *.
  - apply Hk. exact Hm.
  - exact Hm.
Qed.

Lemma keeps_ret {A : Type} (a : A) : keeps P (mret a : Opt W A).
Proof. intros self w HP. exact HP. Qed.

Lemma keeps_lift_snd {A : Type} (m : St W A) : keeps P (lift_snd m : Opt W A).
Proof.
  intros self w HP. unfold final_self, lift_snd. simpl.
  destruct (m w) as [r w']. exact HP.
Qed.

Lemma keeps_st_of_exc {A : Type} (m : exc A) : keeps P (st_of_exc m : Opt W A).
Proof. intros self w HP. exact HP. Qed.

Lemma keeps_get_self : keeps P (get_self : Opt W DERun).
Proof. intros self w HP. exact HP. Qed.

Lemma keeps_modify_self (f : DERun -> DERun) :
  (forall self, P self -> P (f self)) -> keeps P (modify_self f : Opt W unit).
Proof. intros Hf self w HP. apply Hf. exact HP. Qed.

Context `{NpRandom W}.
Hypothesis HP : step_closed (W := W) P.

Lemma keeps_evolve_individual (cfg : DEConfig W) (log : gen_log) (i : nat) :
  keeps P (evolve_individual cfg log i).
Proof.
  intros self w Hs. unfold final_self, evolve_individual.
  unfold mbind, St_bind, get_self, lift_snd, st_of_exc, modify_self, mret, St_ret. simpl.
  destruct (make_trial cfg self i w) as [[t|e] w']; simpl; [|exact Hs].
  destruct (arr_get (fitness self) i) as [fit_i|e] eqn:Ef; simpl; [|exact Hs].
  destruct (arr_get (population self) i) as [old|e]; simpl; [|exact Hs].
  destruct (Qltb (trial_fitness t) fit_i) eqn:Elt; simpl; [|exact Hs].
  apply (closed_replace HP cfg self i old t fit_i Hs).
  - apply arr_get_Ok. exact Ef.
  - apply Qltb_lt. exact Elt.
Qed.

Lemma keeps_evolve_all (cfg : DEConfig W) (indices : list nat) (log : gen_log) :
  keeps P (evolve_all cfg log indices).
Proof.
  revert log. induction indices as [|i indices IH]; intros log; simpl.
  - apply keeps_ret.
  - apply keeps_bind; [apply keeps_evolve_individual | intros log'; apply IH].
Qed.

Lemma keeps_update_selector (used : list (MutationStrategy * bool)) :
  keeps P (update_selector used : Opt W unit).
Proof.
  induction used as [|[strategy success] used IH]; simpl.
  - apply keeps_ret.
  - apply keeps_bind; [apply keeps_get_self | intros self].
    apply keeps_bind; [apply keeps_st_of_exc | intros sel].
    apply keeps_bind; [|intros _; exact IH].
    apply keeps_modify_self. intros s. apply (closed_strategy_selector HP).
Qed.

Lemma keeps_end_of_generation (log : gen_log) : keeps P (end_of_generation log : Opt W unit).
Proof.
  unfold end_of_generation.
  apply keeps_bind; [|intros _].
  { apply keeps_modify_self. intros s. apply (closed_adaptive_params HP). }
  apply keeps_bind; [apply keeps_update_selector | intros _].
  apply keeps_modify_self. intros s. apply (closed_history HP).
Qed.

Lemma keeps_run_generation (cfg : DEConfig W) (generation : nat) :
  keeps P (run_generation cfg generation).
Proof.
  unfold run_generation.
  apply keeps_bind; [|intros _].
  { apply keeps_modify_self. intros s. apply (closed_generation HP). }
  apply keeps_bind; [|intros _].
  { apply keeps_modify_self. intros s. apply (closed_shrink HP). }
  apply keeps_bind; [apply keeps_get_self | intros self].
  apply keeps_bind; [apply keeps_evolve_all | intros log].
  apply keeps_end_of_generation.
Qed.

Lemma keeps_run_generations (cfg : DEConfig W) (gens : list nat) :
  keeps P (run_generations cfg gens).
Proof.
  induction gens as [|g gens IH]; simpl.
  - apply keeps_ret.
  - apply keeps_bind; [apply keeps_run_generation | intros _].
    apply keeps_bind; [apply keeps_get_self | intros self].
    destruct (abs_lt _ _); [apply keeps_ret | exact IH].
Qed.

Lemma keeps_create_result (cfg : DEConfig W) : keeps P (create_result cfg).
Proof.
  unfold create_result.
  apply keeps_bind; [apply keeps_get_self | intros self].
  apply keeps_bind; [apply keeps_st_of_exc | intros x]. apply keeps_ret.
Qed.

End Keeps.

(** ** The minimum of the fitness array *)

Lemma fold_left_Qmin_spec (l : list Q) (x : Q) :
  let m := fold_left Qmin l x in
  m <= x /\ Forall (fun y => m <= y) l /\ (m == x \/ exists y, y ∈ l /\ m == y).
Proof.
  revert x. induction l as [|a l IH]; intros x; simpl.
  - split; [lra|]. split; [constructor | left; reflexivity].
  - destruct (IH (Qmin x a)) as (H1 & H2 & H3).
    pose proof (Q.le_min_l x a). pose proof (Q.le_min_r x a).
    split; [lra|]. split; [constructor; [lra | exact H2]|].
    destruct H3 as [H3|(y & Hy & H3)].
    + destruct (Q.min_spec x a) as [[_ Hm]|[_ Hm]].
      * left. lra.
      * right. exists a. split; [apply list_elem_of_here | lra].
    + right. exists y. split; [apply list_elem_of_further; exact Hy | exact H3].
Qed.

Lemma np_min_minimum_of (l : list Q) (best : Q) :
  minimum_of l best <-> exists m, np_min l = Some m /\ best == m.
Proof.
  split.
  - intros [(f & Hf & Hfb) Hall]. destruct l as [|x l]; [inversion Hf|].
    simpl. eexists. split; [reflexivity|].
    destruct (fold_left_Qmin_spec l x) as (H1 & H2 & H3). cbv zeta in *.
    set (m := fold_left Qmin l x) in *.
    rewrite Forall_forall in H2, Hall.
    assert (m <= f) as Hmf.
    { apply elem_of_cons in Hf. destruct Hf as [->|Hf]; [exact H1 | apply H2; exact Hf]. }
    assert (best <= m) as Hbm.
    { destruct H3 as [H3|(y & Hy & H3)].
      - rewrite H3. apply Hall. apply list_elem_of_here.
      - rewrite H3. apply Hall. apply list_elem_of_further. exact Hy. }
    lra.
  - intros (m & Hm & Hbm). destruct l as [|x l]; [discriminate|].
    simpl in Hm. injection Hm as <-.
    destruct (fold_left_Qmin_spec l x) as (H1 & H2 & H3). cbv zeta in *.
    set (m := fold_left Qmin l x) in *. split.
    + destruct H3 as [H3|(y & Hy & H3)].
      * exists x. split; [apply list_elem_of_here | lra].
      * exists y. split; [apply list_elem_of_further; exact Hy | lra].
    + constructor; [lra|]. eapply Forall_impl; [exact H2|]. simpl. intros y Hy. lra.
Qed.

(** The invariant with the minimum characterised. *)
Lemma best_is_minimum_char (self : DERun) :
  best_is_minimum self
  <-> length (population self) = length (fitness self)
      /\ exists best f : Q,
           best_fitness self = Fin best
           /\ fitness self !! best_idx self = Some f /\ f == best
           /\ Forall (fun x => best <= x) (fitness self).
Proof.
  unfold best_is_minimum. split.
  - intros (Hlen & best & m & f & Hb & Hm & Hbm & Hf & Hfb). split; [exact Hlen|].
    exists best, f. repeat split; try assumption.
    apply (np_min_minimum_of (fitness self) best). eauto.
  - intros (Hlen & best & f & Hb & Hf & Hfb & Hall). split; [exact Hlen|].
    destruct (proj1 (np_min_minimum_of (fitness self) best)) as (m & Hm & Hbm).
    { split; [|exact Hall]. exists f. split; [|exact Hfb].
      eapply list_elem_of_lookup_2. exact Hf. }
    exists best, m, f. repeat split; assumption.
Qed.

(** [np.argmin] returns the index of a least entry. *)
Lemma argmin_from_spec (pre l : list Q) (best_i : nat) (best : Q) :
  (pre ++ l) !! best_i = Some best ->
  Forall (fun x => best <= x) pre ->
  exists m, (pre ++ l) !! argmin_from best_i best (length pre) l = Some m
            /\ Forall (fun x => m <= x) (pre ++ l).
Proof.
  revert pre best_i best. induction l as [|x l IH]; intros pre best_i best Hb Hpre; simpl.
  - exists best. rewrite app_nil_r in *. split; assumption.
  - replace (pre ++ x :: l) with ((pre ++ [x]) ++ l) in * by (rewrite <- app_assoc; reflexivity).
    replace (S (length pre)) with (length (pre ++ [x])) by (rewrite length_app; simpl; lia).
    destruct (Qltb x best) eqn:E.
    + apply Qltb_lt in E. apply IH.
      * rewrite lookup_app_l by (rewrite length_app; simpl; lia).
        rewrite lookup_app_r by lia. replace (length pre - length pre)%nat with 0%nat by lia.
        reflexivity.
      * apply Forall_app. split; [|constructor; [lra | constructor]].
        eapply Forall_impl; [exact Hpre|]. simpl. intros y Hy. lra.
    + apply Qltb_ge in E. apply IH; [exact Hb|].
      apply Forall_app. split; [exact Hpre | constructor; [exact E | constructor]].
Qed.

Lemma np_argmin_spec (l : list Q) (idx : nat) :
  np_argmin l = Ok idx ->
  exists m, l !! idx = Some m /\ Forall (fun x => m <= x) l.
Proof.
  destruct l as [|x l]; simpl; [discriminate|]. intros [= <-].
  apply (argmin_from_spec [x] l 0 x); [reflexivity|].
  constructor; [lra | constructor].
Qed.

(** ** [np.argsort] *)

Lemma insert_index_perm (a : list Q) (j : nat) (l : list nat) :
  insert_index a j l ≡ₚ j :: l.
Proof.
  induction l as [|k l IH]; simpl; [reflexivity|].
  destruct (Qltb _ _); [|reflexivity].
  rewrite IH. apply Permutation_swap.
Qed.

Lemma insert_index_sorted (a : list Q) (j : nat) (l : list nat) :
  StronglySorted (fitness_le a) l -> StronglySorted (fitness_le a) (insert_index a j l).
Proof.
  induction l as [|k l IH]; intros Hs; simpl.
  - constructor; constructor.
  - inversion Hs as [|? ? Hl Hk]; subst.
    destruct (Qltb _ _) eqn:E.
    + apply Qltb_lt in E. constructor; [apply IH; exact Hl|].
      rewrite insert_index_perm. constructor; [unfold fitness_le; lra | exact Hk].
    + apply Qltb_ge in E. constructor; [exact Hs|].
      constructor; [exact E|].
      eapply Forall_impl; [exact Hk|]. unfold fitness_le. simpl. intros i Hi. lra.
Qed.

Lemma np_argsort_perm (a : list Q) : np_argsort a ≡ₚ seq 0 (length a).
Proof.
  unfold np_argsort. induction (seq 0 (length a)) as [|j l IH]; simpl; [reflexivity|].
  rewrite insert_index_perm, IH. reflexivity.
Qed.

Lemma np_argsort_sorted (a : list Q) : StronglySorted (fitness_le a) (np_argsort a).
Proof.
  unfold np_argsort. induction (seq 0 (length a)) as [|j l IH]; simpl; [constructor|].
  apply insert_index_sorted. exact IH.
Qed.

Lemma np_argsort_valid (a : list Q) (j : nat) :
  j ∈ np_argsort a <-> (j < length a)%nat.
Proof. rewrite np_argsort_perm, elem_of_seq. lia. Qed.

(** Indexing by indices that are all within the array. *)
Lemma take_indices_fmap {A : Type} (a : list A) (d : A) (indices : list nat) :
  Forall (fun j => (j < length a)%nat) indices ->
  take_indices a indices = (fun j => nth j a d) <$> indices.
Proof.
  induction 1 as [|j indices Hj _ IH]; [reflexivity|].
  unfold take_indices in *. csimpl. rewrite nth_lookup.
  destruct (lookup_lt_is_Some_2 a j Hj) as [x ->]. csimpl. rewrite IH. reflexivity.
Qed.

Lemma take_indices_length {A : Type} (a : list A) (indices : list nat) :
  Forall (fun j => (j < length a)%nat) indices ->
  length (take_indices a indices) = length indices.
Proof.
  induction 1 as [|j indices Hj _ IH]; [reflexivity|].
  unfold take_indices in *. csimpl.
  destruct (lookup_lt_is_Some_2 a j Hj) as [x ->]. csimpl. rewrite IH. reflexivity.
Qed.

Lemma take_indices_elem_of {A : Type} (a : list A) (indices : list nat) (x : A) :
  x ∈ take_indices a indices -> exists j, j ∈ indices /\ a !! j = Some x.
Proof.
  unfold take_indices. rewrite list_elem_of_omap. tauto.
Qed.

Lemma take_indices_seq {A : Type} (a : list A) : take_indices a (seq 0 (length a)) = a.
Proof.
  destruct a as [|d a']; [reflexivity|]. generalize (d :: a'). intros a.
  rewrite (take_indices_fmap a d).
  - apply list_eq. intros i. rewrite list_lookup_fmap.
    destruct (a !! i) as [x|] eqn:Ex.
    + rewrite lookup_seq_lt by (eapply lookup_lt_Some; exact Ex).
      simpl. rewrite nth_lookup, Ex. reflexivity.
    + rewrite lookup_seq_ge by (apply lookup_ge_None; exact Ex). reflexivity.
  - apply Forall_forall. intros j Hj. apply elem_of_seq in Hj. lia.
Qed.

Lemma take_indices_perm {A : Type} (a : list A) (l1 l2 : list nat) :
  l1 ≡ₚ l2 -> take_indices a l1 ≡ₚ take_indices a l2.
Proof. intros Hp. unfold take_indices. rewrite Hp. reflexivity. Qed.

(** ** The best fitness is the minimum of the fitness array *)

Lemma replace_individual_minimum {W : Type} (cfg : DEConfig W)
    (self : DERun) (i : nat) (old : arr) (t : trial_result) (f : Q) :
  best_is_minimum self -> fitness self !! i = Some f -> trial_fitness t < f ->
  best_is_minimum (replace_individual cfg self i old t).
Proof.
  rewrite !best_is_minimum_char.
  intros (Hlen & best & fb & Hb & Hfb & Heq & Hall) Hf Hlt.
  pose proof (lookup_lt_Some _ _ _ Hf) as Hi.
  assert (best <= f) as Hbf.
  { rewrite Forall_forall in Hall. apply Hall. eapply list_elem_of_lookup_2. exact Hf. }
  unfold replace_individual.
  destruct (archive self); simpl; rewrite Hb; simpl;
    (destruct (Qltb (trial_fitness t) best) eqn:E; simpl;
     [apply Qltb_lt in E | apply Qltb_ge in E];
     (split; [rewrite !length_insert; exact Hlen|])).
  all: try (exists (trial_fitness t), (trial_fitness t);
            split; [reflexivity|]; split; [apply list_lookup_insert_eq; exact Hi|];
            split; [reflexivity|];
            apply Forall_insert; [|lra];
            eapply Forall_impl; [exact Hall|]; simpl; intros y Hy; lra).
  all: exists best, fb; split; [exact Hb|];
       (split; [|split; [exact Heq | apply Forall_insert; [exact Hall | exact E]]]);
       rewrite list_lookup_insert_ne; [exact Hfb|];
       intros ->; rewrite Hf in Hfb; injection Hfb as <-; lra.
Qed.

Lemma update_population_size_minimum {W : Type} (cfg : DEConfig W) (self : DERun) :
  best_is_minimum self -> best_is_minimum (update_population_size cfg self).
Proof.
  intros Hs. unfold update_population_size.
  destruct (adaptive_popsize cfg); simpl; [|exact Hs].
  set (cur := Z.max _ _).
  assert (4 <= cur)%Z as Hcur by (unfold cur; lia).
  destruct (cur <? _)%Z eqn:E; [|exact Hs].
  apply Z.ltb_lt in E.
  apply best_is_minimum_char in Hs. destruct Hs as (Hlen & best & fb & Hb & Hfb & Heq & Hall).
  apply best_is_minimum_char. simpl.
  remember (np_argsort (fitness self)) as sigma eqn:Es.
  assert (forall j, j ∈ sigma <-> (j < length (fitness self))%nat) as Hsv.
  { intros j. rewrite Es. apply np_argsort_valid. }
  assert (Forall (fun j => (j < length (fitness self))%nat) (take (Z.to_nat cur) sigma)) as Hvalid.
  { apply Forall_forall. intros j Hj. apply Hsv.
    apply elem_of_take in Hj. destruct Hj as (n & Hn & _).
    eapply list_elem_of_lookup_2. exact Hn. }
  split.
  { rewrite !take_indices_length; [reflexivity | exact Hvalid | rewrite Hlen; exact Hvalid]. }
  assert (length sigma = length (fitness self)) as Hsl.
  { rewrite Es, np_argsort_perm. apply length_seq. }
  pose proof (np_argsort_sorted (fitness self)) as Hsorted. rewrite <- Es in Hsorted.
  destruct sigma as [|s0 sigma']; [simpl in Hsl; lia|].
  replace (Z.to_nat cur) with (S (Z.to_nat cur - 1)) by lia.
  assert (s0 < length (fitness self))%nat as Hs0.
  { apply Hsv. apply list_elem_of_here. }
  destruct (lookup_lt_is_Some_2 _ _ Hs0) as [f0 Hf0].
  exists best, f0. split; [exact Hb|]. split.
  { unfold take_indices. csimpl. rewrite Hf0. reflexivity. }
  assert (best <= f0) as H1.
  { rewrite Forall_forall in Hall. apply Hall. eapply list_elem_of_lookup_2. exact Hf0. }
  assert (f0 <= fb) as H2.
  { assert (best_idx self ∈ s0 :: sigma') as Hin.
    { apply Hsv. eapply lookup_lt_Some. exact Hfb. }
    inversion Hsorted as [|? ? _ Hhead]; subst.
    apply elem_of_cons in Hin. destruct Hin as [Hin|Hin].
    - rewrite Hin in Hfb. rewrite Hf0 in Hfb. injection Hfb as ->. lra.
    - rewrite Forall_forall in Hhead. specialize (Hhead _ Hin).
      unfold fitness_le in Hhead. rewrite !nth_lookup, Hf0, Hfb in Hhead. exact Hhead. }
  split; [lra|].
  apply Forall_forall. intros x Hx. apply take_indices_elem_of in Hx.
  destruct Hx as (j & _ & Hj). rewrite Forall_forall in Hall. apply Hall.
  eapply list_elem_of_lookup_2. exact Hj.
Qed.

Lemma best_is_minimum_closed {W : Type} : step_closed (W := W) best_is_minimum.
Proof.
  split.
  - intros self Fs CRs Hs. exact Hs.
  - intros v self Hs. exact Hs.
  - intros v self Hs. exact Hs.
  - intros cfg self i old t f. apply replace_individual_minimum.
  - intros cfg self. apply update_population_size_minimum.
  - intros self Hs. exact Hs.
Qed.

(** ** The history follows the best fitness *)

Lemma xle_refl (a : xfloat) : xle a a.
Proof. destruct a; simpl; [lra | exact I]. Qed.

Lemma xle_trans (a b c : xfloat) : xle a b -> xle b c -> xle a c.
Proof. destruct a, b, c; simpl; try tauto; lra. Qed.

(** What [replace_individual] does to the best fitness and to the array. *)
Lemma replace_individual_effect {W : Type} (cfg : DEConfig W)
    (self : DERun) (i : nat) (old : arr) (t : trial_result) :
  let self' := replace_individual cfg self i old t in
  xle (best_fitness self') (best_fitness self)
  /\ fitness self' = <[i := trial_fitness t]> (fitness self)
  /\ convergence_history self' = convergence_history self.
Proof.
  cbv zeta. unfold replace_individual.
  destruct (archive self); simpl;
    (destruct (lt_xfloat (trial_fitness t) (best_fitness self)) eqn:E; simpl;
     (split; [|split; reflexivity])); try apply xle_refl.
  all: destruct (best_fitness self); simpl in *; [apply Qltb_lt in E; lra | exact I].
Qed.

Lemma replace_individual_history {W : Type} (cfg : DEConfig W)
    (self : DERun) (i : nat) (old : arr) (t : trial_result) :
  history_follows_best self -> history_follows_best (replace_individual cfg self i old t).
Proof.
  intros [Hn Hl].
  destruct (replace_individual_effect cfg self i old t) as (Hb & _ & Hh).
  unfold history_follows_best. rewrite Hh. split; [exact Hn|].
  intros a Ha. eapply xle_trans; [exact Hb | apply Hl; exact Ha].
Qed.

Lemma update_population_size_best {W : Type} (cfg : DEConfig W) (self : DERun) :
  best_fitness (update_population_size cfg self) = best_fitness self
  /\ convergence_history (update_population_size cfg self) = convergence_history self.
Proof.
  unfold update_population_size.
  destruct (adaptive_popsize cfg); simpl; [|tauto].
  destruct (_ <? _)%Z; simpl; tauto.
Qed.

Lemma non_increasing_snoc (h : list xfloat) (b : xfloat) :
  non_increasing h -> (forall a, last h = Some a -> xle b a) -> non_increasing (h ++ [b]).
Proof.
  intros Hn Hl k x y Hx Hy.
  destruct (Nat.lt_ge_cases (S k) (length h)) as [Hk|Hk].
  - rewrite lookup_app_l in Hx by lia. rewrite lookup_app_l in Hy by lia.
    eapply Hn; eassumption.
  - pose proof (lookup_lt_Some _ _ _ Hy) as Hlt. rewrite length_app in Hlt. simpl in Hlt.
    assert (S k = length h) as Hk' by lia.
    rewrite lookup_app_l in Hx by lia.
    rewrite lookup_app_r in Hy by lia.
    replace (S k - length h)%nat with 0%nat in Hy by lia. injection Hy as <-.
    apply Hl. rewrite last_lookup. rewrite <- Hk'. exact Hx.
Qed.

Lemma history_follows_best_closed {W : Type} : step_closed (W := W) history_follows_best.
Proof.
  split.
  - intros self Fs CRs Hs. exact Hs.
  - intros v self Hs. exact Hs.
  - intros v self Hs. exact Hs.
  - intros cfg self i old t f Hs _ _. apply replace_individual_history. exact Hs.
  - intros cfg self [Hn Hl]. unfold history_follows_best.
    destruct (update_population_size_best cfg self) as [-> ->]. split; assumption.
  - intros self [Hn Hl]. split; simpl.
    + apply non_increasing_snoc; assumption.
    + intros a. rewrite last_snoc. intros [= <-]. apply xle_refl.
Qed.

(** ** The memory of successful pairs *)

Lemma memory_is_empty_closed {W : Type} : step_closed (W := W) memory_is_empty.
Proof.
  split.
  - intros self Fs CRs [HF HCR]. apply record_generation_empties; assumption.
  - intros v self Hs. exact Hs.
  - intros v self Hs. exact Hs.
  - intros cfg self i old t f Hs _ _. unfold memory_is_empty, replace_individual.
    destruct (archive self); simpl; destruct (lt_xfloat _ _); exact Hs.
  - intros cfg self Hs. unfold memory_is_empty, update_population_size.
    destruct (adaptive_popsize cfg); simpl; [|exact Hs].
    destruct (_ <? _)%Z; exact Hs.
  - intros self Hs. exact Hs.
Qed.

(** ** Runs *)

Lemma final_self_bind {W A B : Type} (m : Opt W A) (k : A -> Opt W B) (self : DERun) (w : W) :
  final_self (m ≫= k) self w
  = match m (self, w) with
    | (Ok a, (self', w')) => final_self (k a) self' w'
    | (Raise _, (self', _)) => self'
    end.
Proof.
  unfold final_self, mbind, St_bind.
  destruct (m (self, w)) as [[a|e] [self' w']]; reflexivity.
Qed.

Lemma mapM_St_length {S A B : Type} (f : A -> St S B) (l : list A) (s s' : S) (r : list B) :
  mapM f l s = (Ok r, s') -> length r = length l.
Proof.
  revert s s' r. induction l as [|x l IH]; intros s s' r; simpl.
  - intros [= <- _]. reflexivity.
  - unfold mbind, St_bind. destruct (f x s) as [[y|e] s1]; [|discriminate].
    destruct (mapM f l s1) as [[r'|e] s2] eqn:E; [|discriminate].
    intros [= <- _]. simpl. f_equal. eapply IH. exact E.
Qed.

Section Runs.
Context {W : Type} `{NpRandom W}.

(** What [initialize_population] leaves when it returns. *)
Lemma initialize_population_minimum (cfg : DEConfig W) (self : DERun) (w : W) :
  fst (initialize_population cfg (self, w)) = Ok tt ->
  best_is_minimum (final_self (initialize_population cfg) self w).
Proof.
  unfold final_self, initialize_population.
  unfold mbind, St_bind, lift_snd, modify_self, st_of_exc. simpl.
  destruct (uniform_matrix _ _ _ w) as [[pop|e] w1]; simpl; [|discriminate].
  destruct (mapM (objective_func cfg) pop w1) as [[fit|e] w2] eqn:Efit; simpl; [|discriminate].
  destruct (np_argmin fit) as [idx|e] eqn:Eidx; simpl; [|discriminate].
  destruct (arr_get fit idx) as [best|e] eqn:Ebest; simpl; [|discriminate].
  intros _. apply best_is_minimum_char. simpl.
  split; [symmetry; eapply mapM_St_length; exact Efit|].
  destruct (np_argmin_spec fit idx Eidx) as (m & Hm & Hall).
  apply arr_get_Ok in Ebest. rewrite Hm in Ebest. injection Ebest as ->.
  exists best, best. repeat split; try assumption; try reflexivity.
Qed.

Lemma keeps_initialize_population (P : DERun -> Prop) (cfg : DEConfig W) :
  (forall v self, P self -> P (set_population v self)) ->
  (forall v self, P self -> P (set_fitness v self)) ->
  (forall v self, P self -> P (set_best_idx v self)) ->
  (forall v self, P self -> P (set_best_fitness v self)) ->
  keeps P (initialize_population cfg).
Proof.
  intros H1 H2 H3 H4. unfold initialize_population.
  apply keeps_bind; [apply keeps_lift_snd | intros pop].
  apply keeps_bind; [apply keeps_modify_self; apply H1 | intros _].
  apply keeps_bind; [apply keeps_lift_snd | intros fit].
  apply keeps_bind; [apply keeps_modify_self; apply H2 | intros _].
  apply keeps_bind; [apply keeps_st_of_exc | intros idx].
  apply keeps_bind; [apply keeps_modify_self; apply H3 | intros _].
  apply keeps_bind; [apply keeps_st_of_exc | intros best].
  apply keeps_modify_self; apply H4.
Qed.

Lemma initialize_population_history (cfg : DEConfig W) :
  keeps (fun self => convergence_history self = []) (initialize_population cfg).
Proof. apply keeps_initialize_population; intros v self Hs; exact Hs. Qed.

Lemma keeps_after_initialization (P : DERun -> Prop) (cfg : DEConfig W) :
  step_closed (W := W) P ->
  keeps P (run_generations cfg (seq 0 (maxiter cfg)) ≫= fun _ => create_result cfg).
Proof.
  intros HP. apply keeps_bind; [apply keeps_run_generations; exact HP | intros _].
  apply keeps_create_result.
Qed.

End Runs.

Section Claims.
Context {W : Type} `{NpRandom W}.

(** The step of one individual changes nothing or replaces the individual
    by a trial of strictly lower fitness. *)
Lemma evolve_individual_effect (cfg : DEConfig W) (log : gen_log) (i : nat)
    (self : DERun) (w : W) :
  final_self (evolve_individual cfg log i) self w = self
  \/ exists old t f,
       fitness self !! i = Some f /\ trial_fitness t < f
       /\ final_self (evolve_individual cfg log i) self w = replace_individual cfg self i old t.
Proof.
  unfold final_self, evolve_individual.
  unfold mbind, St_bind, get_self, lift_snd, st_of_exc, modify_self, mret, St_ret. simpl.
  destruct (make_trial cfg self i w) as [[t|e] w']; simpl; [|left; reflexivity].
  destruct (arr_get (fitness self) i) as [fit_i|e] eqn:Ef; simpl; [|left; reflexivity].
  destruct (arr_get (population self) i) as [old|e]; simpl; [|left; reflexivity].
  destruct (Qltb (trial_fitness t) fit_i) eqn:Elt; simpl; [|left; reflexivity].
  right. exists old, t, fit_i. split; [apply arr_get_Ok; exact Ef|].
  split; [apply Qltb_lt; exact Elt | reflexivity].
Qed.

(** Shrinking keeps a prefix of the fitness array in ascending order: no
    fitness it keeps is above one it drops. *)
Lemma update_population_size_best_ranked (cfg : DEConfig W) (self : DERun) :
  update_population_size cfg self = self
  \/ (best_idx (update_population_size cfg self) = 0%nat
      /\ exists dropped : list Q,
           fitness (update_population_size cfg self) ++ dropped ≡ₚ fitness self
           /\ forall x y, x ∈ fitness (update_population_size cfg self) -> y ∈ dropped -> x <= y).
Proof.
  unfold update_population_size.
  destruct (adaptive_popsize cfg); simpl; [|left; reflexivity].
  set (cur := Z.max _ _). destruct (cur <? _)%Z; [|left; reflexivity].
  right. simpl. split; [reflexivity|].
  set (a := fitness self). set (k := Z.to_nat cur).
  exists (take_indices a (drop k (np_argsort a))). split.
  - unfold take_indices. rewrite <- omap_app, take_drop.
    fold (take_indices a (np_argsort a)).
    rewrite (take_indices_perm a _ _ (np_argsort_perm a)). rewrite take_indices_seq. reflexivity.
  - intros x y Hx Hy.
    apply take_indices_elem_of in Hx. destruct Hx as (i & Hi & Hxi).
    apply take_indices_elem_of in Hy. destruct Hy as (j & Hj & Hyj).
    pose proof (np_argsort_sorted a) as Hs. rewrite <- (take_drop k (np_argsort a)) in Hs.
    pose proof (StronglySorted_app_1_elem_of _ _ _ _ _ Hs Hi Hj) as Hle.
    unfold fitness_le in Hle. rewrite !nth_lookup, Hxi, Hyj in Hle. exact Hle.
Qed.

(** C10.  After [initialize_population] has returned, [best_fitness] is the
    minimum of the fitness array and [fitness[best_idx] == best_fitness].
    The replacement of an individual by a strictly better trial with the
    update of the global best, the whole step of an individual, the end of
    a generation and the shrinking of the population (which sets
    [best_idx] to 0 when it shrinks) each keep both equalities; hence they
    hold in the state [optimize] leaves, when it returns and also at an
    exception raised after the initialization. *)
Theorem best_fitness_is_minimum (cfg : DEConfig W) :
  (forall self w,
      fst (initialize_population cfg (self, w)) = Ok tt ->
      best_is_minimum (final_self (initialize_population cfg) self w))
  /\ (forall self i old t f,
        best_is_minimum self -> fitness self !! i = Some f -> trial_fitness t < f ->
        best_is_minimum (replace_individual cfg self i old t))
  /\ (forall log i, keeps best_is_minimum (evolve_individual cfg log i))
  /\ (forall log, keeps best_is_minimum (end_of_generation log : Opt W unit))
  /\ (forall self,
        best_is_minimum self ->
        best_is_minimum (update_population_size cfg self)
        /\ (update_population_size cfg self = self
            \/ best_idx (update_population_size cfg self) = 0%nat))
  /\ (forall generation, keeps best_is_minimum (run_generation cfg generation))
  /\ (forall self w,
        fst (initialize_population cfg (self, w)) = Ok tt ->
        best_is_minimum (final_self (optimize cfg) self w)).
Proof.
  pose proof (@best_is_minimum_closed W) as HP.
  split; [apply initialize_population_minimum|].
  split; [intros self i old t f; apply replace_individual_minimum|].
  split; [intros log i; apply keeps_evolve_individual; exact HP|].
  split; [intros log; apply keeps_end_of_generation; exact HP|].
  split.
  { intros self Hs. split; [apply update_population_size_minimum; exact Hs|].
    destruct (update_population_size_best_ranked cfg self) as [?|[? _]]; tauto. }
  split; [intros g; apply keeps_run_generation; exact HP|].
  intros self w Hinit. unfold optimize. rewrite final_self_bind.
  pose proof (initialize_population_minimum cfg self w Hinit) as Hmin.
  unfold final_self in Hmin.
  destruct (initialize_population cfg (self, w)) as [[[]|e] [self1 w1]]; simpl in *;
    [|discriminate].
  apply (keeps_after_initialization best_is_minimum cfg HP). exact Hmin.
Qed.

(** C6.  In a run of [optimize] on the optimizer as [__init__] makes it,
    whatever the objective, the bounds, the population size, the seed and
    the state of the generator, every entry of [convergence_history] is
    less than or equal to its predecessor (in the history the run leaves
    when it returns, and also in the one it leaves at an exception).  The
    step of an individual never raises the best fitness and changes the
    fitness array only by writing a strictly lower value at the
    individual's index; shrinking leaves the best fitness as it is and
    keeps the best-ranked individuals. *)
Theorem convergence_history_non_increasing
    (objective_func : arr -> St W Q) (bounds : list (Q * Q)) (popsize : option nat)
    (maxiter : nat) (tol : Q) (seed : option nat) (boundary_handling : BoundaryHandling)
    (use_archive : bool) (archive_size : nat) (adaptive_popsize : bool) (w : W) :
  let init :=
    AdaptiveDifferentialEvolution_init objective_func bounds popsize maxiter tol seed
      boundary_handling use_archive archive_size adaptive_popsize w in
  let cfg := fst (fst init) in
  non_increasing
    (convergence_history (final_self (optimize cfg) (snd (fst init)) (snd init)))
  /\ (forall self w' log i,
        xle (best_fitness (final_self (evolve_individual cfg log i) self w'))
            (best_fitness self)
        /\ (fitness (final_self (evolve_individual cfg log i) self w') = fitness self
            \/ exists f f',
                 fitness self !! i = Some f /\ f' < f
                 /\ fitness (final_self (evolve_individual cfg log i) self w')
                    = <[i := f']> (fitness self)))
  /\ (forall self,
        best_fitness (update_population_size cfg self) = best_fitness self
        /\ (update_population_size cfg self = self
            \/ exists dropped : list Q,
                 fitness (update_population_size cfg self) ++ dropped ≡ₚ fitness self
                 /\ forall x y,
                      x ∈ fitness (update_population_size cfg self) -> y ∈ dropped ->
                      x <= y)).
Proof.
  cbv zeta. set (init := AdaptiveDifferentialEvolution_init _ _ _ _ _ _ _ _ _ _ _).
  set (cfg := fst (fst init)).
  split; [|split].
  - pose proof (@history_follows_best_closed W) as HP.
    assert (history_follows_best (final_self (optimize cfg) (snd (fst init)) (snd init)))
      as [Hn _]; [|exact Hn].
    unfold optimize. rewrite final_self_bind.
    pose proof (initialize_population_history cfg (snd (fst init)) (snd init) eq_refl) as Hh.
    unfold final_self in Hh.
    destruct (initialize_population cfg (snd (fst init), snd init)) as [[[]|e] [self1 w1]];
      simpl in Hh.
    + apply (keeps_after_initialization history_follows_best cfg HP).
      unfold history_follows_best. rewrite Hh. split; [intros k a b Hk; discriminate|].
      intros a Ha. discriminate.
    + unfold history_follows_best. rewrite Hh. split; [intros k a b Hk; discriminate|].
      intros a Ha. discriminate.
  - intros self w' log i.
    destruct (evolve_individual_effect cfg log i self w') as [->|(old & t & f & Hf & Hlt & ->)].
    + split; [apply xle_refl | left; reflexivity].
    + destruct (replace_individual_effect cfg self i old t) as (Hb & Hfit & _).
      split; [exact Hb|]. right. exists f, (trial_fitness t). repeat split; assumption.
  - intros self. split; [apply update_population_size_best|].
    destruct (update_population_size_best_ranked cfg self) as [?|[_ ?]]; tauto.
Qed.

(** C7, as the code has it.  At the end of a generation its successful
    pairs go into a memory of capacity [memory_size] (100) that is empty,
    so only the last [memory_size] of them are kept.  When some are kept,
    [mean_F] becomes their Lehmer mean (0.5 should their sum not be
    positive) and [mean_CR] their arithmetic mean; when none is, both
    centres stay as they were.  The memory is emptied: it is empty after
    the end of every generation and in every state a run leaves, so the
    centres a later generation computes from its own pairs are those it
    would compute after any other history. *)
Theorem record_generation_spec (cfg : DEConfig W)
    (ap : AdaptiveParameters) (pairs : list (Q * Q)) :
  successful_F ap = [] ->
  successful_CR ap = [] ->
  let ap' := record_generation ap (fst <$> pairs) (snd <$> pairs) in
  let kept := lastn (memory_size ap) pairs in
  memory_size ap' = memory_size ap
  /\ successful_F ap' = []
  /\ successful_CR ap' = []
  /\ (kept = [] -> mean_F ap' = mean_F ap /\ mean_CR ap' = mean_CR ap)
  /\ (kept <> [] ->
      mean_F ap' = (if Qltb 0 (np_sum (fst <$> kept)) then lehmer_mean (fst <$> kept) else 0.5)
      /\ mean_CR ap' = np_mean (snd <$> kept))
  /\ (forall (other : AdaptiveParameters) (pairs2 : list (Q * Q)),
        successful_F other = [] -> successful_CR other = [] ->
        memory_size other = memory_size ap ->
        lastn (memory_size ap) pairs2 <> [] ->
        mean_F (record_generation ap' (fst <$> pairs2) (snd <$> pairs2))
        = mean_F (record_generation other (fst <$> pairs2) (snd <$> pairs2))
        /\ mean_CR (record_generation ap' (fst <$> pairs2) (snd <$> pairs2))
           = mean_CR (record_generation other (fst <$> pairs2) (snd <$> pairs2)))
  /\ (forall log, keeps memory_is_empty (end_of_generation log : Opt W unit))
  /\ keeps memory_is_empty (optimize cfg).
Proof.
  intros HF HCR. cbv zeta.
  destruct (record_generation_pairs ap pairs HF HCR) as (Hm & H1 & H2 & H3 & H4).
  refine (conj Hm (conj H1 (conj H2 (conj H3 (conj H4 _))))).
  pose proof (@memory_is_empty_closed W) as HP.
  split; [|split].
  - intros other pairs2 HoF HoCR Hom Hk.
    destruct (record_generation_pairs _ pairs2 H1 H2) as (_ & _ & _ & _ & Ha).
    destruct (record_generation_pairs other pairs2 HoF HoCR) as (_ & _ & _ & _ & Hb).
    rewrite Hm in Ha. rewrite Hom in Hb.
    destruct (Ha Hk) as [-> ->], (Hb Hk) as [-> ->]. split; reflexivity.
  - intros log. apply keeps_end_of_generation. exact HP.
  - unfold optimize. apply keeps_bind; [|intros _].
    + apply keeps_initialize_population; intros v self Hs; exact Hs.
    + apply (keeps_after_initialization memory_is_empty cfg HP).
Qed.

End Claims.

(** ** 4.probelm3_4代码/optimizer.py: the objective *)



(** ** Runs on the executable implementations *)

Lemma record_generation_spec_witness :
  mean_F (record_generation (AdaptiveParameters_init 100) [0.5; 0.7] [0.9; 0.3])
  = lehmer_mean [0.5; 0.7]
  /\ mean_CR (record_generation (AdaptiveParameters_init 100) [0.5; 0.7] [0.9; 0.3])
     = np_mean [0.9; 0.3]
  /\ successful_F (record_generation (AdaptiveParameters_init 100) [0.5; 0.7] [0.9; 0.3]) = [].
Proof.
  destruct (@record_generation_spec Z lcg_random sphere_cfg (AdaptiveParameters_init 100)
              [(0.5, 0.9); (0.7, 0.3)] eq_refl eq_refl) as (_ & HF & _ & _ & Hmean & _).
  destruct (Hmean ltac:(discriminate)) as [H1 H2].
  split; [exact H1|]. split; [exact H2 | exact HF].
Defined.

(** C7 as stated fails in a generation with more successes than the memory
    holds.  With 101 successful pairs, the first with [F = 2] and the
    others with [F = 1], the Lehmer mean of the generation's values is
    [104 / 102]; the code computes 1, the mean of the last 100. *)
Lemma lehmer_mean_forgets_early_successes :
  length (2 :: replicate 100 1) = 101%nat
  /\ lehmer_mean (2 :: replicate 100 1) == 52 # 51
  /\ mean_F (record_generation (AdaptiveParameters_init 100)
               (2 :: replicate 100 1) (replicate 101 0.5)) == 1.
Proof. repeat split; vm_compute; reflexivity. Qed.

Lemma convergence_history_non_increasing_witness :
  non_increasing
    (convergence_history (final_self (@optimize Z lcg_random sphere_cfg) sphere_self sphere_world)).
Proof.
  apply (@convergence_history_non_increasing Z lcg_random sphere_function
           [(-5.0, 5.0); (-5.0, 5.0)] (Some 6%nat) 2 1e-6 (Some 42%nat)
           REFLECT true 100 true 0%Z).
Defined.




Lemma best_fitness_is_minimum_witness :
  fst (@initialize_population Z lcg_random sphere_cfg (sphere_self, sphere_world)) = Ok tt
  /\ best_is_minimum (final_self (@optimize Z lcg_random sphere_cfg) sphere_self sphere_world).
Proof.
  split; [vm_compute; reflexivity|].
  apply (@best_fitness_is_minimum Z lcg_random sphere_cfg).
  vm_compute; reflexivity.
Defined.

(** The run of [sphere_run] ends in its second generation: the population
    has shrunk to five, and rand/2 asks for five individuals other than
    the target.  The history it leaves has the entry of the first
    generation. *)
Example sphere_run_raises :
  fst (@optimize Z lcg_random sphere_cfg (sphere_self, sphere_world)) = Raise ValueError
  /\ length (convergence_history
               (final_self (@optimize Z lcg_random sphere_cfg) sphere_self sphere_world))
     = 1%nat.
Proof. split; vm_compute; reflexivity. Qed.

(** ** Computations that return *)

Ltac bind_ok H := rewrite (St_bind_Ok _ _ _ _ _ H); cbv beta.

Lemma lift_snd_Ok {S W A : Type} (m : St W A) (s : S) (w w' : W) (a : A) :
  m w = (Ok a, w') -> lift_snd m (s, w) = (Ok a, (s, w')).
Proof. intros Hm. unfold lift_snd. simpl. rewrite Hm. reflexivity. Qed.

Lemma lift_snd_Raise {S W A : Type} (m : St W A) (s : S) (w w' : W) (e : exn) :
  m w = (Raise e, w') -> lift_snd m (s, w) = (Raise e, (s, w')).
Proof. intros Hm. unfold lift_snd. simpl. rewrite Hm. reflexivity. Qed.

Lemma st_of_exc_Ok {S A : Type} (m : exc A) (s : S) (a : A) :
  m = Ok a -> st_of_exc m s = (Ok a, s).
Proof. intros ->. reflexivity. Qed.

Lemma st_of_exc_inv {S A : Type} (m : exc A) (s s' : S) (a : A) :
  st_of_exc m s = (Ok a, s') -> m = Ok a /\ s' = s.
Proof. unfold st_of_exc. intros [= -> ->]. split; reflexivity. Qed.

Lemma modify_self_Ok {W : Type} (f : DERun -> DERun) (self : DERun) (w : W) :
  modify_self f (self, w) = (Ok tt, (f self, w)).
Proof. reflexivity. Qed.

Lemma St_bind_inv {S A B : Type} (m : St S A) (k : A -> St S B) (s s' : S) (b : B) :
  (m ≫= k) s = (Ok b, s') -> exists a s1, m s = (Ok a, s1) /\ k a s1 = (Ok b, s').
Proof.
  unfold mbind, St_bind. destruct (m s) as [[a|e] s1]; [|discriminate].
  intros Hk. exists a, s1. split; [reflexivity | exact Hk].
Qed.

Lemma mapM_St_Forall2 {S A B : Type} (f : A -> St S B) (R : A -> B -> Prop)
    (l : list A) (s : S) :
  (forall a s, a ∈ l -> exists b s', f a s = (Ok b, s') /\ R a b) ->
  exists bs s', mapM f l s = (Ok bs, s') /\ Forall2 R l bs.
Proof.
  revert s. induction l as [|x l IH]; intros s Hf; simpl.
  - exists [], s. split; [reflexivity | constructor].
  - destruct (Hf x s) as (b & s1 & Hb & HR); [left|].
    destruct (IH s1) as (bs & s2 & Hbs & HRs).
    { intros a s0 Ha. apply Hf. right. exact Ha. }
    exists (b :: bs), s2. split; [|constructor; assumption].
    rewrite (St_bind_Ok _ _ _ _ _ Hb). rewrite (St_bind_Ok _ _ _ _ _ Hbs). reflexivity.
Qed.

Lemma mapM_St_inv {S A B : Type} (f : A -> St S B) (R : A -> B -> Prop)
    (l : list A) (s s' : S) (bs : list B) :
  (forall a s b s', a ∈ l -> f a s = (Ok b, s') -> R a b) ->
  mapM f l s = (Ok bs, s') -> Forall2 R l bs.
Proof.
  revert s s' bs. induction l as [|x l IH]; intros s s' bs Hf; simpl.
  - intros [= <- _]. constructor.
  - intros Hm. apply St_bind_inv in Hm as (b & s1 & Hb & Hm).
    apply St_bind_inv in Hm as (bs' & s2 & Hbs & Hm).
    injection Hm as <- _. constructor.
    + eapply Hf; [left | exact Hb].
    + eapply IH; [|exact Hbs]. intros a s0 b0 s0' Ha. apply Hf. right. exact Ha.
Qed.

(** ** adaptive_de.py: [handle_boundary] *)

Lemma np_clip_within (x lo hi : Q) : lo <= hi -> lo <= np_clip x lo hi /\ np_clip x lo hi <= hi.
Proof.
  intros Hb. unfold np_clip. split.
  - apply Q.min_glb; [apply Q.le_max_r | exact Hb].
  - apply Q.le_min_r.
Qed.

Lemma np_clip_inside (x lo hi : Q) : lo <= x -> x <= hi -> np_clip x lo hi = x.
Proof.
  intros Hl Hh. unfold np_clip, Qmax, Qmin, GenericMinMax.gmax, GenericMinMax.gmin.
  destruct (x ?= lo) eqn:E1.
  - destruct (x ?= hi) eqn:E2; try reflexivity.
    apply Qgt_alt in E2. lra.
  - apply Qlt_alt in E1. lra.
  - destruct (x ?= hi) eqn:E2; try reflexivity.
    apply Qgt_alt in E2. lra.
Qed.

Lemma reflect1_within (x lo hi : Q) : lo <= hi -> lo <= reflect1 x lo hi /\ reflect1 x lo hi <= hi.
Proof.
  intros Hb. unfold reflect1.
  destruct (Qltb x lo) eqn:E1.
  - apply Qltb_lt in E1. split; [apply Q.min_glb; lra | apply Q.le_min_r].
  - apply Qltb_ge in E1. destruct (Qltb hi x) eqn:E2.
    + apply Qltb_lt in E2. split; [apply Q.le_max_r | apply Q.max_lub; lra].
    + apply Qltb_ge in E2. split; assumption.
Qed.

Lemma reflect1_inside (x lo hi : Q) : lo <= x -> x <= hi -> reflect1 x lo hi = x.
Proof.
  intros Hl Hh. unfold reflect1.
  replace (Qltb x lo) with false by (symmetry; apply Qltb_ge; exact Hl).
  replace (Qltb hi x) with false by (symmetry; apply Qltb_ge; exact Hh).
  reflexivity.
Qed.

Lemma midpoint1_within (x lo hi : Q) : lo <= hi -> lo <= midpoint1 x lo hi /\ midpoint1 x lo hi <= hi.
Proof.
  intros Hb. unfold midpoint1.
  destruct (Qltb x lo) eqn:E1; simpl.
  - split; [apply Qle_shift_div_l | apply Qle_shift_div_r]; lra.
  - apply Qltb_ge in E1. destruct (Qltb hi x) eqn:E2.
    + split; [apply Qle_shift_div_l | apply Qle_shift_div_r]; lra.
    + apply Qltb_ge in E2. split; assumption.
Qed.

Lemma midpoint1_inside (x lo hi : Q) : lo <= x -> x <= hi -> midpoint1 x lo hi = x.
Proof.
  intros Hl Hh. unfold midpoint1.
  replace (Qltb x lo) with false by (symmetry; apply Qltb_ge; exact Hl).
  replace (Qltb hi x) with false by (symmetry; apply Qltb_ge; exact Hh).
  reflexivity.
Qed.

(** A map over the dimensions that puts every entry between its bounds. *)
Lemma fmap_dims_within (g : Q -> Q -> Q -> Q) (x : arr) (bs : list (Q * Q)) :
  length x = length bs ->
  Forall (fun b => fst b <= snd b) bs ->
  (forall v lo hi, lo <= hi -> lo <= g v lo hi /\ g v lo hi <= hi) ->
  Forall2 (fun xi b => fst b <= xi /\ xi <= snd b)
    ((fun d => g (fst d) (fst (snd d)) (snd (snd d))) <$> zip x bs) bs.
Proof.
  intros Hlen Hbs Hg. revert x Hlen.
  induction Hbs as [|b bs Hb Hbs IH]; intros [|v x] Hlen; try discriminate; simpl.
  - constructor.
  - constructor; [apply Hg; exact Hb | apply IH; simpl in Hlen; lia].
Qed.

Lemma fmap_dims_inside (g : Q -> Q -> Q -> Q) (x : arr) (bs : list (Q * Q)) :
  (forall v lo hi, lo <= v -> v <= hi -> g v lo hi = v) ->
  Forall2 (fun xi b => fst b <= xi /\ xi <= snd b) x bs ->
  (fun d => g (fst d) (fst (snd d)) (snd (snd d))) <$> zip x bs = x.
Proof.
  intros Hg Hx. induction Hx as [|v b x bs [Hl Hh] Hx IH]; csimpl; [reflexivity|].
  rewrite IH. f_equal. destruct b as [lo hi]. apply Hg; assumption.
Qed.

Section Boundary.
Context {W : Type} `{NpRandomRange W}.

Lemma reinitialize1_within (x lo hi : Q) (w : W) :
  lo <= hi ->
  exists y w', reinitialize1 x lo hi w = (Ok y, w') /\ lo <= y /\ y <= hi.
Proof.
  intros Hb. unfold reinitialize1.
  destruct (Qltb x lo) eqn:E1; simpl.
  - apply random_uniform_range. exact Hb.
  - apply Qltb_ge in E1. destruct (Qltb hi x) eqn:E2.
    + apply random_uniform_range. exact Hb.
    + apply Qltb_ge in E2. exists x, w. repeat split; assumption.
Qed.

Lemma reinitialize_within (x : arr) (bs : list (Q * Q)) (w : W) :
  length x = length bs ->
  Forall (fun b => fst b <= snd b) bs ->
  exists y w',
    mapM (fun d => reinitialize1 (fst d) (fst (snd d)) (snd (snd d))) (zip x bs) w = (Ok y, w')
    /\ Forall2 (fun xi b => fst b <= xi /\ xi <= snd b) y bs.
Proof.
  intros Hlen Hbs. revert x w Hlen.
  induction Hbs as [|b bs Hb Hbs IH]; intros [|v x] w Hlen; try discriminate; simpl.
  - exists [], w. split; [reflexivity | constructor].
  - destruct (reinitialize1_within v (fst b) (snd b) w Hb) as (y & w1 & Hy & Hl & Hh).
    destruct (IH x w1) as (ys & w2 & Hys & Hall); [simpl in Hlen; lia|].
    exists (y :: ys), w2. split; [|constructor; [split|]; assumption].
    rewrite (St_bind_Ok _ _ _ _ _ Hy). rewrite (St_bind_Ok _ _ _ _ _ Hys). reflexivity.
Qed.

Lemma reinitialize_inside (x : arr) (bs : list (Q * Q)) (w : W) :
  Forall2 (fun xi b => fst b <= xi /\ xi <= snd b) x bs ->
  mapM (fun d => reinitialize1 (fst d) (fst (snd d)) (snd (snd d))) (zip x bs) w = (Ok x, w).
Proof.
  intros Hx. induction Hx as [|v b x bs [Hl Hh] Hx IH]; simpl; [reflexivity|].
  assert (reinitialize1 v (fst b) (snd b) w = (Ok v, w)) as Hv.
  { unfold reinitialize1.
    replace (Qltb v (fst b)) with false by (symmetry; apply Qltb_ge; exact Hl).
    replace (Qltb (snd b) v) with false by (symmetry; apply Qltb_ge; exact Hh).
    reflexivity. }
  rewrite (St_bind_Ok _ _ _ _ _ Hv). rewrite (St_bind_Ok _ _ _ _ _ IH). reflexivity.
Qed.

(** What [handle_boundary] returns, for an individual of [dim] entries. *)
Lemma handle_boundary_spec (cfg : DEConfig W) (individual : arr) (w : W) :
  proper_bounds cfg ->
  length individual = dim cfg ->
  exists y w',
    handle_boundary cfg individual w = (Ok y, w')
    /\ within_bounds cfg y
    /\ (within_bounds cfg individual -> y = individual /\ w' = w)
    /\ (boundary_handling cfg <> REINITIALIZE -> w' = w).
Proof.
  intros (Hlo & Hhi & Hbs) Hlen. unfold handle_boundary, within_bounds.
  assert (length individual = length (zip (lower_bounds cfg) (upper_bounds cfg))) as Hz.
  { rewrite length_zip. lia. }
  destruct (boundary_handling cfg).
  - eexists _, w. split; [reflexivity|]. split; [|split; [|reflexivity]].
    + apply (fmap_dims_within np_clip _ _ Hz Hbs). intros v lo hi. apply np_clip_within.
    + intros Hin. split; [|reflexivity]. apply (fmap_dims_inside np_clip); [|exact Hin].
      intros v lo hi. apply np_clip_inside.
  - eexists _, w. split; [reflexivity|]. split; [|split; [|reflexivity]].
    + apply (fmap_dims_within reflect1 _ _ Hz Hbs). intros v lo hi. apply reflect1_within.
    + intros Hin. split; [|reflexivity]. apply (fmap_dims_inside reflect1); [|exact Hin].
      intros v lo hi. apply reflect1_inside.
  - destruct (reinitialize_within individual _ w Hz Hbs) as (y & w' & Hy & Hall).
    exists y, w'. split; [exact Hy|]. split; [exact Hall|]. split; [|congruence].
    intros Hin. rewrite (reinitialize_inside _ _ w Hin) in Hy. injection Hy as <- <-.
    split; reflexivity.
  - eexists _, w. split; [reflexivity|]. split; [|split; [|reflexivity]].
    + apply (fmap_dims_within midpoint1 _ _ Hz Hbs). intros v lo hi. apply midpoint1_within.
    + intros Hin. split; [|reflexivity]. apply (fmap_dims_inside midpoint1); [|exact Hin].
      intros v lo hi. apply midpoint1_inside.
Qed.

(** X1: [handle_boundary] repairs every individual.  For bounds with
    [lower <= upper] in every dimension and an individual of [dim]
    entries, whatever the strategy (clip, reflect, reinitialize, midpoint)
    the call returns an individual of [dim] entries that lies within the
    bounds; an individual that is within the bounds already is returned
    as it is, with no random number drawn; only the reinitialize strategy
    draws random numbers. *)
Theorem handle_boundary_within_bounds (cfg : DEConfig W) (individual : arr) (w : W) :
  proper_bounds cfg ->
  length individual = dim cfg ->
  exists y w',
    handle_boundary cfg individual w = (Ok y, w')
    /\ length y = dim cfg
    /\ within_bounds cfg y
    /\ (within_bounds cfg individual -> y = individual /\ w' = w)
    /\ (boundary_handling cfg <> REINITIALIZE -> w' = w).
Proof.
  intros Hb Hlen.
  destruct (handle_boundary_spec cfg individual w Hb Hlen) as (y & w' & Hy & Hin & Hid & Hw).
  exists y, w'. split; [exact Hy|]. split; [|exact (conj Hin (conj Hid Hw))].
  destruct Hb as (Hlo & Hhi & _). apply Forall2_length in Hin.
  rewrite Hin, length_zip. lia.
Qed.

End Boundary.

(** ** adaptive_de.py: [AdaptiveParameters.generate_parameters] *)

Section Parameters.
Context {W : Type} `{NpRandomRange W}.

(** X2: the pair [generate_parameters] returns.  With standard deviations
    that are not negative the call returns, the crossover rate is in
    [[0, 1]] and the scale factor is positive and at most 2: a scale
    factor the clipping leaves at 0 is drawn again, uniformly in
    [[0.1, 0.9]]. *)
Theorem generate_parameters_ranges (ap : AdaptiveParameters) (w : W) :
  0 <= std_F ap ->
  0 <= std_CR ap ->
  exists F CR w',
    generate_parameters ap w = (Ok (F, CR), w')
    /\ 0 < F /\ F <= 2 /\ 0 <= CR /\ CR <= 1
    /\ (forall f w1, random_normal (mean_F ap) (std_F ap) w = (Ok f, w1) ->
        (0 < f -> F = np_clip f 0.0 2.0) /\ (f <= 0 -> 0.1 <= F /\ F <= 0.9)).
Proof.
  intros HF HCR. unfold generate_parameters.
  destruct (random_normal_returns (mean_F ap) (std_F ap) w HF) as (f & w1 & Hf).
  destruct (random_normal_returns (mean_CR ap) (std_CR ap) w1 HCR) as (cr & w2 & Hcr).
  rewrite (St_bind_Ok _ _ _ _ _ Hf). rewrite (St_bind_Ok _ _ _ _ _ Hcr).
  destruct (np_clip_within cr 0.0 1.0 ltac:(lra)) as [Hc0 Hc1].
  destruct (np_clip_within f 0.0 2.0 ltac:(lra)) as [Hf0 Hf2].
  destruct (Qle_bool (np_clip f 0.0 2.0) 0) eqn:E.
  - apply Qle_bool_iff in E.
    destruct (random_uniform_range 0.1 0.9 w2 ltac:(lra)) as (u & w3 & Hu & Hu1 & Hu9).
    rewrite (St_bind_Ok _ _ _ _ _ Hu). exists u, (np_clip cr 0.0 1.0), w3.
    split; [reflexivity|].
    refine (conj _ (conj _ (conj _ (conj _ _)))); [lra | lra | lra | lra |].
    intros f' w1' Hf'. rewrite Hf in Hf'. injection Hf' as <- _.
    split; [|intros _; split; assumption].
    intros Hpos. exfalso.
    assert (0 < np_clip f 0.0 2.0); [|lra].
    unfold np_clip. apply Q.min_glb_lt; [|lra].
    apply Qlt_le_trans with f; [exact Hpos | apply Q.le_max_l].
  - apply Qle_bool_false in E.
    exists (np_clip f 0.0 2.0), (np_clip cr 0.0 1.0), w2.
    split; [reflexivity|].
    refine (conj _ (conj _ (conj _ (conj _ _)))); [lra | lra | lra | lra |].
    intros f' w1' Hf'. rewrite Hf in Hf'. injection Hf' as <- _.
    split; [reflexivity|].
    intros Hneg. exfalso.
    assert (np_clip f 0.0 2.0 <= 0); [|lra].
    unfold np_clip. apply Qle_trans with (Qmax f 0.0); [apply Q.le_min_l|].
    apply Q.max_lub; lra.
Qed.

End Parameters.

(** ** adaptive_de.py: [StrategySelector] *)

Lemma MutationStrategy_eqb_eq (a b : MutationStrategy) :
  MutationStrategy_eqb a b = true <-> a = b.
Proof. destruct a, b; simpl; split; congruence. Qed.

Lemma MutationStrategy_eqb_refl (a : MutationStrategy) : MutationStrategy_eqb a a = true.
Proof. destruct a; reflexivity. Qed.

Lemma sdict_get_set_eq {V : Type} (d : sdict V) (k : MutationStrategy) (v : V) :
  sdict_get (sdict_set d k v) k = Ok v.
Proof.
  induction d as [|[k' v'] d IH]; simpl.
  - rewrite MutationStrategy_eqb_refl. reflexivity.
  - destruct (MutationStrategy_eqb k' k) eqn:E; simpl; rewrite E; [reflexivity | exact IH].
Qed.

Lemma sdict_get_set_ne {V : Type} (d : sdict V) (k k' : MutationStrategy) (v : V) :
  k <> k' -> sdict_get (sdict_set d k v) k' = sdict_get d k'.
Proof.
  intros Hne. induction d as [|[k0 v0] d IH]; simpl.
  - destruct (MutationStrategy_eqb k k') eqn:E; [|reflexivity].
    apply MutationStrategy_eqb_eq in E. contradiction.
  - destruct (MutationStrategy_eqb k0 k) eqn:E; simpl.
    + apply MutationStrategy_eqb_eq in E. subst k0.
      destruct (MutationStrategy_eqb k k') eqn:E'; [|reflexivity].
      apply MutationStrategy_eqb_eq in E'. contradiction.
    + destruct (MutationStrategy_eqb k0 k'); [reflexivity | exact IH].
Qed.

Lemma sdict_get_raises {V : Type} (d : sdict V) (k : MutationStrategy) (e : exn) :
  sdict_get d k = Raise e -> e = KeyError.
Proof.
  induction d as [|[k' v'] d IH]; simpl; [congruence|].
  destruct (MutationStrategy_eqb k' k); [discriminate | exact IH].
Qed.

(** The dict [{strategy: v for strategy in strategies}]. *)
Lemma sdict_init_get {V : Type} (v : V) (strategies : list MutationStrategy)
    (d : sdict V) (s : MutationStrategy) :
  s ∈ strategies \/ sdict_get d s = Ok v ->
  sdict_get (fold_left (fun d s => sdict_set d s v) strategies d) s = Ok v.
Proof.
  revert d. induction strategies as [|s' strategies IH]; intros d Hs; simpl.
  - destruct Hs as [Hs|Hs]; [inversion Hs | exact Hs].
  - apply IH. destruct (decide (s' = s)) as [->|Hne].
    + right. apply sdict_get_set_eq.
    + destruct Hs as [Hs|Hs].
      * left. apply elem_of_cons in Hs as [->|Hs]; [contradiction | exact Hs].
      * right. rewrite sdict_get_set_ne by exact Hne. exact Hs.
Qed.

Lemma deque_append_length {A : Type} (maxlen : nat) (d : list A) (x : A) :
  (0 < maxlen)%nat -> (length d <= maxlen)%nat ->
  (length (deque_append maxlen d x) <= maxlen)%nat.
Proof.
  intros Hm Hd. unfold deque_append. rewrite length_drop, length_app. simpl. lia.
Qed.

Lemma deque_append_Forall {A : Type} (P : A -> Prop) (maxlen : nat) (d : list A) (x : A) :
  Forall P d -> P x -> Forall P (deque_append maxlen d x).
Proof.
  intros Hd Hx. unfold deque_append. apply Forall_drop. apply Forall_app. split; [exact Hd|].
  constructor; [exact Hx | constructor].
Qed.

Lemma np_sum_nonneg (l : list Q) : Forall (fun r => 0 <= r) l -> 0 <= np_sum l.
Proof.
  induction 1 as [|r l Hr Hl IH]; simpl; lra.
Qed.

Lemma np_sum_pos (l : list Q) : l <> [] -> Forall (fun r => 0 < r) l -> 0 < np_sum l.
Proof.
  intros Hne Hl. destruct Hl as [|r l Hr Hl]; [contradiction|]. simpl.
  assert (0 <= np_sum l).
  { apply (np_sum_nonneg l). eapply Forall_impl; [exact Hl|]. simpl. intros; lra. }
  lra.
Qed.

Lemma np_mean_unit (l : list Q) :
  l <> [] -> Forall (fun r => r == 0 \/ r == 1) l -> 0 <= np_mean l /\ np_mean l <= 1.
Proof.
  intros Hne Hl. unfold np_mean.
  assert (0 < inject_Z (Z.of_nat (length l))) as Hlen.
  { destruct l; [contradiction|]. simpl length.
    change 0 with (inject_Z 0). rewrite <- Zlt_Qlt. lia. }
  assert (0 <= np_sum l /\ np_sum l <= inject_Z (Z.of_nat (length l))) as [H0 H1].
  { clear Hne Hlen. induction Hl as [|r l Hr Hl IH].
    - split; cbv; discriminate.
    - change (np_sum (r :: l)) with (r + np_sum l).
      replace (Z.of_nat (length (r :: l))) with (1 + Z.of_nat (length l))%Z
        by (simpl length; lia).
      rewrite inject_Z_plus. change (inject_Z 1) with 1.
      destruct Hr as [Hr|Hr]; rewrite Hr; lra. }
  split.
  - apply Qle_shift_div_l; [exact Hlen | lra].
  - apply Qle_shift_div_r; [exact Hlen | lra].
Qed.

Lemma np_sum_scale (l : list Q) (t : Q) :
  np_sum ((fun w => w / t) <$> l) == np_sum l / t.
Proof.
  induction l as [|x l IH]; simpl.
  - unfold Qdiv. lra.
  - rewrite IH. unfold Qdiv. lra.
Qed.

Lemma strategy_weight_pos (self : StrategySelector) (s : MutationStrategy) :
  selector_entry_ok self s -> exists wt, strategy_weight self s = Ok wt /\ 0 < wt.
Proof.
  intros (rate & recent & uses & Hrate & Hr0 & Hr1 & Hrecent & Hlen & Hall & _).
  unfold strategy_weight. rewrite Hrecent. simpl. rewrite Hrate. simpl.
  eexists. split; [reflexivity|].
  destruct recent as [|r recent]; [lra|].
  destruct (np_mean_unit (r :: recent) ltac:(discriminate) Hall) as [Hm _]. lra.
Qed.

Lemma mapM_exc_Forall2 {A B : Type} (f : A -> exc B) (R : A -> B -> Prop) (l : list A) :
  Forall (fun a => exists b, f a = Ok b /\ R a b) l ->
  exists bs, mapM f l = Ok bs /\ Forall2 R l bs.
Proof.
  induction 1 as [|a l (b & Hb & HR) Hl (bs & Hbs & HRs)]; simpl.
  - exists []. split; [reflexivity | constructor].
  - exists (b :: bs). rewrite Hb. simpl. rewrite Hbs. simpl.
    split; [reflexivity | constructor; assumption].
Qed.

Lemma update_strategy_performance_ok (self : StrategySelector)
    (s : MutationStrategy) (success : bool) :
  selector_ok self -> selector_entry_ok self s ->
  exists self',
    update_strategy_performance self s success = Ok self'
    /\ selector_ok self'
    /\ strategies self' = strategies self.
Proof.
  intros Hall (rate & recent & uses & Hrate & Hr0 & Hr1 & Hrecent & Hlen & Hrec & Huses & Hu).
  unfold update_strategy_performance. rewrite Huses. simpl. rewrite Hrecent. simpl.
  rewrite Hrate. simpl. eexists. split; [reflexivity|]. split; [|reflexivity].
  unfold selector_ok. simpl. eapply Forall_impl; [exact Hall|].
  intros s' (rate' & recent' & uses' & Hrate' & Hr0' & Hr1' & Hrecent' & Hlen' & Hrec' & Huses' & Hu').
  unfold selector_entry_ok. simpl. destruct (decide (s = s')) as [<-|Hne].
  - rewrite !sdict_get_set_eq. eexists _, _, _. split; [reflexivity|].
    split; [destruct success; lra|]. split; [destruct success; lra|].
    split; [reflexivity|].
    split; [apply deque_append_length; [lia | exact Hlen]|].
    split; [|split; [reflexivity | lia]].
    apply deque_append_Forall; [exact Hrec|].
    destruct success; [right | left]; reflexivity.
  - rewrite !sdict_get_set_ne by exact Hne. exists rate', recent', uses'.
    repeat split; assumption.
Qed.

Lemma StrategySelector_init_ok (strategies0 : list MutationStrategy) :
  selector_ok (StrategySelector_init strategies0).
Proof.
  unfold selector_ok. simpl. apply Forall_forall. intros s' Hs'.
  exists 1.0, [], 1%nat. unfold StrategySelector_init. simpl.
  rewrite !sdict_init_get by (left; exact Hs').
  repeat split; try reflexivity; try lra; try lia. constructor.
Qed.

(** X3: the selector's bookkeeping.  The selector [__init__] makes has,
    for each of its strategies, a success rate in (0, 1] (it starts at
    1.0), at most ten recent outcomes and a use count; an update for one
    of its strategies returns and keeps all of that, raising the
    strategy's use count by one and leaving its list of strategies as it
    was; an update for a strategy the selector has no entry for raises
    KeyError. *)
Theorem update_strategy_performance_keeps_rates
    (strategies0 : list MutationStrategy) (self : StrategySelector)
    (s : MutationStrategy) (success : bool) :
  selector_ok (StrategySelector_init strategies0)
  /\ (selector_ok self -> s ∈ strategies self ->
      exists self' uses,
        update_strategy_performance self s success = Ok self'
        /\ selector_ok self'
        /\ strategies self' = strategies self
        /\ sdict_get (total_uses self) s = Ok uses
        /\ sdict_get (total_uses self') s = Ok (uses + 1)%nat)
  /\ (sdict_get (total_uses self) s = Raise KeyError ->
      update_strategy_performance self s success = Raise KeyError).
Proof.
  split; [apply StrategySelector_init_ok|split].
  - intros Hok Hs.
    assert (selector_entry_ok self s) as He.
    { unfold selector_ok in Hok. rewrite Forall_forall in Hok. apply Hok. exact Hs. }
    destruct (update_strategy_performance_ok self s success Hok He) as (self' & Hup & Hok' & Hst).
    destruct He as (rate & recent & uses & Hrate & _ & _ & Hrecent & _ & _ & Huses & _).
    exists self', uses. refine (conj Hup (conj Hok' (conj Hst (conj Huses _)))).
    unfold update_strategy_performance in Hup. rewrite Huses, Hrecent, Hrate in Hup.
    simpl in Hup. injection Hup as <-. simpl. apply sdict_get_set_eq.
  - intros Hk. unfold update_strategy_performance. rewrite Hk. reflexivity.
Qed.

Section Selector.
Context {W : Type} `{NpRandom W}.

(** X4: the weights [select_strategy] hands to [np.random.choice].  For a
    selector with entries as above and at least one strategy, every weight
    [0.7 * overall_rate + 0.3 * recent_success_rate] is positive, so the
    normalisation divides by a positive sum, and the normalised weights
    are positive, one for each strategy, and sum to 1. *)
Theorem select_strategy_probabilities (self : StrategySelector) (w : W) :
  selector_ok self ->
  strategies self <> [] ->
  exists weights : list Q,
    mapM (strategy_weight self) (strategies self) = Ok weights
    /\ 0 < np_sum weights
    /\ length weights = length (strategies self)
    /\ Forall (fun p => 0 < p) ((fun x => x / np_sum weights) <$> weights)
    /\ np_sum ((fun x => x / np_sum weights) <$> weights) == 1
    /\ select_strategy self w
       = random_choice_p (strategies self) ((fun x => x / np_sum weights) <$> weights) w.
Proof.
  intros Hok Hne.
  destruct (mapM_exc_Forall2 (strategy_weight self) (fun _ wt => 0 < wt) (strategies self))
    as (weights & Hw & Hpos).
  { eapply Forall_impl; [exact Hok|]. intros s Hs. apply strategy_weight_pos. exact Hs. }
  assert (Forall (fun wt => 0 < wt) weights) as Hall.
  { clear -Hpos. induction Hpos; constructor; assumption. }
  assert (weights <> []) as Hwne.
  { intros ->. apply Forall2_length in Hpos. destruct (strategies self); [contradiction|discriminate]. }
  pose proof (np_sum_pos weights Hwne Hall) as Hsum.
  exists weights. split; [exact Hw|]. split; [exact Hsum|].
  split; [symmetry; eapply Forall2_length; exact Hpos|].
  split; [|split].
  - apply Forall_fmap. eapply Forall_impl; [exact Hall|]. simpl.
    intros x Hx. apply Qlt_shift_div_l; lra.
  - rewrite np_sum_scale. field. lra.
  - unfold select_strategy. rewrite Hw. reflexivity.
Qed.

End Selector.

(** ** adaptive_de.py: [mutate] *)

Lemma filter_ne_length (t : nat) (l : list nat) :
  NoDup l -> (length l <= S (length (List.filter (fun i => negb (i =? t)%nat) l)))%nat.
Proof.
  induction 1 as [|x l Hx Hl IH]; simpl; [lia|].
  destruct (x =? t)%nat eqn:E; simpl; [|lia].
  apply Nat.eqb_eq in E. subst x.
  assert (List.filter (fun i => negb (i =? t)%nat) l = l) as ->; [|lia].
  clear IH Hl. induction l as [|y l IH]; simpl; [reflexivity|].
  destruct (y =? t)%nat eqn:E; simpl.
  - apply Nat.eqb_eq in E. subst y. exfalso. apply Hx. left.
  - f_equal. apply IH. intros Hin. apply Hx. right. exact Hin.
Qed.

Lemma filter_ne_length_in (t : nat) (l : list nat) :
  NoDup l -> t ∈ l -> length l = S (length (List.filter (fun i => negb (i =? t)%nat) l)).
Proof.
  induction 1 as [|x l Hx Hl IH]; intros Ht; simpl; [inversion Ht|].
  destruct (x =? t)%nat eqn:E; simpl.
  - apply Nat.eqb_eq in E. subst x. f_equal.
    clear IH Hl Ht. induction l as [|y l IH]; simpl; [reflexivity|].
    destruct (y =? t)%nat eqn:E; simpl.
    + apply Nat.eqb_eq in E. subst y. exfalso. apply Hx. left.
    + f_equal. apply IH. intros Hin. apply Hx. right. exact Hin.
  - f_equal. apply IH. apply elem_of_cons in Ht as [->|Ht]; [|exact Ht].
    apply Nat.eqb_neq in E. contradiction.
Qed.

Lemma NoDup_List_filter (f : nat -> bool) (l : list nat) : NoDup l -> NoDup (List.filter f l).
Proof.
  induction 1 as [|x l Hx Hl IH]; simpl; [constructor|].
  destruct (f x); [|exact IH]. constructor; [|exact IH].
  intros Hin. apply Hx. apply list_elem_of_In in Hin. apply filter_In in Hin as [Hin _].
  apply list_elem_of_In. exact Hin.
Qed.

(** [[i for i in range(pop_size) if i != target_idx]]. *)
Lemma candidates_one_length (n target : nat) :
  (target < n)%nat ->
  length (List.filter (fun i => negb (i =? target)%nat) (seq 0 n)) = (n - 1)%nat.
Proof.
  intros Ht.
  pose proof (filter_ne_length_in target (seq 0 n) (NoDup_seq 0 n)) as Hl.
  rewrite length_seq in Hl. rewrite elem_of_seq in Hl. specialize (Hl ltac:(lia)). lia.
Qed.

(** [[i for i in range(pop_size) if i != target_idx and i != self.best_idx]]. *)
Lemma candidates_two_length (n target best : nat) :
  (n - 2 <= length (List.filter (fun i => negb (i =? target)%nat && negb (i =? best)%nat)
                      (seq 0 n)))%nat.
Proof.
  assert (forall l, List.filter (fun i => negb (i =? target)%nat && negb (i =? best)%nat) l
                    = List.filter (fun i => negb (i =? best)%nat)
                        (List.filter (fun i => negb (i =? target)%nat) l)) as ->.
  { induction l as [|x l IH]; simpl; [reflexivity|].
    destruct (x =? target)%nat; simpl; [exact IH|].
    destruct (x =? best)%nat; simpl; [exact IH | f_equal; exact IH]. }
  pose proof (filter_ne_length target (seq 0 n) (NoDup_seq 0 n)) as H1.
  pose proof (filter_ne_length best _ (NoDup_List_filter (fun i => negb (i =? target)%nat) _
                                         (NoDup_seq 0 n))) as H2.
  rewrite length_seq in H1. lia.
Qed.

Lemma candidates_valid (f : nat -> bool) (n r : nat) :
  r ∈ List.filter f (seq 0 n) -> (r < n)%nat.
Proof.
  intros Hr. apply list_elem_of_In in Hr. apply filter_In in Hr as [Hr _].
  apply in_seq in Hr. lia.
Qed.

Lemma arr_add_length (a b : arr) (d : nat) :
  length a = d -> length b = d -> length (arr_add a b) = d.
Proof. intros Ha Hb. unfold arr_add. rewrite length_zip_with. lia. Qed.

Lemma arr_sub_length (a b : arr) (d : nat) :
  length a = d -> length b = d -> length (arr_sub a b) = d.
Proof. intros Ha Hb. unfold arr_sub. rewrite length_zip_with. lia. Qed.

Lemma arr_scale_length (k : Q) (a : arr) (d : nat) : length a = d -> length (arr_scale k a) = d.
Proof. intros Ha. unfold arr_scale. rewrite length_fmap. exact Ha. Qed.

Section Mutate.
Context {W : Type} `{NpRandomChoice W}.

Lemma population_row (population : list arr) (d r : nat) (w : W) :
  Forall (fun x => length x = d) population ->
  (r < length population)%nat ->
  exists x, (st_of_exc (arr_get population r) : St W arr) w = (Ok x, w) /\ length x = d.
Proof.
  intros Hrows Hr. destruct (lookup_lt_is_Some_2 population r Hr) as [x Hx].
  exists x. unfold st_of_exc. rewrite (arr_get_Some _ _ _ Hx). split; [reflexivity|].
  rewrite Forall_forall in Hrows. apply Hrows. eapply list_elem_of_lookup_2. exact Hx.
Qed.

Lemma mutate_returns (population : list arr) (best_idx target_idx : nat)
    (strategy : MutationStrategy) (F : Q) (w : W) (d : nat) :
  Forall (fun x => length x = d) population ->
  (target_idx < length population)%nat ->
  (best_idx < length population)%nat ->
  (individuals_needed strategy <= length population)%nat ->
  exists mutant w',
    mutate population best_idx target_idx strategy F w = (Ok mutant, w')
    /\ length mutant = d.
Proof.
  intros Hrows Ht Hb Hn. unfold mutate.
  pose proof (candidates_one_length (length population) target_idx Ht) as H1.
  pose proof (candidates_two_length (length population) target_idx best_idx) as H2.
  set (row := fun i => (st_of_exc (arr_get population i) : St W arr)).
  assert (forall r w0, (r < length population)%nat ->
            exists x, row r w0 = (Ok x, w0) /\ length x = d) as Hrow.
  { intros r w0 Hr. apply (population_row population d r w0 Hrows Hr). }
  set (c1 := List.filter (fun i => negb (i =? target_idx)%nat) (seq 0 (length population))) in *.
  set (c2 := List.filter (fun i => negb (i =? target_idx)%nat && negb (i =? best_idx)%nat)
               (seq 0 (length population))) in *.
  destruct strategy; simpl in Hn.
  - destruct (random_choice_sample c1 3 w ltac:(lia)) as (rs & w' & Hrs & Hlen & Hin).
    rewrite (St_bind_Ok _ _ _ _ _ Hrs).
    destruct rs as [|r1 [|r2 [|r3 [|]]]]; try discriminate.
    apply Forall_cons in Hin as [Hi1 Hin]. apply Forall_cons in Hin as [Hi2 Hin].
    apply Forall_cons in Hin as [Hi3 _].
    apply candidates_valid in Hi1, Hi2, Hi3.
    destruct (Hrow r1 w' Hi1) as (x1 & Hx1 & Hl1). destruct (Hrow r2 w' Hi2) as (x2 & Hx2 & Hl2).
    destruct (Hrow r3 w' Hi3) as (x3 & Hx3 & Hl3).
    rewrite (St_bind_Ok _ _ _ _ _ Hx1), (St_bind_Ok _ _ _ _ _ Hx2), (St_bind_Ok _ _ _ _ _ Hx3).
    eexists _, w'. split; [reflexivity|].
    apply arr_add_length; [exact Hl1|]. apply arr_scale_length. apply arr_sub_length; assumption.
  - destruct (random_choice_sample c2 2 w ltac:(lia)) as (rs & w' & Hrs & Hlen & Hin).
    rewrite (St_bind_Ok _ _ _ _ _ Hrs).
    destruct rs as [|r1 [|r2 [|]]]; try discriminate.
    apply Forall_cons in Hin as [Hi1 Hin]. apply Forall_cons in Hin as [Hi2 _].
    apply candidates_valid in Hi1, Hi2.
    destruct (Hrow best_idx w' Hb) as (xb & Hxb & Hlb).
    destruct (Hrow r1 w' Hi1) as (x1 & Hx1 & Hl1). destruct (Hrow r2 w' Hi2) as (x2 & Hx2 & Hl2).
    rewrite (St_bind_Ok _ _ _ _ _ Hxb), (St_bind_Ok _ _ _ _ _ Hx1), (St_bind_Ok _ _ _ _ _ Hx2).
    eexists _, w'. split; [reflexivity|].
    apply arr_add_length; [exact Hlb|]. apply arr_scale_length. apply arr_sub_length; assumption.
  - destruct (random_choice_sample c2 2 w ltac:(lia)) as (rs & w' & Hrs & Hlen & Hin).
    rewrite (St_bind_Ok _ _ _ _ _ Hrs).
    destruct rs as [|r1 [|r2 [|]]]; try discriminate.
    apply Forall_cons in Hin as [Hi1 Hin]. apply Forall_cons in Hin as [Hi2 _].
    apply candidates_valid in Hi1, Hi2.
    destruct (Hrow target_idx w' Ht) as (xi & Hxi & Hli).
    destruct (Hrow best_idx w' Hb) as (xb & Hxb & Hlb).
    destruct (Hrow r1 w' Hi1) as (x1 & Hx1 & Hl1). destruct (Hrow r2 w' Hi2) as (x2 & Hx2 & Hl2).
    rewrite (St_bind_Ok _ _ _ _ _ Hxi), (St_bind_Ok _ _ _ _ _ Hxb),
      (St_bind_Ok _ _ _ _ _ Hx1), (St_bind_Ok _ _ _ _ _ Hx2).
    eexists _, w'. split; [reflexivity|].
    apply arr_add_length.
    + apply arr_add_length; [exact Hli|]. apply arr_scale_length. apply arr_sub_length; assumption.
    + apply arr_scale_length. apply arr_sub_length; assumption.
  - destruct (random_choice_sample c1 5 w ltac:(lia)) as (rs & w' & Hrs & Hlen & Hin).
    rewrite (St_bind_Ok _ _ _ _ _ Hrs).
    destruct rs as [|r1 [|r2 [|r3 [|r4 [|r5 [|]]]]]]; try discriminate.
    apply Forall_cons in Hin as [Hi1 Hin]. apply Forall_cons in Hin as [Hi2 Hin].
    apply Forall_cons in Hin as [Hi3 Hin]. apply Forall_cons in Hin as [Hi4 Hin].
    apply Forall_cons in Hin as [Hi5 _].
    apply candidates_valid in Hi1, Hi2, Hi3, Hi4, Hi5.
    destruct (Hrow r1 w' Hi1) as (x1 & Hx1 & Hl1). destruct (Hrow r2 w' Hi2) as (x2 & Hx2 & Hl2).
    destruct (Hrow r3 w' Hi3) as (x3 & Hx3 & Hl3). destruct (Hrow r4 w' Hi4) as (x4 & Hx4 & Hl4).
    destruct (Hrow r5 w' Hi5) as (x5 & Hx5 & Hl5).
    rewrite (St_bind_Ok _ _ _ _ _ Hx1), (St_bind_Ok _ _ _ _ _ Hx2), (St_bind_Ok _ _ _ _ _ Hx3),
      (St_bind_Ok _ _ _ _ _ Hx4), (St_bind_Ok _ _ _ _ _ Hx5).
    eexists _, w'. split; [reflexivity|].
    apply arr_add_length.
    + apply arr_add_length; [exact Hl1|]. apply arr_scale_length. apply arr_sub_length; assumption.
    + apply arr_scale_length. apply arr_sub_length; assumption.
  - destruct (random_choice_sample c1 3 w ltac:(lia)) as (rs & w' & Hrs & Hlen & Hin).
    rewrite (St_bind_Ok _ _ _ _ _ Hrs).
    destruct rs as [|r1 [|r2 [|r3 [|]]]]; try discriminate.
    apply Forall_cons in Hin as [Hi1 Hin]. apply Forall_cons in Hin as [Hi2 Hin].
    apply Forall_cons in Hin as [Hi3 _].
    apply candidates_valid in Hi1, Hi2, Hi3.
    destruct (Hrow r1 w' Hi1) as (x1 & Hx1 & Hl1). destruct (Hrow r2 w' Hi2) as (x2 & Hx2 & Hl2).
    destruct (Hrow r3 w' Hi3) as (x3 & Hx3 & Hl3).
    rewrite (St_bind_Ok _ _ _ _ _ Hx1), (St_bind_Ok _ _ _ _ _ Hx2), (St_bind_Ok _ _ _ _ _ Hx3).
    eexists _, w'. split; [reflexivity|].
    apply arr_add_length; [exact Hl1|]. apply arr_scale_length. apply arr_sub_length; assumption.
Qed.

(** X5: the individuals [mutate] needs.  For a population whose rows have
    [d] entries and indices of the target and the best within it: with at
    least four individuals (six for rand/2) the call returns a mutant of
    [d] entries; with fewer than four (six for rand/2) the strategies
    rand/1 and rand/2 raise ValueError, since [np.random.choice] cannot
    draw that many distinct indices from the candidates. *)
Theorem mutate_needs_individuals (population : list arr) (best_idx target_idx : nat)
    (strategy : MutationStrategy) (F : Q) (w : W) (d : nat) :
  Forall (fun x => length x = d) population ->
  (target_idx < length population)%nat ->
  (best_idx < length population)%nat ->
  ((individuals_needed strategy <= length population)%nat ->
   exists mutant w',
     mutate population best_idx target_idx strategy F w = (Ok mutant, w')
     /\ length mutant = d)
  /\ ((length population < individuals_needed strategy)%nat ->
      strategy = DE_RAND_1 \/ strategy = DE_RAND_2 ->
      exists w', mutate population best_idx target_idx strategy F w = (Raise ValueError, w')).
Proof.
  intros Hrows Ht Hb. split.
  - apply mutate_returns; assumption.
  - intros Hn Hs.
    pose proof (candidates_one_length (length population) target_idx Ht) as H1.
    destruct Hs as [-> | ->]; simpl in Hn; unfold mutate.
    + destruct (random_choice_short
                  (List.filter (fun i => negb (i =? target_idx)%nat) (seq 0 (length population)))
                  3 w ltac:(rewrite H1; lia)) as (w' & Hr).
      exists w'. rewrite (St_bind_Raise _ _ _ _ _ Hr). reflexivity.
    + destruct (random_choice_short
                  (List.filter (fun i => negb (i =? target_idx)%nat) (seq 0 (length population)))
                  5 w ltac:(rewrite H1; lia)) as (w' & Hr).
      exists w'. rewrite (St_bind_Raise _ _ _ _ _ Hr). reflexivity.
Qed.

End Mutate.

(** ** adaptive_de.py: [update_population_size] *)

Lemma take_indices_lookup {A : Type} (a : list A) (indices : list nat) (i : nat) :
  Forall (fun j => (j < length a)%nat) indices ->
  take_indices a indices !! i = indices !! i ≫= (a !!.).
Proof.
  intros Hall. revert i. induction Hall as [|j indices Hj _ IH]; intros i; [reflexivity|].
  unfold take_indices in *. csimpl.
  destruct (lookup_lt_is_Some_2 a j Hj) as [x Hx]. rewrite Hx. csimpl.
  destruct i as [|i]; simpl; [rewrite Hx; reflexivity | apply IH].
Qed.

(** X6: what shrinking keeps.  With a cached fitness for every individual,
    [update_population_size] leaves a cached fitness for every
    individual; the population does not grow and does not fall below
    [max(4, dim // 2)] individuals unless it was below already; every
    individual that stays keeps the fitness that was cached for it; and
    without [adaptive_popsize] nothing changes. *)
Theorem update_population_size_keeps_individuals {W : Type} (cfg : DEConfig W) (self : DERun) :
  length (fitness self) = length (population self) ->
  length (fitness (update_population_size cfg self))
  = length (population (update_population_size cfg self))
  /\ (length (population (update_population_size cfg self)) <= length (population self))%nat
  /\ (Nat.min (length (population self)) (Nat.max 4 (dim cfg / 2))
      <= length (population (update_population_size cfg self)))%nat
  /\ (forall i x f,
        population (update_population_size cfg self) !! i = Some x ->
        fitness (update_population_size cfg self) !! i = Some f ->
        exists j, population self !! j = Some x /\ fitness self !! j = Some f)
  /\ (adaptive_popsize cfg = false -> update_population_size cfg self = self).
Proof.
  intros Hlen. unfold update_population_size.
  set (min_popsize := Nat.max 4 (dim cfg / 2)).
  destruct (adaptive_popsize cfg); cbn [negb];
    [|refine (conj Hlen (conj _ (conj _ (conj _ _)))); [lia | lia | eauto | reflexivity]].
  set (cur := Z.max _ _).
  assert (Z.of_nat min_popsize <= cur)%Z as Hcur by (unfold cur; lia).
  destruct (cur <? _)%Z eqn:E; simpl;
    [|refine (conj Hlen (conj _ (conj _ (conj _ _)))); [lia | lia | eauto | discriminate]].
  apply Z.ltb_lt in E.
  set (kept := take (Z.to_nat cur) (np_argsort (fitness self))).
  assert (Forall (fun j => (j < length (fitness self))%nat) kept) as Hf.
  { apply Forall_take. apply Forall_forall. intros j Hj. apply np_argsort_valid. exact Hj. }
  assert (Forall (fun j => (j < length (population self))%nat) kept) as Hp.
  { rewrite <- Hlen. exact Hf. }
  assert (length kept = Z.to_nat cur) as Hk.
  { unfold kept. rewrite length_take. rewrite (Permutation_length (np_argsort_perm _)).
    rewrite length_seq. lia. }
  rewrite (take_indices_length _ _ Hf), (take_indices_length _ _ Hp), Hk.
  refine (conj eq_refl (conj _ (conj _ (conj _ _)))); [lia | lia | | discriminate].
  intros i x f. rewrite (take_indices_lookup _ _ i Hf), (take_indices_lookup _ _ i Hp).
  destruct (kept !! i) as [j|]; simpl; [|discriminate]. intros Hx Hfx. exists j. split; assumption.
Qed.

(** ** adaptive_de.py: [initialize_population] *)

Section Initialize.
Context {W : Type} `{NpRandomRange W}.

Lemma uniform_row_within (cfg : DEConfig W) (w : W) :
  proper_bounds cfg ->
  exists x w', uniform_row (lower_bounds cfg) (upper_bounds cfg) w = (Ok x, w')
               /\ within_bounds cfg x.
Proof.
  intros (_ & _ & Hbs). unfold uniform_row, within_bounds.
  destruct (mapM_St_Forall2 (fun b => random_uniform (fst b) (snd b))
              (fun b x => fst b <= x /\ x <= snd b)
              (zip (lower_bounds cfg) (upper_bounds cfg)) w) as (x & w' & Hx & Hall).
  { intros b s Hb. rewrite Forall_forall in Hbs. apply random_uniform_range. apply Hbs. exact Hb. }
  exists x, w'. split; [exact Hx|]. apply Forall2_flip. exact Hall.
Qed.

Lemma uniform_matrix_within (cfg : DEConfig W) (rows : nat) (w : W) :
  proper_bounds cfg ->
  exists pop w', uniform_matrix (lower_bounds cfg) (upper_bounds cfg) rows w = (Ok pop, w')
                 /\ length pop = rows /\ Forall (within_bounds cfg) pop.
Proof.
  intros Hb. unfold uniform_matrix.
  destruct (mapM_St_Forall2 (fun _ : nat => uniform_row (lower_bounds cfg) (upper_bounds cfg))
              (fun _ x => within_bounds cfg x) (seq 0 rows) w) as (pop & w' & Hpop & Hall).
  { intros a s _. apply uniform_row_within. exact Hb. }
  exists pop, w'. split; [exact Hpop|]. split.
  - apply Forall2_length in Hall. rewrite length_seq in Hall. symmetry. exact Hall.
  - clear Hpop. induction Hall; constructor; assumption.
Qed.

Lemma initialize_population_returns (cfg : DEConfig W) (self : DERun) (w : W) :
  proper_bounds cfg ->
  (forall x w, exists y w', objective_func cfg x w = (Ok y, w')) ->
  (0 < popsize cfg)%nat ->
  exists self' w',
    initialize_population cfg (self, w) = (Ok tt, (self', w'))
    /\ length (population self') = popsize cfg
    /\ length (fitness self') = popsize cfg
    /\ Forall (within_bounds cfg) (population self')
    /\ (best_idx self' < popsize cfg)%nat
    /\ archive self' = archive self
    /\ convergence_history self' = convergence_history self
    /\ generation self' = generation self.
Proof.
  intros Hb Hobj Hpos. unfold initialize_population.
  destruct (uniform_matrix_within cfg (popsize cfg) w Hb) as (pop & w1 & Hpop & Hlen & Hin).
  destruct (mapM_St_Forall2 (objective_func cfg) (fun _ _ => True) pop w1)
    as (fit & w2 & Hfit & Hall).
  { intros x s _. destruct (Hobj x s) as (y & s' & Hy). exists y, s'. split; [exact Hy | exact I]. }
  apply Forall2_length in Hall.
  destruct (np_argmin fit) as [idx|e] eqn:Eidx;
    [|destruct fit; [simpl in Hall; lia | discriminate]].
  destruct (np_argmin_spec fit idx Eidx) as (m & Hm & _).
  bind_ok (lift_snd_Ok _ self _ _ _ Hpop).
  bind_ok (modify_self_Ok (set_population pop) self w1).
  bind_ok (lift_snd_Ok _ (set_population pop self) _ _ _ Hfit).
  bind_ok (modify_self_Ok (set_fitness fit) (set_population pop self) w2).
  bind_ok (st_of_exc_Ok _ (set_fitness fit (set_population pop self), w2) _ Eidx).
  bind_ok (modify_self_Ok (set_best_idx idx) (set_fitness fit (set_population pop self)) w2).
  bind_ok (st_of_exc_Ok _ (set_best_idx idx (set_fitness fit (set_population pop self)), w2)
             _ (arr_get_Some _ _ _ Hm)).
  rewrite modify_self_Ok.
  eexists _, _. split; [reflexivity|]. simpl.
  apply lookup_lt_Some in Hm.
  repeat split; try reflexivity; try assumption; lia.
Qed.

(** X7: what [initialize_population] leaves.  With a population size of 0
    it raises ValueError, the [np.argmin] of an empty fitness array.  With
    a positive one, bounds with [lower <= upper] in every dimension and an
    objective that returns, it returns with [popsize] individuals, each of
    [dim] entries within the bounds, a cached fitness for each of them and
    a best index within the population. *)
Theorem initialize_population_shape (cfg : DEConfig W) (self : DERun) (w : W) :
  (popsize cfg = 0%nat -> fst (initialize_population cfg (self, w)) = Raise ValueError)
  /\ (proper_bounds cfg ->
      (forall x w, exists y w', objective_func cfg x w = (Ok y, w')) ->
      (0 < popsize cfg)%nat ->
      exists self' w',
        initialize_population cfg (self, w) = (Ok tt, (self', w'))
        /\ length (population self') = popsize cfg
        /\ length (fitness self') = popsize cfg
        /\ Forall (fun x => length x = dim cfg /\ within_bounds cfg x) (population self')
        /\ (best_idx self' < popsize cfg)%nat).
Proof.
  split.
  - intros Hz. unfold initialize_population, uniform_matrix. rewrite Hz. simpl.
    unfold mbind, St_bind, lift_snd, modify_self, st_of_exc. simpl. reflexivity.
  - intros Hb Hobj Hpos.
    destruct (initialize_population_returns cfg self w Hb Hobj Hpos)
      as (self' & w' & Hinit & Hp & Hf & Hin & Hidx & _).
    exists self', w'. refine (conj Hinit (conj Hp (conj Hf (conj _ Hidx)))).
    eapply Forall_impl; [exact Hin|]. simpl. intros x Hx. split; [|exact Hx].
    destruct Hb as (Hlo & Hhi & _). apply Forall2_length in Hx.
    rewrite Hx, length_zip. lia.
Qed.

End Initialize.

(** ** adaptive_de.py: what a run keeps, step by step *)

Lemma keeps_return {W A : Type} (P : DERun -> Prop) (m : Opt W A)
    (self self' : DERun) (w w' : W) (r : exc A) :
  keeps P m -> m (self, w) = (r, (self', w')) -> P self -> P self'.
Proof.
  intros Hk Hm Hs. specialize (Hk self w Hs). unfold final_self in Hk.
  rewrite Hm in Hk. exact Hk.
Qed.

Lemma crossover_loop_length {W : Type} `{NpRandom W} (mutant : arr) (CR : Q)
    (random_dim n i : nat) (trial trial' : arr) (w w' : W) :
  crossover_loop mutant CR random_dim n i trial w = (Ok trial', w') ->
  length trial' = length trial.
Proof.
  revert i trial w. induction n as [|n IH]; intros i trial w; simpl.
  - intros [= <- _]. reflexivity.
  - intros Hrun. apply St_bind_inv in Hrun as (u & w1 & _ & Hrun).
    apply St_bind_inv in Hrun as (trial1 & w2 & Hstep & Hrun).
    apply IH in Hrun. rewrite Hrun.
    destruct (Qltb u CR || (i =? random_dim)%nat).
    + apply St_bind_inv in Hstep as (m & w3 & _ & Hset).
      apply st_of_exc_inv in Hset as [Hset _]. unfold arr_set in Hset.
      destruct (i <? length trial)%nat; [|discriminate].
      injection Hset as <-. apply length_insert.
    + injection Hstep as <- _. reflexivity.
Qed.

Lemma crossover_length {W : Type} `{NpRandom W} (dim : nat) (target mutant : arr) (CR : Q)
    (trial : arr) (w w' : W) :
  crossover dim target mutant CR w = (Ok trial, w') -> length trial = length target.
Proof.
  unfold crossover. intros Hrun. apply St_bind_inv in Hrun as (j & w1 & _ & Hrun).
  eapply crossover_loop_length. exact Hrun.
Qed.

(** What a trial that [make_trial] returns is made of. *)
Lemma make_trial_inv {W : Type} `{NpRandom W} (cfg : DEConfig W) (self : DERun) (i : nat)
    (t : trial_result) (w w' : W) :
  make_trial cfg self i w = (Ok t, w') ->
  exists (target trial0 : arr) (w1 w2 : W),
    population self !! i = Some target
    /\ length trial0 = length target
    /\ handle_boundary cfg trial0 w1 = (Ok (trial_vector t), w2)
    /\ objective_func cfg (trial_vector t) w2 = (Ok (trial_fitness t), w').
Proof.
  unfold make_trial. intros Hrun.
  apply St_bind_inv in Hrun as ([F CR] & w1 & _ & Hrun).
  apply St_bind_inv in Hrun as (strategy & w2 & _ & Hrun).
  apply St_bind_inv in Hrun as (mutant & w3 & _ & Hrun).
  apply St_bind_inv in Hrun as (mutant' & w4 & _ & Hrun).
  apply St_bind_inv in Hrun as (target & w5 & Htarget & Hrun).
  apply st_of_exc_inv in Htarget as [Htarget ->].
  apply St_bind_inv in Hrun as (trial0 & w6 & Hcross & Hrun).
  apply St_bind_inv in Hrun as (trial & w7 & Hhandle & Hrun).
  apply St_bind_inv in Hrun as (fit & w8 & Hfit & Hrun).
  injection Hrun as <- <-. simpl.
  exists target, trial0, w6, w7. split; [apply arr_get_Ok; exact Htarget|].
  split; [eapply crossover_length; exact Hcross|]. split; assumption.
Qed.

Section RunKeeps.
Context {W : Type} `{NpRandom W}.
Variable cfg : DEConfig W.
Variable P : DERun -> Prop.

Lemma keeps_evolve_individual_trial :
  (forall self i old t f w w',
     P self -> make_trial cfg self i w = (Ok t, w') ->
     fitness self !! i = Some f -> population self !! i = Some old ->
     trial_fitness t < f ->
     P (replace_individual cfg self i old t)) ->
  forall log i, keeps P (evolve_individual cfg log i).
Proof.
  intros Hrep log i self w Hs. unfold final_self, evolve_individual.
  unfold mbind, St_bind, get_self, lift_snd, st_of_exc, modify_self, mret, St_ret. simpl.
  destruct (make_trial cfg self i w) as [[t|e] w'] eqn:Et; simpl; [|exact Hs].
  destruct (arr_get (fitness self) i) as [fit_i|e] eqn:Ef; simpl; [|exact Hs].
  destruct (arr_get (population self) i) as [old|e] eqn:Eo; simpl; [|exact Hs].
  destruct (Qltb (trial_fitness t) fit_i) eqn:Elt; simpl; [|exact Hs].
  apply (Hrep self i old t fit_i w w' Hs Et).
  - apply arr_get_Ok. exact Ef.
  - apply arr_get_Ok. exact Eo.
  - apply Qltb_lt. exact Elt.
Qed.

Lemma keeps_evolve_all_trial (indices : list nat) (log : gen_log) :
  (forall log i, keeps P (evolve_individual cfg log i)) ->
  keeps P (evolve_all cfg log indices).
Proof.
  intros Hstep. revert log. induction indices as [|i indices IH]; intros log; simpl.
  - apply keeps_ret.
  - apply keeps_bind; [apply Hstep | intros log'; apply IH].
Qed.

Lemma keeps_update_selector_set (used : list (MutationStrategy * bool)) :
  (forall v self, P self -> P (set_strategy_selector v self)) ->
  keeps P (update_selector used : Opt W unit).
Proof.
  intros Hsel. induction used as [|[strategy success] used IH]; simpl.
  - apply keeps_ret.
  - apply keeps_bind; [apply keeps_get_self | intros self].
    apply keeps_bind; [apply keeps_st_of_exc | intros sel].
    apply keeps_bind; [|intros _; exact IH].
    apply keeps_modify_self. intros s. apply Hsel.
Qed.

Hypothesis P_adaptive_params : forall v self, P self -> P (set_adaptive_params v self).
Hypothesis P_strategy_selector : forall v self, P self -> P (set_strategy_selector v self).
Hypothesis P_generation : forall v self, P self -> P (set_generation v self).
Hypothesis P_history : forall v self, P self -> P (set_convergence_history v self).
Hypothesis P_shrink : forall self, P self -> P (update_population_size cfg self).
Hypothesis P_replace : forall self i old t f w w',
  P self -> make_trial cfg self i w = (Ok t, w') ->
  fitness self !! i = Some f -> population self !! i = Some old ->
  trial_fitness t < f ->
  P (replace_individual cfg self i old t).

Lemma keeps_run_generation_trial (generation : nat) : keeps P (run_generation cfg generation).
Proof.
  unfold run_generation.
  apply keeps_bind; [|intros _].
  { apply keeps_modify_self. intros s. apply P_generation. }
  apply keeps_bind; [|intros _].
  { apply keeps_modify_self. intros s. apply P_shrink. }
  apply keeps_bind; [apply keeps_get_self | intros self].
  apply keeps_bind; [|intros log].
  { apply keeps_evolve_all_trial. apply keeps_evolve_individual_trial. exact P_replace. }
  unfold end_of_generation.
  apply keeps_bind; [|intros _].
  { apply keeps_modify_self. intros s. apply P_adaptive_params. }
  apply keeps_bind; [apply keeps_update_selector_set; exact P_strategy_selector | intros _].
  apply keeps_modify_self. intros s. apply P_history.
Qed.

Lemma keeps_run_generations_trial (gens : list nat) : keeps P (run_generations cfg gens).
Proof.
  induction gens as [|g gens IH]; simpl.
  - apply keeps_ret.
  - apply keeps_bind; [apply keeps_run_generation_trial | intros _].
    apply keeps_bind; [apply keeps_get_self | intros self].
    destruct (abs_lt _ _); [apply keeps_ret | exact IH].
Qed.

End RunKeeps.

(** What [optimize] returns is read off the state it leaves. *)
Lemma optimize_inv {W : Type} `{NpRandom W} (cfg : DEConfig W) (self self' : DERun)
    (w w' : W) (res : OptimizeResult) :
  optimize cfg (self, w) = (Ok res, (self', w')) ->
  exists self1 w1,
    initialize_population cfg (self, w) = (Ok tt, (self1, w1))
    /\ run_generations cfg (seq 0 (maxiter cfg)) (self1, w1) = (Ok tt, (self', w'))
    /\ population self' !! best_idx self' = Some (res_x res)
    /\ res_fun res = best_fitness self'
    /\ res_nit res = generation self'
    /\ res_success res = abs_lt (best_fitness self') (tol cfg)
    /\ res_convergence_history res = convergence_history self'
    /\ res_final_population res = population self'
    /\ res_final_fitness res = fitness self'.
Proof.
  unfold optimize. intros Hrun.
  apply St_bind_inv in Hrun as ([] & [self1 w1] & Hinit & Hrun).
  apply St_bind_inv in Hrun as ([] & [self2 w2] & Hgens & Hrun).
  unfold create_result in Hrun.
  apply St_bind_inv in Hrun as (s & [self3 w3] & Hget & Hrun).
  unfold get_self in Hget. simpl in Hget. injection Hget as <- <- <-.
  apply St_bind_inv in Hrun as (x & [self4 w4] & Hx & Hrun).
  apply st_of_exc_inv in Hx as [Hx [= -> ->]].
  injection Hrun as <- <- <-. simpl.
  exists self1, w1. split; [exact Hinit|]. split; [exact Hgens|].
  split; [apply arr_get_Ok; exact Hx|]. repeat split; reflexivity.
Qed.

(** The fields [replace_individual] assigns and those it leaves. *)
Lemma replace_individual_fields {W : Type} (cfg : DEConfig W)
    (self : DERun) (i : nat) (old : arr) (t : trial_result) :
  let self' := replace_individual cfg self i old t in
  population self' = <[i := trial_vector t]> (population self)
  /\ fitness self' = <[i := trial_fitness t]> (fitness self)
  /\ archive self' = (fun a => deque_append (archive_size cfg) a old) <$> archive self
  /\ generation self' = generation self
  /\ convergence_history self' = convergence_history self
  /\ adaptive_params self' = adaptive_params self
  /\ strategy_selector self' = strategy_selector self.
Proof.
  cbv zeta. unfold replace_individual.
  destruct (archive self) eqn:Ea; simpl;
    destruct (lt_xfloat (trial_fitness t) (best_fitness self)); simpl;
    rewrite ?Ea; repeat split; reflexivity.
Qed.

Lemma update_population_size_fields {W : Type} (cfg : DEConfig W) (self : DERun) :
  let self' := update_population_size cfg self in
  archive self' = archive self
  /\ generation self' = generation self
  /\ convergence_history self' = convergence_history self
  /\ adaptive_params self' = adaptive_params self
  /\ strategy_selector self' = strategy_selector self
  /\ best_fitness self' = best_fitness self
  /\ (forall x, x ∈ population self' -> x ∈ population self).
Proof.
  cbv zeta. unfold update_population_size.
  destruct (adaptive_popsize cfg); cbn [negb]; [|repeat split; auto].
  destruct (_ <? _)%Z; simpl; [|repeat split; auto].
  repeat split; try reflexivity.
  intros x Hx. apply take_indices_elem_of in Hx as (j & _ & Hj).
  eapply list_elem_of_lookup_2. exact Hj.
Qed.

(** ** adaptive_de.py: the population stays within the bounds *)

Section WithinBounds.
Context {W : Type} `{NpRandomRange W}.
Variable cfg : DEConfig W.
Hypothesis Hbounds : proper_bounds cfg.

Lemma within_bounds_length (x : arr) : within_bounds cfg x -> length x = dim cfg.
Proof.
  intros Hx. destruct Hbounds as (Hlo & Hhi & _). apply Forall2_length in Hx.
  rewrite Hx, length_zip. lia.
Qed.

Lemma trial_within_bounds (self : DERun) (i : nat) (t : trial_result) (w w' : W) :
  Forall (within_bounds cfg) (population self) ->
  make_trial cfg self i w = (Ok t, w') ->
  within_bounds cfg (trial_vector t).
Proof.
  intros Hpop Ht.
  apply make_trial_inv in Ht as (target & trial0 & w1 & w2 & Htarget & Hlen & Hhandle & _).
  assert (length trial0 = dim cfg) as Hd.
  { rewrite Hlen. apply within_bounds_length. rewrite Forall_forall in Hpop. apply Hpop.
    eapply list_elem_of_lookup_2. exact Htarget. }
  destruct (handle_boundary_spec cfg trial0 w1 Hbounds Hd) as (y & w3 & Hy & Hin & _).
  rewrite Hy in Hhandle. injection Hhandle as <- _. exact Hin.
Qed.

Lemma population_within_bounds_run (gens : list nat) :
  keeps (fun self => Forall (within_bounds cfg) (population self)) (run_generations cfg gens).
Proof.
  apply keeps_run_generations_trial; try (intros v self Hs; exact Hs).
  - intros self Hs. apply Forall_forall. intros x Hx. rewrite Forall_forall in Hs. apply Hs.
    apply (update_population_size_fields cfg self). exact Hx.
  - intros self i old t f w w' Hs Ht _ _ _.
    destruct (replace_individual_fields cfg self i old t) as (-> & _).
    apply Forall_insert; [exact Hs|]. eapply trial_within_bounds; [exact Hs | exact Ht].
Qed.

(** X8: the optimizer never leaves the search space.  For bounds with
    [lower <= upper] in every dimension and whatever the boundary
    strategy, when [optimize] returns, its solution [x] has [dim] entries
    and lies within the bounds, [lower_bounds[i] <= x[i] <= upper_bounds[i]]
    for every [i] (the check of test_boundary_handling), and so does every
    individual of the final population. *)
Theorem optimize_result_within_bounds (self self' : DERun) (w w' : W) (res : OptimizeResult) :
  optimize cfg (self, w) = (Ok res, (self', w')) ->
  length (res_x res) = dim cfg
  /\ within_bounds cfg (res_x res)
  /\ (forall i xi lo hi,
        res_x res !! i = Some xi -> lower_bounds cfg !! i = Some lo ->
        upper_bounds cfg !! i = Some hi -> lo <= xi /\ xi <= hi)
  /\ Forall (within_bounds cfg) (res_final_population res).
Proof.
  intros Hrun.
  apply optimize_inv in Hrun
    as (self1 & w1 & Hinit & Hgens & Hx & _ & _ & _ & _ & Hpop & _).
  assert (Forall (within_bounds cfg) (population self1)) as H1.
  { unfold initialize_population in Hinit.
    apply St_bind_inv in Hinit as (pop & [s1 w2] & Hpop1 & Hinit).
    unfold lift_snd in Hpop1. simpl in Hpop1.
    destruct (uniform_matrix_within cfg (popsize cfg) w Hbounds) as (pop' & w3 & Hu & _ & Hin).
    rewrite Hu in Hpop1. injection Hpop1 as <- <- <-.
    apply St_bind_inv in Hinit as ([] & [s2 w4] & Hset & Hinit).
    rewrite modify_self_Ok in Hset. injection Hset as <- <-.
    assert (keeps (fun s => population s = pop')
              (fit ← lift_snd (mapM (objective_func cfg) pop');
               modify_self (set_fitness fit);;
               idx ← st_of_exc (np_argmin fit);
               modify_self (set_best_idx idx);;
               best ← st_of_exc (arr_get fit idx);
               modify_self (set_best_fitness (Fin best)) : Opt W unit)) as Hk.
    { apply keeps_bind; [apply keeps_lift_snd | intros fit].
      apply keeps_bind; [apply keeps_modify_self; auto | intros _].
      apply keeps_bind; [apply keeps_st_of_exc | intros idx].
      apply keeps_bind; [apply keeps_modify_self; auto | intros _].
      apply keeps_bind; [apply keeps_st_of_exc | intros best].
      apply keeps_modify_self; auto. }
    rewrite (keeps_return _ _ _ _ _ _ _ Hk Hinit eq_refl). exact Hin. }
  pose proof (keeps_return _ _ _ _ _ _ _ (population_within_bounds_run _) Hgens H1) as H2.
  assert (within_bounds cfg (res_x res)) as Hin.
  { rewrite Forall_forall in H2. apply H2. eapply list_elem_of_lookup_2. exact Hx. }
  split; [apply within_bounds_length; exact Hin|]. split; [exact Hin|].
  split; [|rewrite Hpop; exact H2].
  intros i xi lo hi Hxi Hlo Hhi.
  unfold within_bounds in Hin.
  eapply (Forall2_lookup_lr _ _ _ i xi (lo, hi)) in Hin; [exact Hin | exact Hxi|].
  rewrite lookup_zip_with. rewrite Hlo. simpl. rewrite Hhi. reflexivity.
Qed.

End WithinBounds.

(** ** adaptive_de.py: the cached fitness of a pure objective *)

Lemma take_indices_fmap_comm {A B : Type} (g : A -> B) (a : list A) (indices : list nat) :
  take_indices (g <$> a) indices = g <$> take_indices a indices.
Proof.
  unfold take_indices. induction indices as [|j indices IH]; [reflexivity|].
  csimpl. rewrite list_lookup_fmap. destruct (a !! j); csimpl; rewrite IH; reflexivity.
Qed.

Lemma Forall2_eq_fmap {A B : Type} (g : A -> B) (l : list A) (k : list B) :
  Forall2 (fun x y => y = g x) l k -> k = g <$> l.
Proof. induction 1 as [|x y l k -> _ IH]; [reflexivity|]. csimpl. rewrite IH. reflexivity. Qed.

Section PureObjective.
Context {W : Type} `{NpRandom W}.
Variable cfg : DEConfig W.
Variable f : arr -> Q.
Hypothesis Hobj : forall x w, objective_func cfg x w = (Ok (f x), w).

Lemma fitness_cached_run (gens : list nat) :
  keeps (fun self => fitness self = f <$> population self) (run_generations cfg gens).
Proof.
  apply keeps_run_generations_trial; try (intros v self Hs; exact Hs).
  - intros self Hs. unfold update_population_size.
    destruct (adaptive_popsize cfg); cbn [negb]; [|exact Hs].
    destruct (_ <? _)%Z; simpl; [|exact Hs].
    rewrite Hs. apply take_indices_fmap_comm.
  - intros self i old t fi w w' Hs Ht _ _ _.
    destruct (replace_individual_fields cfg self i old t) as (-> & -> & _).
    apply make_trial_inv in Ht as (_ & _ & _ & w2 & _ & _ & _ & Hfit).
    rewrite Hobj in Hfit. injection Hfit as <- _.
    rewrite Hs. symmetry. apply list_fmap_insert.
Qed.

Lemma fitness_cached_init (self self1 : DERun) (w w1 : W) :
  initialize_population cfg (self, w) = (Ok tt, (self1, w1)) ->
  fitness self1 = f <$> population self1.
Proof.
  unfold initialize_population. intros Hinit.
  apply St_bind_inv in Hinit as (pop & [s1 w2] & _ & Hinit).
  apply St_bind_inv in Hinit as ([] & [s2 w3] & Hset & Hinit).
  rewrite modify_self_Ok in Hset. injection Hset as <- <-.
  apply St_bind_inv in Hinit as (fit & [s3 w4] & Hfit & Hinit).
  unfold lift_snd in Hfit. simpl in Hfit.
  destruct (mapM (objective_func cfg) pop w2) as [[fit'|e] w5] eqn:Em; [|discriminate].
  injection Hfit as <- <- <-.
  assert (fit' = f <$> pop) as ->.
  { pose proof (mapM_St_inv (objective_func cfg) (fun x y => y = f x) pop w2 w5 fit') as Hall.
    specialize (Hall ltac:(intros a s b s' _ Hb; rewrite Hobj in Hb; congruence) Em).
    apply Forall2_eq_fmap. exact Hall. }
  apply St_bind_inv in Hinit as ([] & [s4 w6] & Hset & Hinit).
  rewrite modify_self_Ok in Hset. injection Hset as <- <-.
  assert (keeps (fun s => fitness s = f <$> population s)
            (idx ← st_of_exc (np_argmin (f <$> pop));
             modify_self (set_best_idx idx);;
             best ← st_of_exc (arr_get (f <$> pop) idx);
             modify_self (set_best_fitness (Fin best)) : Opt W unit)) as Hk.
  { apply keeps_bind; [apply keeps_st_of_exc | intros idx].
    apply keeps_bind; [apply keeps_modify_self; auto | intros _].
    apply keeps_bind; [apply keeps_st_of_exc | intros best].
    apply keeps_modify_self; auto. }
  apply (keeps_return _ _ _ _ _ _ _ Hk Hinit). reflexivity.
Qed.

(** X9: the solution is an individual with its own objective value.  For
    an objective that is a function [f] of the individual alone, when
    [optimize] returns, [fun] is the value of [f] at the returned [x];
    [x] is an individual of the final population; the final fitness array
    holds [f] of each final individual; and no final individual has a
    lower value than [x]. *)
Theorem optimize_result_is_best_found (self self' : DERun) (w w' : W) (res : OptimizeResult) :
  optimize cfg (self, w) = (Ok res, (self', w')) ->
  exists best : Q,
    res_fun res = Fin best
    /\ best == f (res_x res)
    /\ res_x res ∈ res_final_population res
    /\ res_final_fitness res = f <$> res_final_population res
    /\ Forall (fun x => f (res_x res) <= f x) (res_final_population res).
Proof.
  intros Hrun.
  apply optimize_inv in Hrun
    as (self1 & w1 & Hinit & Hgens & Hx & Hfun & _ & _ & _ & Hpop & Hfit).
  pose proof (fitness_cached_init _ _ _ _ Hinit) as Hc1.
  pose proof (keeps_return _ _ _ _ _ _ _ (fitness_cached_run _) Hgens Hc1) as Hc.
  cbv beta in Hc.
  assert (best_is_minimum self1) as Hm1.
  { pose proof (initialize_population_minimum cfg self w) as Hm.
    unfold final_self in Hm. rewrite Hinit in Hm. apply Hm. reflexivity. }
  pose proof (keeps_return _ _ _ _ _ _ _
                (keeps_run_generations best_is_minimum best_is_minimum_closed cfg _)
                Hgens Hm1) as Hm.
  apply best_is_minimum_char in Hm as (_ & best & fv & Hb & Hfv & Hfb & Hall).
  rewrite Hc, list_lookup_fmap, Hx in Hfv. injection Hfv as <-.
  exists best. rewrite Hfun, Hpop, Hfit.
  split; [exact Hb|]. split; [symmetry; exact Hfb|].
  split; [eapply list_elem_of_lookup_2; exact Hx|]. split; [exact Hc|].
  rewrite Hc in Hall. rewrite Forall_fmap in Hall.
  eapply Forall_impl; [exact Hall|]. simpl. intros x Hle. rewrite Hfb. exact Hle.
Qed.

End PureObjective.

(** ** adaptive_de.py: generations, history and the stopping test *)

Section Accounting.
Context {W : Type} `{NpRandom W}.
Variable cfg : DEConfig W.

Lemma generation_history_evolve (g : nat) (h : list xfloat) (log : gen_log) (indices : list nat) :
  keeps (fun s => generation s = g /\ convergence_history s = h) (evolve_all cfg log indices).
Proof.
  apply keeps_evolve_all_trial. apply keeps_evolve_individual_trial.
  intros self i old t f w w' [Hg Hh] _ _ _ _.
  destruct (replace_individual_fields cfg self i old t) as (_ & _ & _ & -> & -> & _).
  split; assumption.
Qed.

(** One pass of the loop sets [generation] and appends the best fitness
    to the history. *)
Lemma run_generation_effect (g : nat) (s s' : DERun) (w w' : W) :
  run_generation cfg g (s, w) = (Ok tt, (s', w')) ->
  generation s' = g
  /\ convergence_history s' = convergence_history s ++ [best_fitness s'].
Proof.
  unfold run_generation. intros Hrun.
  apply St_bind_inv in Hrun as ([] & [sa wa] & Hset & Hrun).
  rewrite modify_self_Ok in Hset. injection Hset as <- <-.
  apply St_bind_inv in Hrun as ([] & [sb wb] & Hset & Hrun).
  rewrite modify_self_Ok in Hset. injection Hset as <- <-.
  apply St_bind_inv in Hrun as (self & [sc wc] & Hget & Hrun).
  unfold get_self in Hget. simpl in Hget. injection Hget as <- <- <-.
  apply St_bind_inv in Hrun as (log & [sd wd] & Hevolve & Hrun).
  set (sb := update_population_size cfg (set_generation g s)) in *.
  assert (generation sb = g /\ convergence_history sb = convergence_history s) as Hb.
  { destruct (update_population_size_fields cfg (set_generation g s)) as (_ & Hg & Hh & _).
    fold sb in Hg, Hh. rewrite Hg, Hh. split; reflexivity. }
  pose proof (keeps_return _ _ _ _ _ _ _
                (generation_history_evolve g (convergence_history s) _ _) Hevolve Hb) as Hd.
  unfold end_of_generation in Hrun.
  apply St_bind_inv in Hrun as ([] & [se we] & Hset & Hrun).
  rewrite modify_self_Ok in Hset. injection Hset as <- <-.
  apply St_bind_inv in Hrun as ([] & [sf wf] & Hsel & Hrun).
  assert (keeps (fun s0 => generation s0 = g /\ convergence_history s0 = convergence_history s)
            (update_selector
               (zip (generation_strategies_used log) (generation_strategies_success log))
             : Opt W unit)) as Hk.
  { apply keeps_update_selector_set. intros v self Hs. exact Hs. }
  pose proof (keeps_return _ _ _ _ _ _ _ Hk Hsel Hd) as [Hg Hh].
  rewrite modify_self_Ok in Hrun. injection Hrun as <- <-. simpl.
  split; [exact Hg | rewrite Hh; reflexivity].
Qed.

(** The loop over the generations, when it returns: it ran the
    generations up to one of the list, the last one or one that met the
    stopping test. *)
Lemma run_generations_effect (gens : list nat) (s s' : DERun) (w w' : W) :
  run_generations cfg gens (s, w) = (Ok tt, (s', w')) ->
  (gens = [] /\ s' = s)
  \/ exists k g,
       gens !! k = Some g
       /\ generation s' = g
       /\ length (convergence_history s') = (length (convergence_history s) + S k)%nat
       /\ last (convergence_history s') = Some (best_fitness s')
       /\ (S k = length gens \/ abs_lt (best_fitness s') (tol cfg) = true).
Proof.
  revert s w. induction gens as [|g gens IH]; intros s w; simpl.
  - intros [= <- _]. left. split; reflexivity.
  - intros Hrun. right.
    apply St_bind_inv in Hrun as ([] & [s1 w1] & Hgen & Hrun).
    apply run_generation_effect in Hgen as [Hg Hh].
    apply St_bind_inv in Hrun as (self & [s2 w2] & Hget & Hrun).
    unfold get_self in Hget. simpl in Hget. injection Hget as <- <- <-.
    destruct (abs_lt (best_fitness s1) (tol cfg)) eqn:Estop.
    + injection Hrun as <- <-. exists 0%nat, g. split; [reflexivity|]. split; [exact Hg|].
      split; [rewrite Hh, length_app; simpl; lia|].
      split; [rewrite Hh; apply last_snoc | right; exact Estop].
    + apply IH in Hrun as [[-> ->]|(k & g' & Hk & Hg' & Hlen & Hlast & Hstop)].
      * exists 0%nat, g. split; [reflexivity|]. split; [exact Hg|].
        split; [rewrite Hh, length_app; simpl; lia|].
        split; [rewrite Hh; apply last_snoc | left; reflexivity].
      * exists (S k), g'. split; [exact Hk|]. split; [exact Hg'|].
        split; [rewrite Hlen, Hh, length_app; simpl; lia|]. split; [exact Hlast|].
        destruct Hstop as [Hstop|Hstop]; [left; simpl; lia | right; exact Hstop].
Qed.

(** X10: what the result says about the run.  For an optimizer as
    [__init__] leaves it (an empty history), when [optimize] returns:
    [success] is the stopping test [abs(fun) < tol]; with [maxiter = 0]
    the history is empty; with [maxiter > 0] the history has one entry
    for each generation that ran, [nit] is the index of the last of them
    (so [nit + 1] generations ran and [nit < maxiter]), the last entry of
    the history is [fun], and the run went through all [maxiter]
    generations unless it stopped with [success]. *)
Theorem optimize_result_accounting (self self' : DERun) (w w' : W) (res : OptimizeResult) :
  convergence_history self = [] ->
  optimize cfg (self, w) = (Ok res, (self', w')) ->
  res_success res = abs_lt (res_fun res) (tol cfg)
  /\ (maxiter cfg = 0%nat ->
      res_convergence_history res = [] /\ res_nit res = generation self)
  /\ ((0 < maxiter cfg)%nat ->
      length (res_convergence_history res) = S (res_nit res)
      /\ (res_nit res < maxiter cfg)%nat
      /\ last (res_convergence_history res) = Some (res_fun res)
      /\ (S (res_nit res) = maxiter cfg \/ res_success res = true)).
Proof.
  intros Hempty Hrun.
  apply optimize_inv in Hrun
    as (self1 & w1 & Hinit & Hgens & _ & Hfun & Hnit & Hsucc & Hhist & _).
  assert (convergence_history self1 = [] /\ generation self1 = generation self) as [Hh1 Hg1].
  { assert (keeps (fun s => convergence_history s = [] /\ generation s = generation self)
              (initialize_population cfg)) as Hk.
    { apply keeps_initialize_population; intros v s Hs; exact Hs. }
    apply (keeps_return _ _ _ _ _ _ _ Hk Hinit). split; [exact Hempty | reflexivity]. }
  rewrite Hsucc, Hfun, Hhist, Hnit. split; [reflexivity|].
  apply run_generations_effect in Hgens as [[Hnil ->]|(k & g & Hk & Hg & Hlen & Hlast & Hstop)].
  - split; [intros _; split; assumption|].
    intros Hpos. destruct (maxiter cfg); [lia | discriminate].
  - rewrite length_seq in Hstop. rewrite Hh1 in Hlen. simpl in Hlen.
    pose proof (lookup_lt_Some _ _ _ Hk) as Hklt. rewrite length_seq in Hklt.
    rewrite lookup_seq_lt in Hk by exact Hklt. injection Hk as <-. simpl in Hg.
    split; [intros Hz; lia|]. intros _. rewrite Hg.
    refine (conj Hlen (conj Hklt (conj Hlast Hstop))).
Qed.

End Accounting.

(** ** adaptive_de.py: the archive is written and never read *)

Lemma without_archive_fields (s1 s2 : DERun) :
  without_archive s1 = without_archive s2 <->
  adaptive_params s1 = adaptive_params s2
  /\ strategy_selector s1 = strategy_selector s2
  /\ population s1 = population s2
  /\ fitness s1 = fitness s2
  /\ best_idx s1 = best_idx s2
  /\ best_fitness s1 = best_fitness s2
  /\ generation s1 = generation s2
  /\ convergence_history s1 = convergence_history s2.
Proof.
  unfold without_archive, set_archive. split.
  - intros [= -> -> -> -> -> -> -> ->]. repeat split; reflexivity.
  - intros (-> & -> & -> & -> & -> & -> & -> & ->). reflexivity.
Qed.

Ltac same_fields :=
  repeat match goal with
         | H : without_archive _ = without_archive _ |- _ => apply without_archive_fields in H
         | H : _ /\ _ |- _ => destruct H
         end;
  cbv beta; apply without_archive_fields; simpl; repeat split; congruence.

Section ArchiveBlind.
Context {W : Type} `{NpRandom W}.

Lemma archive_blind_bind {A B : Type} (m1 m2 : Opt W A) (k1 k2 : A -> Opt W B) :
  archive_blind m1 m2 -> (forall a, archive_blind (k1 a) (k2 a)) ->
  archive_blind (m1 ≫= k1) (m2 ≫= k2).
Proof.
  intros Hm Hk s1 s2 w Hs. specialize (Hm s1 s2 w Hs).
  unfold mbind, St_bind, same_outcome in *.
  destruct (m1 (s1, w)) as [[a1|e1] [s1' w1]], (m2 (s2, w)) as [[a2|e2] [s2' w2]];
    simpl in *; destruct Hm as (Hr & Hw & Hs'); try discriminate.
  - injection Hr as ->. subst w2. apply Hk. exact Hs'.
  - injection Hr as ->. subst w2. repeat split; [exact Hs'].
Qed.

Lemma archive_blind_get {B : Type} (k1 k2 : DERun -> Opt W B) :
  (forall s1 s2, without_archive s1 = without_archive s2 -> archive_blind (k1 s1) (k2 s2)) ->
  archive_blind (get_self ≫= k1) (get_self ≫= k2).
Proof.
  intros Hk s1 s2 w Hs. unfold mbind, St_bind, get_self. simpl. apply Hk; exact Hs.
Qed.

Lemma archive_blind_modify (f1 f2 : DERun -> DERun) :
  (forall s1 s2, without_archive s1 = without_archive s2 ->
                 without_archive (f1 s1) = without_archive (f2 s2)) ->
  archive_blind (modify_self f1 : Opt W unit) (modify_self f2).
Proof.
  intros Hf s1 s2 w Hs. unfold same_outcome, modify_self. simpl.
  repeat split. apply Hf. exact Hs.
Qed.

Lemma archive_blind_lift {A : Type} (m : St W A) : archive_blind (lift_snd m) (lift_snd m).
Proof.
  intros s1 s2 w Hs. unfold same_outcome, lift_snd. simpl.
  destruct (m w) as [r w']. simpl. repeat split. exact Hs.
Qed.

Lemma archive_blind_exc {A : Type} (m : exc A) :
  archive_blind (st_of_exc m : Opt W A) (st_of_exc m).
Proof. intros s1 s2 w Hs. unfold same_outcome, st_of_exc. simpl. repeat split. exact Hs. Qed.

Lemma archive_blind_ret {A : Type} (a : A) : archive_blind (mret a : Opt W A) (mret a).
Proof. intros s1 s2 w Hs. unfold same_outcome. simpl. repeat split. exact Hs. Qed.

Variables cfg1 cfg2 : DEConfig W.
Hypothesis Hcfg : same_but_archive cfg1 cfg2.

Lemma make_trial_same (s1 s2 : DERun) (i : nat) :
  without_archive s1 = without_archive s2 -> make_trial cfg1 s1 i = make_trial cfg2 s2 i.
Proof.
  intros Hs. apply without_archive_fields in Hs as (Hap & Hsel & Hpop & _ & Hidx & _).
  destruct Hcfg as (Hobj & _ & Hdim & Hlo & Hhi & _ & _ & _ & Hbh & _).
  unfold make_trial, handle_boundary.
  rewrite Hap, Hsel, Hpop, Hidx, Hdim, Hobj, Hlo, Hhi, Hbh. reflexivity.
Qed.

Lemma replace_individual_same (s1 s2 : DERun) (i : nat) (old : arr) (t : trial_result) :
  without_archive s1 = without_archive s2 ->
  without_archive (replace_individual cfg1 s1 i old t)
  = without_archive (replace_individual cfg2 s2 i old t).
Proof.
  intros Hs. apply without_archive_fields in Hs
    as (Hap & Hsel & Hpop & Hfit & Hidx & Hbest & Hgen & Hhist).
  unfold replace_individual.
  destruct (archive s1), (archive s2); simpl; rewrite Hbest;
    destruct (lt_xfloat (trial_fitness t) (best_fitness s2)); same_fields.
Qed.

Lemma update_population_size_same (s1 s2 : DERun) :
  without_archive s1 = without_archive s2 ->
  without_archive (update_population_size cfg1 s1)
  = without_archive (update_population_size cfg2 s2).
Proof.
  intros Hs. pose proof Hs as Hs'. apply without_archive_fields in Hs'
    as (Hap & Hsel & Hpop & Hfit & Hidx & Hbest & Hgen & Hhist).
  destruct Hcfg as (_ & _ & Hdim & _ & _ & Hps & Hmi & _ & _ & Hadp).
  unfold update_population_size. rewrite Hadp, Hdim, Hps, Hmi, Hgen, Hpop, Hfit.
  destruct (adaptive_popsize cfg2); cbn [negb]; [|exact Hs].
  destruct (_ <? _)%Z; [|exact Hs]. same_fields.
Qed.

Lemma evolve_individual_same (log : gen_log) (i : nat) :
  archive_blind (evolve_individual cfg1 log i) (evolve_individual cfg2 log i).
Proof.
  unfold evolve_individual. apply archive_blind_get. intros s1 s2 Hs.
  rewrite (make_trial_same s1 s2 i Hs).
  apply without_archive_fields in Hs as (_ & _ & Hpop & Hfit & _).
  rewrite Hpop, Hfit.
  apply archive_blind_bind; [apply archive_blind_lift | intros t].
  apply archive_blind_bind; [apply archive_blind_exc | intros fit_i].
  apply archive_blind_bind; [apply archive_blind_exc | intros old].
  apply archive_blind_bind; [|intros log'; apply archive_blind_ret].
  destruct (Qltb (trial_fitness t) fit_i); [|apply archive_blind_ret].
  apply archive_blind_bind; [|intros _; apply archive_blind_ret].
  apply archive_blind_modify. intros s1' s2'. apply replace_individual_same.
Qed.

Lemma evolve_all_same (indices : list nat) (log : gen_log) :
  archive_blind (evolve_all cfg1 log indices) (evolve_all cfg2 log indices).
Proof.
  revert log. induction indices as [|i indices IH]; intros log; simpl.
  - apply archive_blind_ret.
  - apply archive_blind_bind; [apply evolve_individual_same | intros log'; apply IH].
Qed.

Lemma update_selector_same (used : list (MutationStrategy * bool)) :
  archive_blind (update_selector used : Opt W unit) (update_selector used).
Proof.
  induction used as [|[strategy success] used IH]; simpl.
  - apply archive_blind_ret.
  - apply archive_blind_get. intros s1 s2 Hs.
    apply without_archive_fields in Hs as (_ & -> & _).
    apply archive_blind_bind; [apply archive_blind_exc | intros sel].
    apply archive_blind_bind; [|intros _; exact IH].
    apply archive_blind_modify. intros s1' s2' Hs'.
    same_fields.
Qed.

Lemma end_of_generation_same (log : gen_log) :
  archive_blind (end_of_generation log : Opt W unit) (end_of_generation log).
Proof.
  unfold end_of_generation.
  apply archive_blind_bind; [|intros _].
  { apply archive_blind_modify. intros s1 s2 Hs. same_fields. }
  apply archive_blind_bind; [apply update_selector_same | intros _].
  apply archive_blind_modify. intros s1 s2 Hs. same_fields.
Qed.

Lemma run_generation_same (generation : nat) :
  archive_blind (run_generation cfg1 generation) (run_generation cfg2 generation).
Proof.
  unfold run_generation.
  apply archive_blind_bind; [|intros _].
  { apply archive_blind_modify. intros s1 s2 Hs. same_fields. }
  apply archive_blind_bind; [|intros _].
  { apply archive_blind_modify. apply update_population_size_same. }
  apply archive_blind_get. intros s1 s2 Hs.
  apply without_archive_fields in Hs as (_ & _ & -> & _).
  apply archive_blind_bind; [apply evolve_all_same | intros log].
  apply end_of_generation_same.
Qed.

Lemma run_generations_same (gens : list nat) :
  archive_blind (run_generations cfg1 gens) (run_generations cfg2 gens).
Proof.
  destruct Hcfg as (_ & _ & _ & _ & _ & _ & _ & Htol & _).
  induction gens as [|g gens IH]; simpl.
  - apply archive_blind_ret.
  - apply archive_blind_bind; [apply run_generation_same | intros _].
    apply archive_blind_get. intros s1 s2 Hs.
    apply without_archive_fields in Hs as (_ & _ & _ & _ & _ & -> & _). rewrite Htol.
    destruct (abs_lt _ _); [apply archive_blind_ret | exact IH].
Qed.

Lemma initialize_population_same :
  archive_blind (initialize_population cfg1) (initialize_population cfg2).
Proof.
  destruct Hcfg as (Hobj & _ & _ & Hlo & Hhi & Hps & _).
  unfold initialize_population. rewrite Hobj, Hlo, Hhi, Hps.
  apply archive_blind_bind; [apply archive_blind_lift | intros pop].
  apply archive_blind_bind; [|intros _].
  { apply archive_blind_modify. intros s1 s2 Hs. same_fields. }
  apply archive_blind_bind; [apply archive_blind_lift | intros fit].
  apply archive_blind_bind; [|intros _].
  { apply archive_blind_modify. intros s1 s2 Hs. same_fields. }
  apply archive_blind_bind; [apply archive_blind_exc | intros idx].
  apply archive_blind_bind; [|intros _].
  { apply archive_blind_modify. intros s1 s2 Hs. same_fields. }
  apply archive_blind_bind; [apply archive_blind_exc | intros best].
  apply archive_blind_modify. intros s1 s2 Hs. same_fields.
Qed.

Lemma create_result_same : archive_blind (create_result cfg1) (create_result cfg2).
Proof.
  destruct Hcfg as (_ & _ & _ & _ & _ & _ & _ & Htol & _).
  unfold create_result. apply archive_blind_get. intros s1 s2 Hs.
  apply without_archive_fields in Hs as (_ & _ & -> & -> & -> & -> & -> & ->). rewrite Htol.
  apply archive_blind_bind; [apply archive_blind_exc | intros x]. apply archive_blind_ret.
Qed.

Lemma optimize_same : archive_blind (optimize cfg1) (optimize cfg2).
Proof.
  destruct Hcfg as (_ & _ & _ & _ & _ & _ & Hmi & _).
  unfold optimize. rewrite Hmi.
  apply archive_blind_bind; [apply initialize_population_same | intros _].
  apply archive_blind_bind; [apply run_generations_same | intros _].
  apply create_result_same.
Qed.

End ArchiveBlind.

(** X11: the archive changes nothing.  [mutate] never draws from
    [self.archive]; the run only appends to it.  Two optimizers made by
    [__init__] from the same arguments apart from [use_archive] and
    [archive_size], and run from the same state of the random generator,
    return the same result or raise the same exception, leave the
    generator in the same state, and leave the same values in every
    attribute other than [archive]. *)
Theorem use_archive_changes_nothing {W : Type} `{NpRandom W}
    (objective_func : arr -> St W Q) (bounds : list (Q * Q)) (popsize : option nat)
    (maxiter : nat) (tol : Q) (seed : option nat) (boundary_handling : BoundaryHandling)
    (use_archive1 use_archive2 : bool) (archive_size1 archive_size2 : nat)
    (adaptive_popsize : bool) (w : W) :
  let run use_archive archive_size :=
    let init :=
      AdaptiveDifferentialEvolution_init objective_func bounds popsize maxiter tol seed
        boundary_handling use_archive archive_size adaptive_popsize w in
    optimize (fst (fst init)) (snd (fst init), snd init) in
  same_outcome (run use_archive1 archive_size1) (run use_archive2 archive_size2).
Proof.
  cbv zeta. apply optimize_same.
  - unfold same_but_archive. simpl. repeat split; reflexivity.
  - simpl. same_fields.
Qed.

(** ** geometry.py: a wider cone *)

Section Cone.
Context `{NumPy}.

Lemma check_points_monotone (V d : vec3) (a a' : Q) (ps : list point) :
  a <= a' -> check_points V d a ps = true -> check_points V d a' ps = true.
Proof.
  intros Ha. induction ps as [|[p|] ps IH]; simpl; [reflexivity| |exact IH].
  destruct (Qltb (norm (vsub p V)) 1e-9); [exact IH|].
  destruct (Qltb a _) eqn:E; [discriminate|]. apply Qltb_ge in E.
  destruct (Qltb a' _) eqn:E'; [|exact IH]. apply Qltb_lt in E'. lra.
Qed.

(** X12: a wider cone covers what a narrower one covers.  If a rim circle
    is inside the cone of half-angle [a] then it is inside the cone of
    the same vertex and axis and of any half-angle [a' >= a]; and a circle
    that is not inside the wider cone is not inside the narrower one. *)
Theorem check_circle_in_cone_monotone
    (cone_vertex cone_axis_unit_vec : vec3) (a a' : Q)
    (circle_center : vec3) (circle_radius : Q) (circle_normal : vec3) :
  a <= a' ->
  (check_circle_in_cone cone_vertex cone_axis_unit_vec a
     circle_center circle_radius circle_normal = true ->
   check_circle_in_cone cone_vertex cone_axis_unit_vec a'
     circle_center circle_radius circle_normal = true)
  /\ (check_circle_in_cone cone_vertex cone_axis_unit_vec a'
        circle_center circle_radius circle_normal = false ->
      check_circle_in_cone cone_vertex cone_axis_unit_vec a
        circle_center circle_radius circle_normal = false).
Proof.
  intros Ha. unfold check_circle_in_cone. split.
  - apply check_points_monotone. exact Ha.
  - intros Hf. destruct (check_points _ _ a _) eqn:E; [|reflexivity].
    apply (check_points_monotone _ _ a a' _ Ha) in E. congruence.
Qed.

End Cone.

(** ** config.py and core_objects.py: the missiles *)

Lemma MISSILES_INITIAL_specs (id : string) (specs : missile_specs) :
  MISSILES_INITIAL !! id = Some specs ->
  missile_speed specs = 300.0 /\ missile_target specs = Vec3 0.0 0.0 0.0.
Proof.
  unfold MISSILES_INITIAL. intros Hs.
  apply lookup_insert_Some in Hs as [[_ <-]|[_ Hs]]; [split; reflexivity|].
  apply lookup_insert_Some in Hs as [[_ <-]|[_ Hs]]; [split; reflexivity|].
  apply lookup_insert_Some in Hs as [[_ <-]|[_ Hs]]; [split; reflexivity|].
  rewrite lookup_empty in Hs. discriminate.
Qed.

(** X13: the missile reaches its aim point at its time to impact.  For
    every missile of the configuration whose distance to the aim point is
    computed as positive, [Missile.get_position] at the time
    [calculate_time_to_impact] gives (threat_assessor.py) is the aim
    point, the origin; at time 0 it is the start position; and the
    position moves on a straight line, by [speed * t * unit_vec]. *)
Theorem missile_reaches_target `{NumPy} (missile_id : string) (m : Missile) :
  Missile_init missile_id = Ok m ->
  0 < calculate_time_to_impact missile_id ->
  veq (Missile_get_position m (calculate_time_to_impact missile_id)) (Vec3 0 0 0)
  /\ veq (Missile_get_position m 0) (start_pos m)
  /\ forall t1 t2,
       veq (vsub (Missile_get_position m t2) (Missile_get_position m t1))
           (vscale (speed m * (t2 - t1)) (unit_vec m)).
Proof.
  unfold Missile_init, calculate_time_to_impact.
  destruct (MISSILES_INITIAL !! missile_id) as [specs|] eqn:Es; [|discriminate].
  destruct (MISSILES_INITIAL_specs _ _ Es) as [Hspeed Htarget].
  intros [= <-] Hpos. rewrite Hspeed, Htarget in *.
  set (n := norm _) in *.
  assert (0 < n) as Hn.
  { destruct (Qlt_le_dec 0 n) as [Hn|Hn]; [exact Hn|]. exfalso.
    assert (n / 300.0 <= 0); [|lra].
    apply Qle_shift_div_r; lra. }
  unfold veq, Missile_get_position, vadd, vmul, vdiv, vsub, vscale. simpl.
  split; [|split].
  - repeat split; field; lra.
  - repeat split; ring.
  - intros t1 t2. repeat split; ring.
Qed.

(** ** core_objects.py: the carrier *)

(** X14: the carrier before and after [set_flight_strategy].  A [UAV] as
    [__init__] makes it has no velocity: [get_position] and
    [deploy_grenade] raise ValueError.  After [set_flight_strategy] its
    position is returned for every time; it is the start position at
    time 0, moves by [speed * t * (cos angle, sin angle)] in the plane, and
    keeps the altitude of the start position. *)
Theorem uav_flies_level `{NumPy} `{SciPy} (id : string) (uav : UAV) (speed angle t : Q) :
  UAV_init id = Ok uav ->
  UAV_get_position uav t = Raise ValueError
  /\ (forall deploy_time fuse_time, deploy_grenade uav deploy_time fuse_time = Raise ValueError)
  /\ exists p,
       UAV_get_position (set_flight_strategy uav speed angle) t = Ok p
       /\ vz p == vz (uav_start_pos uav)
       /\ vx p == vx (uav_start_pos uav) + speed * np_cos angle * t
       /\ vy p == vy (uav_start_pos uav) + speed * np_sin angle * t
       /\ (t == 0 -> veq p (uav_start_pos uav)).
Proof.
  unfold UAV_init. destruct (UAVS_INITIAL !! id) as [pos|]; [|discriminate].
  intros [= <-]. split; [reflexivity|]. split; [reflexivity|].
  eexists. split; [reflexivity|]. unfold veq. simpl.
  split; [ring|]. split; [ring|]. split; [ring|].
  intros ->. repeat split; ring.
Qed.

(** ** core_objects.py: the munition's equation of motion *)

(** X15: the derivative [grenade_motion_ode] returns.  At a speed of at
    most [1e-6] it is the velocity and gravity alone, whatever the mass,
    zero included.  At a higher speed a zero mass raises
    ZeroDivisionError; another mass gives the velocity and gravity plus
    the drag [-(drag_factor / mass) * speed * velocity], which for a
    non-negative [drag_factor / mass] does not point along the
    velocity. *)
Theorem grenade_motion_ode_cases `{NumPy} (t : Q) (y : state6) (mass drag_factor : Q) :
  (norm (st_vel y) <= 1e-6 ->
   grenade_motion_ode t y mass drag_factor
   = Ok (State6 (st_vel y) (vadd (Vec3 0.0 0.0 (- G)) (Vec3 0.0 0.0 0.0))))
  /\ (1e-6 < norm (st_vel y) -> mass == 0 ->
      grenade_motion_ode t y mass drag_factor = Raise ZeroDivisionError)
  /\ (1e-6 < norm (st_vel y) -> ~ mass == 0 ->
      exists drag_accel,
        grenade_motion_ode t y mass drag_factor
        = Ok (State6 (st_vel y) (vadd (Vec3 0.0 0.0 (- G)) drag_accel))
        /\ drag_accel = vscale (- (drag_factor / mass) * norm (st_vel y)) (st_vel y)
        /\ (0 <= drag_factor / mass -> np_dot drag_accel (st_vel y) <= 0)).
Proof.
  unfold grenade_motion_ode. split; [|split].
  - intros Hs. replace (Qltb 1e-6 (norm (st_vel y))) with false
      by (symmetry; apply Qltb_ge; exact Hs). reflexivity.
  - intros Hs Hm. replace (Qltb 1e-6 (norm (st_vel y))) with true
      by (symmetry; apply Qltb_lt; exact Hs).
    replace (Qeq_bool mass 0) with true by (symmetry; apply Qeq_bool_iff; exact Hm).
    reflexivity.
  - intros Hs Hm. replace (Qltb 1e-6 (norm (st_vel y))) with true
      by (symmetry; apply Qltb_lt; exact Hs).
    replace (Qeq_bool mass 0) with false
      by (symmetry; apply not_true_is_false; intros E; apply Qeq_bool_iff in E; contradiction).
    eexists. split; [reflexivity|]. split; [reflexivity|].
    intros Hk. unfold np_dot, vscale. simpl.
    set (v := st_vel y). set (s := norm v) in *. set (k := drag_factor / mass) in *.
    assert (0 <= s) as Hs0.
    { apply Qlt_le_weak. apply Qlt_trans with 1e-6; [reflexivity | exact Hs]. }
    assert (0 <= k * s) by (apply Qmult_le_0_compat; assumption).
    assert (0 <= vx v * vx v) by nra.
    assert (0 <= vy v * vy v) by nra.
    assert (0 <= vz v * vz v) by nra.
    assert (0 <= (k * s) * (vx v * vx v + vy v * vy v + vz v * vz v))
      by (apply Qmult_le_0_compat; lra).
    apply Qle_trans with (- ((k * s) * (vx v * vx v + vy v * vy v + vz v * vz v))); [|lra].
    apply Qle_lteq. right. ring.
Qed.

(** ** 5.问题五贪心+遗传/threat_assessor.py *)

Lemma py_sum_from (l : list Q) (a : Q) : fold_left Qplus l a == a + np_sum l.
Proof.
  revert a. induction l as [|x l IH]; intros a; simpl; [ring|].
  rewrite IH. ring.
Qed.

Lemma py_sum_np_sum (l : list Q) : py_sum l == np_sum l.
Proof. unfold py_sum. rewrite py_sum_from. ring. Qed.

Section Threat.
Context `{NumPy}.
Hypothesis np_sqrt_nonneg : forall x, 0 <= np_sqrt x.

Lemma Qmin_unit (x : Q) : 0 <= x -> 0 <= Qmin 1.0 x /\ Qmin 1.0 x <= 1.
Proof.
  intros Hx. split; [apply Q.min_glb; lra|].
  apply Qle_trans with 1.0; [apply Q.le_min_l | lra].
Qed.

Lemma Qmax_unit (x : Q) : x <= 1 -> 0 <= Qmax 0.0 x /\ Qmax 0.0 x <= 1.
Proof.
  intros Hx. split; [|apply Q.max_lub; lra].
  apply Qle_trans with 0.0; [lra | apply Q.le_max_l].
Qed.

Lemma calculate_criticality_range (missile_id : string) :
  0 <= calculate_criticality missile_id /\ calculate_criticality missile_id <= 1.
Proof.
  unfold calculate_criticality.
  destruct (MISSILES_INITIAL !! missile_id) as [specs|] eqn:Es; [|split; lra].
  destruct (MISSILES_INITIAL_specs _ _ Es) as [Hspeed _]. rewrite Hspeed.
  set (d := norm _). set (alt := Qabs _).
  assert (0 <= d) as Hd by apply np_sqrt_nonneg.
  assert (0 <= alt) as Halt by apply Qabs_nonneg.
  assert (Qmin 1.0 (300.0 / 400.0) == 0.75) as Hsp by (vm_compute; reflexivity).
  rewrite Hsp.
  destruct (Qmax_unit (1.0 - d / 25000.0)) as [H1 H2].
  { assert (0 <= d / 25000.0) by (apply Qle_shift_div_l; lra). lra. }
  destruct (Qmax_unit (1.0 - alt / 2000.0)) as [H3 H4].
  { assert (0 <= alt / 2000.0) by (apply Qle_shift_div_l; lra). lra. }
  split; lra.
Qed.

Lemma calculate_difficulty_range (missile_id : string) :
  0 <= calculate_difficulty missile_id /\ calculate_difficulty missile_id <= 1.
Proof.
  unfold calculate_difficulty.
  destruct (MISSILES_INITIAL !! missile_id) as [specs|] eqn:Es; [|split; lra].
  set (lat := Qabs _). set (alt := Qabs _). set (d := norm _).
  assert (0 <= d) as Hd by apply np_sqrt_nonneg.
  assert (0 <= lat) as Hlat by apply Qabs_nonneg.
  assert (0 <= alt) as Halt by apply Qabs_nonneg.
  destruct (Qmin_unit (lat / 1000.0)) as [H1 H2]; [apply Qle_shift_div_l; lra|].
  destruct (Qmin_unit (alt / 1000.0)) as [H3 H4]; [apply Qle_shift_div_l; lra|].
  destruct (Qmin_unit (d / 20000.0)) as [H5 H6]; [apply Qle_shift_div_l; lra|].
  split; lra.
Qed.

Lemma calculate_time_to_impact_nonneg (missile_id : string) :
  0 <= calculate_time_to_impact missile_id.
Proof.
  unfold calculate_time_to_impact.
  destruct (MISSILES_INITIAL !! missile_id) as [specs|] eqn:Es; [|lra].
  destruct (MISSILES_INITIAL_specs _ _ Es) as [Hspeed _]. rewrite Hspeed.
  apply Qle_shift_div_l; [lra|]. pose proof (np_sqrt_nonneg (np_dot
    (vsub (missile_target specs) (missile_pos specs))
    (vsub (missile_target specs) (missile_pos specs)))) as Hn.
  unfold norm. lra.
Qed.

Lemma overall_threat_nonneg (missile_id : string) (fw : FactorWeights) :
  0 <= fw_tti fw -> 0 <= fw_crit fw -> 0 <= fw_diff fw ->
  0 <= overall_threat (assess_single_missile_threat missile_id (Some fw)).
Proof.
  intros H1 H2 H3. unfold assess_single_missile_threat. simpl.
  pose proof (calculate_time_to_impact_nonneg missile_id) as Ht.
  destruct (calculate_criticality_range missile_id) as [Hc _].
  destruct (calculate_difficulty_range missile_id) as [Hd _].
  assert (0 <= 1.0 / (1.0 + calculate_time_to_impact missile_id / 60.0)) as Hs.
  { apply Qle_shift_div_l; [|lra].
    assert (0 <= calculate_time_to_impact missile_id / 60.0) by (apply Qle_shift_div_l; lra).
    lra. }
  pose proof (Qmult_le_0_compat _ _ H1 Hs). pose proof (Qmult_le_0_compat _ _ H2 Hc).
  pose proof (Qmult_le_0_compat _ _ H3 Hd). lra.
Qed.

(** X16: the threat scores are scores.  With a square root that is not
    negative, for every missile id, of the configuration or not,
    [calculate_criticality] and [calculate_difficulty] are between 0 and
    1, and [calculate_time_to_impact] is not negative. *)
Theorem threat_scores_in_unit_interval (missile_id : string) :
  0 <= calculate_criticality missile_id /\ calculate_criticality missile_id <= 1
  /\ 0 <= calculate_difficulty missile_id /\ calculate_difficulty missile_id <= 1
  /\ 0 <= calculate_time_to_impact missile_id.
Proof.
  destruct (calculate_criticality_range missile_id) as [H1 H2].
  destruct (calculate_difficulty_range missile_id) as [H3 H4].
  pose proof (calculate_time_to_impact_nonneg missile_id) as H5.
  repeat split; assumption.
Qed.

End Threat.

Lemma assess_threat_weights_value `{NumPy} (factor_weights : option FactorWeights) :
  let fw := match factor_weights with None => FactorWeights_default | Some fw => fw end in
  let s1 := overall_threat (assess_single_missile_threat "M1" (Some fw)) in
  let s2 := overall_threat (assess_single_missile_threat "M2" (Some fw)) in
  let s3 := overall_threat (assess_single_missile_threat "M3" (Some fw)) in
  let T := 0 + s1 + s2 + s3 in
  assess_threat_weights factor_weights
  = if Qltb 0.0 T
    then [("M1"%string, s1 / T); ("M2"%string, s2 / T); ("M3"%string, s3 / T)]
    else [("M1"%string, 1.0 / inject_Z 3); ("M2"%string, 1.0 / inject_Z 3);
          ("M3"%string, 1.0 / inject_Z 3)].
Proof.
  cbv zeta. unfold assess_threat_weights, MISSILES_INITIAL_keys, py_sum.
  cbn [fmap list_fmap fold_left snd fst length Z.of_nat Pos.of_succ_nat Pos.succ].
  destruct (Qltb 0.0 _); reflexivity.
Qed.

Lemma normalised_weights (s1 s2 s3 : Q) :
  let T := 0 + s1 + s2 + s3 in
  let weights :=
    if Qltb 0.0 T
    then [("M1"%string, s1 / T); ("M2"%string, s2 / T); ("M3"%string, s3 / T)]
    else [("M1"%string, 1.0 / inject_Z 3); ("M2"%string, 1.0 / inject_Z 3);
          ("M3"%string, 1.0 / inject_Z 3)] in
  fst <$> weights = MISSILES_INITIAL_keys
  /\ py_sum (snd <$> weights) == 1
  /\ (0 <= s1 -> 0 <= s2 -> 0 <= s3 -> Forall (fun p => 0 <= snd p /\ snd p <= 1) weights).
Proof.
  cbv zeta. destruct (Qltb 0.0 _) eqn:E.
  - apply Qltb_lt in E. split; [reflexivity|]. split.
    + unfold py_sum. cbn [fmap list_fmap fold_left snd]. field. lra.
    + intros H1 H2 H3.
      repeat constructor; cbn [snd];
        try (apply Qle_shift_div_l; lra); try (apply Qle_shift_div_r; lra).
  - split; [reflexivity|]. split; [vm_compute; reflexivity|].
    intros _ _ _. repeat constructor; vm_compute; discriminate.
Qed.

(** X17: the threat weights are normalised.  Whatever the factor weights,
    [assess_threat_weights] returns one weight for each missile of the
    configuration, in the order of the configuration, and the weights sum
    to 1: each is its score over the total when the total is positive,
    and one third otherwise.  With factor weights that are not negative
    (and a square root that is not negative) every weight is between 0
    and 1. *)
Theorem assess_threat_weights_normalised `{NumPy} (factor_weights : option FactorWeights) :
  fst <$> assess_threat_weights factor_weights = MISSILES_INITIAL_keys
  /\ py_sum (snd <$> assess_threat_weights factor_weights) == 1
  /\ ((forall x, 0 <= np_sqrt x) ->
      (forall fw, factor_weights = Some fw ->
                  0 <= fw_tti fw /\ 0 <= fw_crit fw /\ 0 <= fw_diff fw) ->
      Forall (fun p => 0 <= snd p /\ snd p <= 1) (assess_threat_weights factor_weights)).
Proof.
  rewrite (assess_threat_weights_value factor_weights).
  set (fw := match factor_weights with None => FactorWeights_default | Some fw => fw end).
  destruct (normalised_weights
              (overall_threat (assess_single_missile_threat "M1" (Some fw)))
              (overall_threat (assess_single_missile_threat "M2" (Some fw)))
              (overall_threat (assess_single_missile_threat "M3" (Some fw))))
    as (Hkeys & Hsum & Hrange).
  split; [exact Hkeys|]. split; [exact Hsum|].
  intros Hsqrt Hfw.
  assert (0 <= fw_tti fw /\ 0 <= fw_crit fw /\ 0 <= fw_diff fw) as (Hf1 & Hf2 & Hf3).
  { unfold fw. destruct factor_weights as [fw0|]; [apply Hfw; reflexivity|].
    simpl. repeat split; lra. }
  apply Hrange; apply overall_threat_nonneg; assumption.
Qed.

(** ** 3.解答代码_solve1_2/optimizer.py: the score *)

Section Objective12.
Context `{NumPy} `{SciPy}.

Lemma sample_instants_size (self : ObscurationOptimizer12) (smoke_clouds : list SmokeCloud)
    (ts : list Q) (acc : gset Z) :
  (size (fold_left (sample_instant12 self smoke_clouds) ts acc) <= size acc + length ts)%nat.
Proof.
  revert acc. induction ts as [|t ts IH]; intros acc; simpl; [lia|].
  etransitivity; [apply IH|]. unfold sample_instant12.
  destruct (existsb _ _); [|lia].
  rewrite size_union_alt, size_singleton.
  assert (size (acc ∖ {[py_round (t / time_step12 self)]}) <= size acc)%nat as Hd.
  { apply subseteq_size. apply subseteq_difference_l. reflexivity. }
  lia.
Qed.

Lemma np_arange_length (start stop step : Q) (ts : list Q) :
  np_arange start stop step = Ok ts ->
  length ts = Z.to_nat (Qceiling ((stop - start) / step)).
Proof.
  unfold np_arange. destruct (Qeq_bool step 0); [discriminate|].
  intros [= <-]. rewrite length_map, length_seq. reflexivity.
Qed.

(** The score of a strategy whose clouds were built. *)
Lemma objective_function12_score (self : ObscurationOptimizer12)
    (parse : list Q -> exc strategy) (dv : list Q) (v : Q) :
  objective_function12 self parse dv = Ok v ->
  v = 0
  \/ exists strategies c cs k,
       parse dv = Ok strategies
       /\ build_smoke_clouds strategies [] = Ok (c :: cs)
       /\ v = - (inject_Z (Z.of_nat k) * time_step12 self)
       /\ (k <= Z.to_nat (Qceiling ((py_max (end_time c) (end_time <$> cs)
                                     - py_min (start_time c) (start_time <$> cs))
                                    / time_step12 self)))%nat.
Proof.
  unfold objective_function12. destruct (parse dv) as [strategies|e]; simpl; [|discriminate].
  destruct (build_smoke_clouds strategies []) as [[|c cs]|e] eqn:Eb.
  - intros [= <-]. left. reflexivity.
  - destruct (np_arange _ _ _) as [ts|e] eqn:Ets; simpl; [|discriminate].
    intros [= <-]. right. eexists strategies, c, cs, _.
    split; [reflexivity|]. split; [exact Eb|]. split; [reflexivity|].
    pose proof (sample_instants_size self (c :: cs) ts ∅) as Hsize.
    rewrite size_empty in Hsize. rewrite <- (np_arange_length _ _ _ _ Ets). lia.
  - destruct e; try discriminate; intros [= <-]; left; reflexivity.
Qed.

End Objective12.

Section Problem2.
Context `{NumPy} `{SciPy}.

Lemma build_smoke_clouds_p2 (speed angle t_d t_f : Q) :
  build_smoke_clouds [("FY1"%string, UavStrat speed angle [GrenadeStrat t_d t_f])] []
  = match UAV_init "FY1" with
    | Ok uav =>
        match deploy_grenade (set_flight_strategy uav speed angle) t_d t_f with
        | Ok grenade => Ok [generate_smoke_cloud grenade]
        | Raise e => Raise e
        end
    | Raise e => Raise e
    end.
Proof.
  simpl. destruct (UAV_init "FY1") as [uav|e]; simpl; [|reflexivity].
  destruct (deploy_grenade _ _ _) as [g|e]; reflexivity.
Qed.

Lemma ObscurationOptimizer12_init_time_step (missile_id : string)
    (uav_assignments : gmap string nat) (self : ObscurationOptimizer12) :
  ObscurationOptimizer12_init missile_id uav_assignments = Ok self -> time_step12 self = 0.1.
Proof.
  unfold ObscurationOptimizer12_init. destruct (Missile_init missile_id); simpl; [|discriminate].
  intros [= <-]. reflexivity.
Qed.

(** X18: the score of problem 2.  For the optimizer of solve_problem_2.py
    (one carrier, one munition): a decision vector that has not four
    entries makes [objective_function] raise ValueError, the decoding
    being outside the [try]; a score that is returned is [-k * 0.1] for a
    number [k <= 200] of sampled instants, so between [-CLOUD_DURATION]
    and 0: the obscured time never exceeds the 20 s a cloud lasts; and a
    score is returned whenever the munition's trajectory is solved. *)
Theorem problem2_score_bounds (missile_id : string) (uav_assignments : gmap string nat)
    (self : ObscurationOptimizer12) (dv : list Q) :
  ObscurationOptimizer12_init missile_id uav_assignments = Ok self ->
  (length dv <> 4%nat ->
   objective_function12 self _parse_decision_variables_p2 dv = Raise ValueError)
  /\ (forall v,
        objective_function12 self _parse_decision_variables_p2 dv = Ok v ->
        - CLOUD_DURATION <= v /\ v <= 0
        /\ exists k : nat, (k <= 200)%nat /\ v == - (inject_Z (Z.of_nat k) * 0.1))
  /\ (forall speed angle t_d t_f uav grenade,
        dv = [speed; angle; t_d; t_f] ->
        UAV_init "FY1" = Ok uav ->
        deploy_grenade (set_flight_strategy uav speed angle) t_d t_f = Ok grenade ->
        exists v, objective_function12 self _parse_decision_variables_p2 dv = Ok v).
Proof.
  intros Hinit. pose proof (ObscurationOptimizer12_init_time_step _ _ _ Hinit) as Hstep.
  split; [|split].
  - intros Hlen. unfold objective_function12.
    destruct dv as [|a [|b [|c [|d [|e dv]]]]]; try reflexivity. simpl in Hlen. lia.
  - intros v Hv.
    apply objective_function12_score in Hv as [->|(strategies & c & cs & k & Hp & Hb & -> & Hk)].
    { split; [unfold CLOUD_DURATION; lra|]. split; [lra|]. exists 0%nat. split; [lia|].
      simpl. ring. }
    assert (cs = [] /\ end_time c = start_time c + CLOUD_DURATION) as [-> Hend].
    { destruct dv as [|speed [|angle [|t_d [|t_f [|x dv]]]]]; try discriminate.
      injection Hp as <-. rewrite build_smoke_clouds_p2 in Hb.
      destruct (UAV_init "FY1") as [uav|e]; [|discriminate].
      destruct (deploy_grenade _ _ _) as [g|e]; [|discriminate].
      injection Hb as <- <-. split; reflexivity. }
    simpl in Hk. rewrite Hend, Hstep in Hk. rewrite Hstep.
    assert ((start_time c + CLOUD_DURATION - start_time c) / 0.1 == inject_Z 200) as Hq.
    { unfold CLOUD_DURATION. field. }
    rewrite Hq, Qceiling_Z in Hk.
    assert (0 <= inject_Z (Z.of_nat k) /\ inject_Z (Z.of_nat k) <= 200) as [Hk0 Hk1].
    { split.
      - change 0 with (inject_Z 0). rewrite <- Zle_Qle. lia.
      - change 200 with (inject_Z 200). rewrite <- Zle_Qle. lia. }
    split; [unfold CLOUD_DURATION; lra|]. split; [lra|].
    exists k. split; [lia | reflexivity].
  - intros speed angle t_d t_f uav grenade -> Huav Hg.
    unfold objective_function12. simpl _parse_decision_variables_p2.
    change (Ok ?x ≫= ?k) with (k x). cbv beta.
    rewrite build_smoke_clouds_p2, Huav, Hg.
    unfold np_arange. rewrite Hstep.
    replace (Qeq_bool 0.1 0) with false by reflexivity.
    eexists. reflexivity.
Qed.

End Problem2.

(** ** 5.问题五py转为cpp/optimizer.py: what the decoder returns *)

Lemma dict_set_fresh {V : Type} (d : pydict V) (k : string) (v : V) :
  k ∉ d.*1 -> dict_set d k v = d ++ [(k, v)].
Proof.
  induction d as [|[k' v'] d IH]; intros Hk; simpl; [reflexivity|].
  destruct (String.eqb k' k) eqn:E.
  - apply String.eqb_eq in E. subst k'. exfalso. apply Hk. left.
  - f_equal. apply IH. intros Hin. apply Hk. right. exact Hin.
Qed.

Lemma dv_get_Some (dv : list Q) (i : nat) (x : Q) : dv !! i = Some x -> dv_get dv i = Ok x.
Proof. intros Hx. unfold dv_get. rewrite Hx. reflexivity. Qed.

Lemma py_int_nonneg (x : Q) : 0 <= x -> (0 <= py_int x)%Z.
Proof.
  intros Hx. unfold py_int. apply Z.quot_pos; [|lia].
  unfold Qle in Hx. simpl in Hx. lia.
Qed.

Lemma py_getitem_nonneg {A : Type} (l : list A) (i : Z) :
  (0 <= i < Z.of_nat (length l))%Z -> exists a, py_getitem l i = Ok a /\ a ∈ l.
Proof.
  intros Hi. unfold py_getitem.
  replace (i <? 0)%Z with false by (symmetry; apply Z.ltb_ge; lia).
  replace (i <? 0)%Z with false by (symmetry; apply Z.ltb_ge; lia).
  destruct (lookup_lt_is_Some_2 l (Z.to_nat i) ltac:(lia)) as [a Ha].
  rewrite Ha. exists a. split; [reflexivity|]. eapply list_elem_of_lookup_2. exact Ha.
Qed.

Section Decoded.
Variable self : GlobalOptimizer.
Variable dv : list Q.
Variables Pspeed Pangle Pfirst Pdelta Pfuse : Q -> Prop.
Hypothesis Hnum : num_missiles self = length (missile_ids self).
Hypothesis Hpos : (0 < num_missiles self)%nat.

Lemma target_missile_selected (sel : Q) :
  0 <= sel ->
  exists m,
    py_getitem (missile_ids self)
      (Z.min (py_int (sel * inject_Z (Z.of_nat (num_missiles self))))
             (Z.of_nat (num_missiles self) - 1)) = Ok m
    /\ m ∈ missile_ids self.
Proof.
  intros Hsel. apply py_getitem_nonneg.
  assert (0 <= py_int (sel * inject_Z (Z.of_nat (num_missiles self))))%Z.
  { apply py_int_nonneg. apply Qmult_le_0_compat; [exact Hsel|].
    change 0 with (inject_Z 0). rewrite <- Zle_Qle. lia. }
  rewrite <- Hnum. lia.
Qed.

Lemma parse_grenades_decodes (k i : nat) (last_td : Q) (dv_index : nat)
    (gs : list grenade_strat5) :
  grenade_entries Pfirst Pdelta Pfuse dv k i dv_index ->
  exists new,
    parse_grenades self dv k i last_td dv_index gs = Ok (gs ++ new, (dv_index + 3 * k)%nat)
    /\ length new = k
    /\ Forall (fun g => target_missile g ∈ missile_ids self /\ Pfuse (t_fuse5 g)) new
    /\ deploy_chain Pfirst Pdelta i last_td new.
Proof.
  revert i last_td dv_index gs.
  induction k as [|k IH]; intros i last_td dv_index gs Hent; simpl.
  - exists []. rewrite app_nil_r. replace (dv_index + 0)%nat with dv_index by lia.
    repeat split; constructor.
  - destruct (Hent 0%nat ltac:(lia)) as (x & tf & sel & Hx & Htf & Hsel & Hfirst & Hfuse & Hs).
    replace (dv_index + 3 * 0)%nat with dv_index in * by lia.
    replace (i + 0 =? 0)%nat with (i =? 0)%nat in Hfirst by (f_equal; lia).
    rewrite (dv_get_Some _ _ _ Hx), (dv_get_Some _ _ _ Htf), (dv_get_Some _ _ _ Hsel). simpl.
    destruct (target_missile_selected sel Hs) as (m & Hm & Hin). rewrite Hm. simpl.
    set (t_d := if (i =? 0)%nat then x else last_td + x).
    destruct (IH (S i) t_d (dv_index + 3)%nat (gs ++ [GrenadeStrat5 t_d tf m]))
      as (new & Hrun & Hlen & Hall & Hchain).
    { intros j Hj.
      destruct (Hent (S j) ltac:(lia)) as (x' & tf' & sel' & H1 & H2 & H3 & H4 & H5 & H6).
      exists x', tf', sel'.
      replace (dv_index + 3 + 3 * j)%nat with (dv_index + 3 * S j)%nat by lia.
      replace (S i + j =? 0)%nat with (i + S j =? 0)%nat by (f_equal; lia).
      repeat split; assumption. }
    exists (GrenadeStrat5 t_d tf m :: new). rewrite Hrun.
    split; [f_equal; f_equal; [rewrite <- app_assoc; reflexivity | lia]|].
    split; [simpl; lia|]. split; [constructor; [split; assumption | exact Hall]|].
    simpl. split; [|exact Hchain]. unfold t_d.
    destruct (i =? 0)%nat; [exact Hfirst | exists x; split; [exact Hfirst | reflexivity]].
Qed.

Lemma parse_uavs_decodes (ids : list string) (dv_index : nat) (strategy : strategy5) :
  NoDup ids ->
  (forall id, id ∈ ids -> id ∉ strategy.*1) ->
  carrier_entries Pspeed Pangle Pfirst Pdelta Pfuse (uav_grenade_counts self) dv ids dv_index ->
  exists new,
    parse_uavs self dv ids dv_index strategy = Ok (strategy ++ new)
    /\ new.*1 = ids
    /\ Forall (carrier_decoded Pspeed Pangle Pfirst Pdelta Pfuse self) new.
Proof.
  revert dv_index strategy.
  induction ids as [|uav_id ids IH]; intros dv_index strategy Hnd Hfresh Hent; simpl.
  - exists []. rewrite app_nil_r. repeat split; constructor.
  - destruct Hent as (n & speed & angle & Hn & Hs & Ha & HPs & HPa & Hg & Hrest).
    rewrite Hn. simpl.
    assert (dv_slice dv dv_index (dv_index + 2) = [speed; angle]) as ->.
    { unfold dv_slice. replace (dv_index + 2 - dv_index)%nat with 2%nat by lia.
      apply list_eq. intros [|[|j]].
      - rewrite lookup_take_lt by lia. rewrite lookup_drop.
        replace (dv_index + 0)%nat with dv_index by lia. exact Hs.
      - rewrite lookup_take_lt by lia. rewrite lookup_drop. exact Ha.
      - rewrite lookup_take_ge by lia. reflexivity. }
    simpl.
    destruct (parse_grenades_decodes n 0 0 (dv_index + 2)%nat [] Hg)
      as (gs & Hrun & Hlen & Hall & Hchain).
    rewrite Hrun. simpl.
    apply NoDup_cons in Hnd as [Hnotin Hnd].
    rewrite dict_set_fresh by (apply Hfresh; left).
    destruct (IH (dv_index + 2 + 3 * n)%nat (strategy ++ [(uav_id, UavStrat5 speed angle gs)]) Hnd)
      as (new & Hrun' & Hkeys & Hdec).
    { intros id Hid. rewrite fmap_app. intros Hin. apply elem_of_app in Hin as [Hin|Hin].
      - apply (Hfresh id); [right; exact Hid | exact Hin].
      - simpl in Hin. apply list_elem_of_singleton in Hin. subst id. contradiction. }
    { exact Hrest. }
    exists ((uav_id, UavStrat5 speed angle gs) :: new).
    replace (dv_index + 2 + (n + (n + (n + 0))))%nat with (dv_index + 2 + 3 * n)%nat by lia.
    rewrite Hrun'.
    split; [rewrite <- app_assoc; reflexivity|]. split; [simpl; f_equal; exact Hkeys|].
    constructor; [|exact Hdec]. unfold carrier_decoded. simpl.
    rewrite Hlen. repeat split; assumption.
Qed.

End Decoded.

Lemma deploy_chain_first (Pfirst Pdelta : Q -> Prop) (last_td : Q)
    (gs : list grenade_strat5) (g : grenade_strat5) :
  deploy_chain Pfirst Pdelta 0 last_td gs -> gs !! 0%nat = Some g -> Pfirst (t_deploy5 g).
Proof. destruct gs as [|g0 gs]; [discriminate|]. simpl. intros [Hf _] [= <-]. exact Hf. Qed.

Lemma deploy_chain_steps (Pfirst Pdelta : Q -> Prop) (i : nat) (last_td : Q)
    (gs : list grenade_strat5) (j : nat) (g g' : grenade_strat5) :
  deploy_chain Pfirst Pdelta i last_td gs ->
  gs !! j = Some g -> gs !! S j = Some g' ->
  exists x, Pdelta x /\ t_deploy5 g' = t_deploy5 g + x.
Proof.
  revert i last_td j. induction gs as [|g0 gs IH]; intros i last_td j; [discriminate|].
  simpl. intros [_ Hchain] Hg Hg'. destruct j as [|j].
  - injection Hg as <-. destruct gs as [|g1 gs]; [discriminate|].
    simpl in Hg'. injection Hg' as <-. simpl in Hchain. destruct Hchain as [Hstep _].
    exact Hstep.
  - simpl in Hg, Hg'. eapply IH; eassumption.
Qed.

Section Entries.
Variable counts : gmap string nat.
Variable dv : list Q.

Lemma carrier_entries_nonneg (ids : list string) (dv_index L : nat) :
  schema_length counts ids = Some L ->
  (dv_index + L <= length dv)%nat ->
  Forall (fun x => 0 <= x) dv ->
  carrier_entries (Qle 0) (Qle 0) (Qle 0) (Qle 0) (Qle 0) counts dv ids dv_index.
Proof.
  intros HL Hlen Hnn. rewrite Forall_lookup in Hnn.
  assert (forall p, (p < length dv)%nat -> exists x, dv !! p = Some x /\ 0 <= x) as Hget.
  { intros p Hp. destruct (lookup_lt_is_Some_2 dv p Hp) as [x Hx].
    exists x. split; [exact Hx | eapply Hnn; exact Hx]. }
  revert dv_index L HL Hlen. induction ids as [|uav_id ids IH]; intros dv_index L; simpl; [auto|].
  destruct (counts !! uav_id) as [n|]; simpl; [|discriminate].
  destruct (schema_length counts ids) as [rest|] eqn:Erest; simpl; [|discriminate].
  intros [= <-] Hlen.
  destruct (Hget dv_index ltac:(lia)) as (speed & Hs & Hs0).
  destruct (Hget (dv_index + 1)%nat ltac:(lia)) as (angle & Ha & Ha0).
  exists n, speed, angle. split; [reflexivity|].
  refine (conj Hs (conj Ha (conj Hs0 (conj Ha0 (conj _ _))))).
  - intros j Hj.
    destruct (Hget (dv_index + 2 + 3 * j)%nat ltac:(lia)) as (x & Hx & Hx0).
    destruct (Hget (dv_index + 2 + 3 * j + 1)%nat ltac:(lia)) as (tf & Htf & Htf0).
    destruct (Hget (dv_index + 2 + 3 * j + 2)%nat ltac:(lia)) as (sel & Hsel & Hsel0).
    exists x, tf, sel. refine (conj Hx (conj Htf (conj Hsel (conj _ (conj Htf0 Hsel0))))).
    destruct (0 + j =? 0)%nat; exact Hx0.
  - apply (IH _ rest); [reflexivity | lia].
Qed.

Lemma grenade_bounds_lookup (a n j r : nat) :
  (j < n)%nat -> (r < 3)%nat ->
  concat (grenade_bounds <$> seq a n) !! (3 * j + r)%nat = grenade_bounds (a + j) !! r.
Proof.
  revert a j. induction n as [|n IH]; intros a j Hj Hr; [lia|].
  simpl seq. rewrite fmap_cons, concat_cons. destruct j as [|j].
  - replace (3 * 0 + r)%nat with r by lia. replace (a + 0)%nat with a by lia.
    rewrite lookup_app_l by (simpl; lia). reflexivity.
  - rewrite lookup_app_r by (simpl; lia).
    replace (3 * S j + r - length (grenade_bounds a))%nat with (3 * j + r)%nat by (simpl; lia).
    rewrite IH by lia. replace (a + S j)%nat with (S a + j)%nat by lia. reflexivity.
Qed.

Lemma grenade_bounds_length (a n : nat) :
  length (concat (grenade_bounds <$> seq a n)) = (3 * n)%nat.
Proof.
  revert a. induction n as [|n IH]; intros a; [reflexivity|].
  simpl seq. rewrite fmap_cons, concat_cons, length_app, IH. simpl. lia.
Qed.

Lemma problem5_bounds_length (ids : list string) (bs : list (Q * Q)) :
  problem5_bounds counts ids = Ok bs -> schema_length counts ids = Some (length bs).
Proof.
  revert bs. induction ids as [|uav_id ids IH]; intros bs; simpl.
  - intros [= <-]. reflexivity.
  - destruct (counts !! uav_id) as [n|]; simpl; [|discriminate].
    destruct (problem5_bounds counts ids) as [rest|e]; simpl; [|discriminate].
    intros [= <-]. rewrite (IH rest eq_refl). simpl.
    rewrite length_app, grenade_bounds_length. f_equal.
Qed.

Lemma carrier_entries_bounds (ids : list string) (dv_index : nat) (bs : list (Q * Q)) :
  problem5_bounds counts ids = Ok bs ->
  (forall p b, bs !! p = Some b ->
               exists x, dv !! (dv_index + p)%nat = Some x /\ fst b <= x /\ x <= snd b) ->
  carrier_entries
    (fun x => UAV_SPEED_MIN <= x /\ x <= UAV_SPEED_MAX)
    (fun x => 0 <= x /\ x <= 2 * np_pi)
    (fun x => 0.1 <= x /\ x <= 30.0)
    (fun x => GRENADE_INTERVAL <= x /\ x <= 15.0)
    (fun x => 0.1 <= x /\ x <= 20.0)
    counts dv ids dv_index.
Proof.
  revert dv_index bs. induction ids as [|uav_id ids IH]; intros dv_index bs; simpl; [auto|].
  destruct (counts !! uav_id) as [n|]; simpl; [|discriminate].
  destruct (problem5_bounds counts ids) as [rest|e] eqn:Erest; simpl; [|discriminate].
  intros [= <-] Hget.
  destruct (Hget 0%nat _ eq_refl) as (speed & Hs & Hs1 & Hs2).
  destruct (Hget 1%nat _ eq_refl) as (angle & Ha & Ha1 & Ha2).
  replace (dv_index + 0)%nat with dv_index in Hs by lia.
  exists n, speed, angle. split; [reflexivity|].
  refine (conj Hs (conj Ha (conj (conj Hs1 Hs2) (conj (conj Ha1 Ha2) (conj _ _))))).
  - intros j Hj.
    assert (forall r b, (r < 3)%nat -> grenade_bounds j !! r = Some b ->
              exists x, dv !! (dv_index + 2 + 3 * j + r)%nat = Some x
                        /\ fst b <= x /\ x <= snd b) as Hg.
    { intros r b Hr Hb.
      destruct (Hget (S (S (3 * j + r))) b) as (x & Hx & Hxb).
      - change ((concat (grenade_bounds <$> seq 0 n) ++ rest) !! (3 * j + r)%nat = Some b).
        rewrite lookup_app_l by (rewrite grenade_bounds_length; lia).
        rewrite grenade_bounds_lookup by lia. exact Hb.
      - exists x. split; [|exact Hxb]. rewrite <- Hx. f_equal. lia. }
    destruct (Hg 0%nat _ ltac:(lia) eq_refl) as (x & Hx & Hx1 & Hx2).
    destruct (Hg 1%nat _ ltac:(lia) eq_refl) as (tf & Htf & Htf1 & Htf2).
    destruct (Hg 2%nat _ ltac:(lia) eq_refl) as (sel & Hsel & Hsel1 & Hsel2).
    replace (dv_index + 2 + 3 * j + 0)%nat with (dv_index + 2 + 3 * j)%nat in Hx by lia.
    exists x, tf, sel. refine (conj Hx (conj Htf (conj Hsel (conj _ (conj _ _))))).
    + change (0 + j)%nat with j. unfold grenade_bounds in Hx1, Hx2.
      destruct (j =? 0)%nat; simpl in Hx1, Hx2; split; assumption.
    + simpl in Htf1, Htf2. split; assumption.
    + simpl in Hsel1. lra.
  - apply (IH _ rest eq_refl). intros p b Hb.
    destruct (Hget (S (S (3 * n + p))) b) as (x & Hx & Hxb).
    + change ((concat (grenade_bounds <$> seq 0 n) ++ rest) !! (3 * n + p)%nat = Some b).
      rewrite lookup_app_r by (rewrite grenade_bounds_length; lia).
      rewrite grenade_bounds_length. rewrite <- Hb. f_equal. lia.
    + exists x. split; [|exact Hxb]. rewrite <- Hx. f_equal. lia.
Qed.

End Entries.

(** X19: what the decoder makes of a full vector.  For an optimizer whose
    carriers are distinct and all have a munition count, with at least one
    missile, every decision vector at least as long as the schema and with
    no negative entry is decoded: the strategy has the carriers in the
    order of [uav_ids], each with as many munitions as its count; every
    munition is assigned a missile of [missile_ids], a selector of 1 or
    more being clamped to the last one; and within a carrier the deploy
    times do not decrease, each being the one before it plus the entry
    read. *)
Theorem decoded_strategy_structure (self : GlobalOptimizer) (dv : list Q) (L : nat) :
  schema_length (uav_grenade_counts self) (uav_ids self) = Some L ->
  (L <= length dv)%nat ->
  NoDup (uav_ids self) ->
  num_missiles self = length (missile_ids self) ->
  (0 < num_missiles self)%nat ->
  Forall (fun x => 0 <= x) dv ->
  exists strategy,
    _parse_decision_variables self dv = Ok strategy
    /\ strategy.*1 = uav_ids self
    /\ Forall
         (fun entry =>
            uav_grenade_counts self !! fst entry = Some (length (grenades5 (snd entry)))
            /\ Forall (fun g => target_missile g ∈ missile_ids self) (grenades5 (snd entry))
            /\ forall j g g',
                 grenades5 (snd entry) !! j = Some g ->
                 grenades5 (snd entry) !! S j = Some g' ->
                 t_deploy5 g <= t_deploy5 g')
         strategy.
Proof.
  intros HL Hlen Hnd Hnum Hpos Hnn. unfold _parse_decision_variables.
  destruct (parse_uavs_decodes self dv (Qle 0) (Qle 0) (Qle 0) (Qle 0) (Qle 0) Hnum Hpos
              (uav_ids self) 0 [] Hnd) as (new & Hrun & Hkeys & Hdec).
  { intros id _ Hin. inversion Hin. }
  { apply (carrier_entries_nonneg _ _ _ 0 L HL); [lia | exact Hnn]. }
  exists new. split; [exact Hrun|]. split; [exact Hkeys|].
  eapply Forall_impl; [exact Hdec|]. intros entry (_ & _ & Hcount & Hall & Hchain).
  split; [exact Hcount|]. split.
  - eapply Forall_impl; [exact Hall|]. simpl. tauto.
  - intros j g g' Hg Hg'.
    destruct (deploy_chain_steps _ _ _ _ _ j g g' Hchain Hg Hg') as (x & Hx & ->). lra.
Qed.

(** X20: the bounds of solve_problem_5.py fit the decoder.  The bounds the
    script builds have the length of the decoder's schema, and every
    vector within them is decoded: for each carrier the speed is within
    [[UAV_SPEED_MIN, UAV_SPEED_MAX]], the first deploy time within
    [[0.1, 30]], every fuse time within [[0.1, 20]], every munition has a
    missile of [missile_ids], and two consecutive munitions of a carrier
    are deployed at least [GRENADE_INTERVAL] and at most 15 apart. *)
Theorem problem5_bounds_fit_decoder (self : GlobalOptimizer) (dv : list Q)
    (bounds : list (Q * Q)) :
  problem5_bounds (uav_grenade_counts self) (uav_ids self) = Ok bounds ->
  Forall2 (fun x b => fst b <= x /\ x <= snd b) dv bounds ->
  NoDup (uav_ids self) ->
  num_missiles self = length (missile_ids self) ->
  (0 < num_missiles self)%nat ->
  schema_length (uav_grenade_counts self) (uav_ids self) = Some (length bounds)
  /\ exists strategy,
       _parse_decision_variables self dv = Ok strategy
       /\ strategy.*1 = uav_ids self
       /\ Forall
            (fun entry =>
               UAV_SPEED_MIN <= speed5 (snd entry) /\ speed5 (snd entry) <= UAV_SPEED_MAX
               /\ uav_grenade_counts self !! fst entry
                  = Some (length (grenades5 (snd entry)))
               /\ Forall (fun g => target_missile g ∈ missile_ids self
                                   /\ 0.1 <= t_fuse5 g /\ t_fuse5 g <= 20.0)
                    (grenades5 (snd entry))
               /\ (forall g, grenades5 (snd entry) !! 0%nat = Some g ->
                             0.1 <= t_deploy5 g /\ t_deploy5 g <= 30.0)
               /\ forall j g g',
                    grenades5 (snd entry) !! j = Some g ->
                    grenades5 (snd entry) !! S j = Some g' ->
                    GRENADE_INTERVAL <= t_deploy5 g' - t_deploy5 g
                    /\ t_deploy5 g' - t_deploy5 g <= 15.0)
            strategy.
Proof.
  intros Hb Hin Hnd Hnum Hpos.
  split; [apply problem5_bounds_length; exact Hb|]. unfold _parse_decision_variables.
  destruct (parse_uavs_decodes self dv _ _ _ _ _ Hnum Hpos (uav_ids self) 0 [] Hnd
              ltac:(intros id _ Hi; inversion Hi)
              (carrier_entries_bounds _ dv _ 0 _ Hb
                 ltac:(intros p b Hp;
                       destruct (Forall2_lookup_r _ _ _ _ _ Hin Hp) as (x & Hx & Hxb);
                       exists x; split; [exact Hx | exact Hxb])))
    as (new & Hrun & Hkeys & Hdec).
  exists new. split; [exact Hrun|]. split; [exact Hkeys|].
  eapply Forall_impl; [exact Hdec|].
  intros entry ([Hs1 Hs2] & _ & Hcount & Hall & Hchain).
  refine (conj Hs1 (conj Hs2 (conj Hcount (conj _ (conj _ _))))).
  - eapply Forall_impl; [exact Hall|]. simpl. tauto.
  - intros g Hg. apply (deploy_chain_first _ _ _ _ _ Hchain Hg).
  - intros j g g' Hg Hg'.
    destruct (deploy_chain_steps _ _ _ _ _ j g g' Hchain Hg Hg') as (x & [Hx1 Hx2] & ->).
    split; lra.
Qed.

(** ** boundary_calculator.py: the scan of the deploy times *)

Section Boundary_calculator.
Context `{NumPy} `{SciPy}.

Lemma scan_deploy_times_spec (uav : UAV) (missile : Missile) (target : TargetCylinder)
    (fuse_time_options ts : list Q) (v : Q) :
  let flying := set_flight_strategy uav UAV_SPEED_MAX np_pi in
  let valid t := any_fuse_time_valid flying missile target t fuse_time_options in
  scan_deploy_times uav missile target fuse_time_options ts = Ok v ->
  (v = 40.0 /\ forall j t, ts !! j = Some t -> valid t = Ok true)
  \/ exists k t,
       ts !! k = Some t /\ v = t - 0.5 /\ valid t = Ok false
       /\ forall j t', (j < k)%nat -> ts !! j = Some t' -> valid t' = Ok true.
Proof.
  intros flying valid. revert uav flying valid.
  induction ts as [|t ts IH]; intros uav flying valid; simpl.
  - intros [= <-]. left. split; [reflexivity|]. intros j t Hj. discriminate.
  - fold flying. fold (valid t).
    destruct (valid t) as [[|]|e] eqn:Ev; simpl; [| |discriminate].
    + intros Hscan. destruct (IH flying Hscan) as [[-> Hall]|(k & t' & Hk & -> & Hno & Hall)].
      * left. split; [reflexivity|]. intros [|j] t' Hj; simpl in Hj.
        -- injection Hj as <-. exact Ev.
        -- apply (Hall j t' Hj).
      * right. exists (S k), t'. split; [exact Hk|]. split; [reflexivity|].
        split; [exact Hno|]. intros [|j] t'' Hlt Hj; simpl in Hj.
        -- injection Hj as <-. exact Ev.
        -- apply (Hall j t''); [lia | exact Hj].
    + intros [= <-]. right. exists 0%nat, t. split; [reflexivity|]. split; [reflexivity|].
      split; [exact Ev|]. intros j t' Hlt. lia.
Qed.

Lemma scanned_deploy_times :
  np_arange 0.1 40.0 0.5 = Ok (map (fun i => 0.1 + inject_Z (Z.of_nat i) * 0.5) (seq 0 80)).
Proof. reflexivity. Qed.

(** X21: what [find_max_effective_deploy_time] answers.  For a carrier and
    a missile of the configuration the 80 deploy times [0.1 + 0.5 k] are
    scanned with the carrier at full speed in direction pi.  An answer is
    either the fallback 40.0, every scanned time having a fuse option for
    which the cloud is between missile and target, or half a second
    before the first scanned time without such an option; so it lies
    between -0.4 and 40.  With no fuse option at all the answer is the
    negative time -0.4. *)
Theorem find_max_effective_deploy_time_result
    (uav_id missile_id : string) (uav : UAV) (missile : Missile) (fuse_time_options : list Q) :
  UAV_init uav_id = Ok uav ->
  Missile_init missile_id = Ok missile ->
  let flying := set_flight_strategy uav UAV_SPEED_MAX np_pi in
  let valid t :=
    any_fuse_time_valid flying missile (TargetCylinder_init TRUE_TARGET_SPECS) t
      fuse_time_options in
  let scanned (k : nat) := 0.1 + inject_Z (Z.of_nat k) * 0.5 in
  (fuse_time_options = [] ->
   exists v, find_max_effective_deploy_time uav_id missile_id fuse_time_options = Ok v
             /\ v == - 0.4)
  /\ forall v,
       find_max_effective_deploy_time uav_id missile_id fuse_time_options = Ok v ->
       - 0.4 <= v /\ v <= 40.0
       /\ ((v = 40.0 /\ forall k, (k < 80)%nat -> valid (scanned k) = Ok true)
           \/ exists k, (k < 80)%nat /\ v = scanned k - 0.5
                        /\ valid (scanned k) = Ok false
                        /\ forall j, (j < k)%nat -> valid (scanned j) = Ok true).
Proof.
  intros Hu Hm flying valid scanned.
  unfold find_max_effective_deploy_time. rewrite Hu, Hm, scanned_deploy_times.
  change (Ok uav ≫= ?k) with (k uav). change (Ok missile ≫= ?k) with (k missile).
  cbv beta. change (Ok ?l ≫= ?k) with (k l). cbv beta.
  fold scanned.
  assert (forall k, (k < 80)%nat -> map scanned (seq 0 80) !! k = Some (scanned k)) as Hget.
  { intros k Hk. rewrite list_lookup_fmap, lookup_seq_lt by exact Hk. reflexivity. }
  assert (forall k t, map scanned (seq 0 80) !! k = Some t -> (k < 80)%nat /\ t = scanned k)
    as Hinv.
  { intros k t Hk. assert (k < 80)%nat as Hlt.
    { apply lookup_lt_Some in Hk. rewrite length_map, length_seq in Hk. exact Hk. }
    rewrite (Hget k Hlt) in Hk. injection Hk as <-. split; [exact Hlt | reflexivity]. }
  split.
  - intros ->. exists (scanned 0%nat - 0.5). split; [reflexivity|]. reflexivity.
  - intros v Hscan. apply scan_deploy_times_spec in Hscan. fold flying in Hscan.
    assert (forall k, (k < 80)%nat -> - 0.4 <= scanned k - 0.5 /\ scanned k - 0.5 <= 40.0)
      as Hrange.
    { intros k Hk. unfold scanned.
      assert (0 <= inject_Z (Z.of_nat k) /\ inject_Z (Z.of_nat k) <= 79) as [Hk0 Hk1].
      { split; [change 0 with (inject_Z 0) | change 79 with (inject_Z 79)];
          rewrite <- Zle_Qle; lia. }
      split; lra. }
    destruct Hscan as [[-> Hall]|(k & t & Hk & -> & Hno & Hall)].
    + split; [lra|]. split; [lra|]. left. split; [reflexivity|].
      intros k Hk. apply (Hall k). apply Hget. exact Hk.
    + destruct (Hinv k t Hk) as [Hlt ->]. destruct (Hrange k Hlt) as [Hk0 Hk1].
      split; [exact Hk0|]. split; [exact Hk1|]. right. exists k.
      split; [exact Hlt|]. split; [reflexivity|]. split; [exact Hno|].
      intros j Hj. apply (Hall j); [exact Hj|]. apply Hget. lia.
Qed.

End Boundary_calculator.

(** ** Dicts *)

Lemma dict_get_Ok {V : Type} (d : pydict V) (k : string) :
  k ∈ d.*1 -> exists v, dict_get d k = Ok v.
Proof.
  induction d as [|[k' v'] d IH]; simpl; intros Hk; [inversion Hk|].
  destruct (String.eqb k' k) eqn:E; [eexists; reflexivity|].
  apply IH. apply elem_of_cons in Hk as [->|Hk]; [|exact Hk].
  rewrite String.eqb_refl in E. discriminate.
Qed.

Lemma dict_get_split {V : Type} (d : pydict V) (k : string) (v : V) :
  dict_get d k = Ok v ->
  exists l1 l2, d = l1 ++ (k, v) :: l2 /\ (k ∉ l1.*1)
                /\ forall v', dict_set d k v' = l1 ++ (k, v') :: l2.
Proof.
  induction d as [|[k' v'] d IH]; simpl; [discriminate|].
  destruct (String.eqb k' k) eqn:E.
  - intros [= <-]. apply String.eqb_eq in E. subst k'. exists [], d.
    split; [reflexivity|]. split; [intros Hin; inversion Hin|]. reflexivity.
  - intros Hg. destruct (IH Hg) as (l1 & l2 & -> & Hfresh & Hset).
    exists ((k', v') :: l1), l2. split; [reflexivity|]. split.
    + simpl. intros Hin. apply elem_of_cons in Hin as [->|Hin]; [|exact (Hfresh Hin)].
      rewrite String.eqb_refl in E. discriminate.
    + intros v''. rewrite Hset. reflexivity.
Qed.

Lemma dict_get_app_fresh {V : Type} (l1 l2 : pydict V) (k : string) (v : V) :
  k ∉ l1.*1 -> dict_get (l1 ++ (k, v) :: l2) k = Ok v.
Proof.
  induction l1 as [|[k' v'] l1 IH]; simpl; intros Hk.
  - rewrite String.eqb_refl. reflexivity.
  - destruct (String.eqb k' k) eqn:E.
    + apply String.eqb_eq in E. subst k'. exfalso. apply Hk. left.
    + apply IH. intros Hin. apply Hk. right. exact Hin.
Qed.

Lemma dict_get_elem {V : Type} (d : pydict V) (k : string) (v : V) :
  dict_get d k = Ok v -> (k, v) ∈ d.
Proof.
  intros Hg. destruct (dict_get_split d k v Hg) as (l1 & l2 & -> & _ & _).
  apply elem_of_app. right. left.
Qed.

Lemma dict_set_keys {V : Type} (d : pydict V) (k : string) (v v' : V) :
  dict_get d k = Ok v -> (dict_set d k v').*1 = d.*1.
Proof.
  intros Hg. destruct (dict_get_split d k v Hg) as (l1 & l2 & -> & _ & Hset).
  rewrite Hset, !fmap_app. reflexivity.
Qed.

Lemma dict_get_set {V : Type} (d : pydict V) (k : string) (v v' : V) :
  dict_get d k = Ok v -> dict_get (dict_set d k v') k = Ok v'.
Proof.
  intros Hg. destruct (dict_get_split d k v Hg) as (l1 & l2 & -> & Hfresh & Hset).
  rewrite Hset. apply dict_get_app_fresh. exact Hfresh.
Qed.

Lemma py_sum_int_from (l : list Z) (a : Z) :
  fold_left Z.add l a = (a + py_sum_int l)%Z.
Proof.
  unfold py_sum_int. revert a. induction l as [|x l IH]; intros a; simpl; [lia|].
  rewrite (IH (a + x)%Z), (IH (0 + x)%Z). lia.
Qed.

Lemma py_sum_int_cons (x : Z) (l : list Z) : py_sum_int (x :: l) = (x + py_sum_int l)%Z.
Proof. unfold py_sum_int at 1. simpl. apply py_sum_int_from. Qed.

Lemma py_sum_int_app (l1 l2 : list Z) :
  py_sum_int (l1 ++ l2) = (py_sum_int l1 + py_sum_int l2)%Z.
Proof.
  induction l1 as [|x l1 IH]; [reflexivity|].
  simpl app. rewrite !py_sum_int_cons, IH. lia.
Qed.

Lemma dict_set_sum (d : pydict Z) (k : string) (v v' : Z) :
  dict_get d k = Ok v ->
  py_sum_int (snd <$> dict_set d k v') = (py_sum_int (snd <$> d) - v + v')%Z.
Proof.
  intros Hg. destruct (dict_get_split d k v Hg) as (l1 & l2 & -> & _ & Hset).
  rewrite Hset, !fmap_app, !fmap_cons, !py_sum_int_app, !py_sum_int_cons. simpl. lia.
Qed.

Lemma first_best_elem (better : Q -> Q -> bool) (k : string) (v : Q) (d : pydict Q) :
  first_best better k v d = k \/ first_best better k v d ∈ d.*1.
Proof.
  revert k v. induction d as [|[k' v'] d IH]; intros k v; simpl; [left; reflexivity|].
  destruct (better v' v).
  - right. destruct (IH k' v') as [->|Hin]; [left | right; exact Hin].
  - destruct (IH k v) as [->|Hin]; [left; reflexivity | right; right; exact Hin].
Qed.

Lemma py_max_key_elem (d : pydict Q) :
  d <> [] -> exists m, py_max_key d = Ok m /\ m ∈ d.*1.
Proof.
  destruct d as [|[k v] d]; [congruence|]. intros _. eexists. split; [reflexivity|].
  simpl. destruct (first_best_elem (fun v best_v => Qltb best_v v) k v d) as [->|Hin];
    [left | right; exact Hin].
Qed.

Lemma py_min_key_elem (d : pydict Q) :
  d <> [] -> exists m, py_min_key d = Ok m /\ m ∈ d.*1.
Proof.
  destruct d as [|[k v] d]; [congruence|]. intros _. eexists. split; [reflexivity|].
  simpl. destruct (first_best_elem (fun v best_v => Qltb v best_v) k v d) as [->|Hin];
    [left | right; exact Hin].
Qed.

Lemma dict_comprehension_fresh {V : Type} (f : string -> exc V) (keys : list string)
    (d : pydict V) :
  NoDup keys ->
  (forall k, k ∈ keys -> k ∉ d.*1) ->
  (forall k, k ∈ keys -> exists v, f k = Ok v) ->
  exists new,
    dict_comprehension f keys d = Ok (d ++ new)
    /\ new.*1 = keys /\ Forall (fun p => f (fst p) = Ok (snd p)) new.
Proof.
  revert d. induction keys as [|k keys IH]; intros d Hnd Hfresh Hf; simpl.
  - exists []. rewrite app_nil_r. repeat split. constructor.
  - apply NoDup_cons in Hnd as [Hk Hnd].
    destruct (Hf k ltac:(left)) as [v Hv]. rewrite Hv.
    change (Ok v ≫= ?g) with (g v). cbv beta.
    rewrite (dict_set_fresh d k v (Hfresh k ltac:(left))).
    destruct (IH (d ++ [(k, v)]) Hnd) as (new & Hrun & Hkeys & Hall).
    + intros k' Hk'. rewrite fmap_app, elem_of_app. intros [Hin|Hin].
      * apply (Hfresh k' ltac:(right; exact Hk') Hin).
      * simpl in Hin. apply list_elem_of_singleton in Hin. subst k'. exact (Hk Hk').
    + intros k' Hk'. apply Hf. right. exact Hk'.
    + exists ((k, v) :: new). rewrite Hrun, <- app_assoc. split; [reflexivity|].
      split; [rewrite fmap_cons, Hkeys; reflexivity|]. constructor; [exact Hv | exact Hall].
Qed.

Lemma insert_before_perm {A : Type} (goes_first : A -> A -> bool) (x : A) (l : list A) :
  insert_before goes_first x l ≡ₚ x :: l.
Proof.
  induction l as [|y l IH]; simpl; [reflexivity|].
  destruct (goes_first y x); [|reflexivity].
  rewrite IH. apply Permutation_swap.
Qed.

Lemma sorted_by_perm {A : Type} (goes_first : A -> A -> bool) (l : list A) :
  sorted_by goes_first l ≡ₚ l.
Proof.
  unfold sorted_by. induction l as [|x l IH]; simpl; [reflexivity|].
  rewrite insert_before_perm, IH. reflexivity.
Qed.

(** ** The number of carriers for each missile *)

Section Allocation.
Variable threat_weights : pydict Q.
Variable missile_ids : list string.
Variable num_uavs : nat.
Hypothesis Hweights : threat_weights <> [].
Hypothesis Hkeys : forall m, m ∈ threat_weights.*1 -> m ∈ missile_ids.
Hypothesis Hget : forall m, m ∈ missile_ids -> m ∈ threat_weights.*1.
Hypothesis Hnd : NoDup missile_ids.

Lemma rounded_allocation_ok :
  exists temp_alloc,
    rounded_allocation threat_weights missile_ids num_uavs = Ok temp_alloc
    /\ temp_alloc.*1 = missile_ids.
Proof.
  unfold rounded_allocation.
  destruct (dict_comprehension_fresh
              (fun m_id => w ← dict_get threat_weights m_id;
                           Ok (py_round (w * inject_Z (Z.of_nat num_uavs))))
              missile_ids [] Hnd) as (new & Hrun & Hk & _).
  - intros k _ Hin. inversion Hin.
  - intros k Hk. destruct (dict_get_Ok threat_weights k (Hget k Hk)) as [w Hw].
    rewrite Hw. eexists. reflexivity.
  - exists new. split; [exact Hrun | exact Hk].
Qed.

Lemma raise_total_ok (fuel : nat) (temp_alloc : pydict Z) (current_total : Z) :
  temp_alloc.*1 = missile_ids ->
  (Z.to_nat (Z.of_nat num_uavs - current_total) <= fuel)%nat ->
  exists alloc,
    raise_total fuel threat_weights num_uavs temp_alloc current_total
    = Some (Ok (alloc, Z.max current_total (Z.of_nat num_uavs)))
    /\ alloc.*1 = missile_ids
    /\ py_sum_int (snd <$> alloc)
       = (py_sum_int (snd <$> temp_alloc)
          + (Z.max current_total (Z.of_nat num_uavs) - current_total))%Z.
Proof.
  revert temp_alloc current_total.
  induction fuel as [|fuel IH]; intros temp_alloc current_total Hk Hfuel.
  - simpl. destruct (Z.ltb_spec current_total (Z.of_nat num_uavs)); [lia|].
    exists temp_alloc. rewrite Z.max_l by lia. split; [reflexivity|].
    split; [exact Hk | lia].
  - simpl. destruct (Z.ltb_spec current_total (Z.of_nat num_uavs)) as [Hlt|Hge].
    + destruct (py_max_key_elem threat_weights Hweights) as (m & Hm & Hin). rewrite Hm.
      change (Ok m ≫= ?g) with (g m). cbv beta.
      destruct (dict_get_Ok temp_alloc m) as [n Hn].
      { rewrite Hk. apply Hkeys. exact Hin. }
      rewrite Hn. change (Ok n ≫= ?g) with (g n). cbv beta. simpl loop_bind.
      destruct (IH (dict_set temp_alloc m (n + 1)%Z) (current_total + 1)%Z) as (alloc & Hrun & Ha & Hs).
      * rewrite (dict_set_keys _ _ _ _ Hn). exact Hk.
      * lia.
      * exists alloc. rewrite Hrun. replace (Z.max (current_total + 1) (Z.of_nat num_uavs))
          with (Z.max current_total (Z.of_nat num_uavs)) by lia.
        split; [reflexivity|]. split; [exact Ha|].
        rewrite Hs, (dict_set_sum _ _ _ _ Hn). lia.
    + exists temp_alloc. rewrite Z.max_l by lia. split; [reflexivity|].
      split; [exact Hk | lia].
Qed.

Lemma lower_total_threat_ok (fuel : nat) (temp_alloc : pydict Z) (current_total : Z) :
  temp_alloc.*1 = missile_ids ->
  (Z.to_nat (current_total - Z.of_nat num_uavs) <= fuel)%nat ->
  exists alloc total,
    lower_total_threat fuel threat_weights num_uavs temp_alloc current_total
    = Some (Ok (alloc, total))
    /\ alloc.*1 = missile_ids.
Proof.
  revert temp_alloc current_total.
  induction fuel as [|fuel IH]; intros temp_alloc current_total Hk Hfuel.
  - simpl. destruct (Z.ltb_spec (Z.of_nat num_uavs) current_total); [lia|].
    exists temp_alloc, current_total. split; [reflexivity | exact Hk].
  - simpl. destruct (Z.ltb_spec (Z.of_nat num_uavs) current_total) as [Hlt|Hge].
    + destruct (py_min_key_elem threat_weights Hweights) as (m & Hm & Hin). rewrite Hm.
      change (Ok m ≫= ?g) with (g m). cbv beta.
      destruct (dict_get_Ok temp_alloc m) as [n Hn].
      { rewrite Hk. apply Hkeys. exact Hin. }
      rewrite Hn. change (Ok n ≫= ?g) with (g n). cbv beta. simpl loop_bind.
      apply IH; [|lia].
      destruct (0 <? n)%Z; [|exact Hk]. rewrite (dict_set_keys _ _ _ _ Hn). exact Hk.
    + exists temp_alloc, current_total. split; [reflexivity | exact Hk].
Qed.

Lemma lower_total_optimal_ok (fuel : nat) (temp_alloc : pydict Z) (current_total : Z)
    (m : string) (n : Z) :
  temp_alloc.*1 = missile_ids ->
  py_min_key threat_weights = Ok m ->
  dict_get temp_alloc m = Ok n ->
  (current_total - Z.of_nat num_uavs <= Z.max n 0)%Z ->
  (Z.to_nat (current_total - Z.of_nat num_uavs) <= fuel)%nat ->
  exists alloc,
    lower_total_optimal fuel threat_weights num_uavs temp_alloc current_total
    = Some (Ok (alloc, Z.min current_total (Z.of_nat num_uavs)))
    /\ alloc.*1 = missile_ids
    /\ py_sum_int (snd <$> alloc)
       = (py_sum_int (snd <$> temp_alloc)
          - (current_total - Z.min current_total (Z.of_nat num_uavs)))%Z.
Proof.
  intros Hk Hm. revert temp_alloc current_total n Hk.
  induction fuel as [|fuel IH]; intros temp_alloc current_total n Hk Hn Hex Hfuel.
  - simpl. destruct (Z.ltb_spec (Z.of_nat num_uavs) current_total); [lia|].
    exists temp_alloc. rewrite Z.min_l by lia. split; [reflexivity|]. split; [exact Hk | lia].
  - simpl. destruct (Z.ltb_spec (Z.of_nat num_uavs) current_total) as [Hlt|Hge].
    + rewrite Hm. change (Ok m ≫= ?g) with (g m). cbv beta.
      rewrite Hn. change (Ok n ≫= ?g) with (g n). cbv beta. simpl loop_bind.
      destruct (Z.ltb_spec 0 n) as [Hpos|Hneg]; [|lia]. cbn [fst snd].
      destruct (IH (dict_set temp_alloc m (n - 1)%Z) (current_total - 1)%Z (n - 1)%Z)
        as (alloc & Hrun & Ha & Hs).
      * rewrite (dict_set_keys _ _ _ _ Hn). exact Hk.
      * apply (dict_get_set _ _ _ _ Hn).
      * lia.
      * lia.
      * exists alloc. rewrite Hrun.
        replace (Z.min (current_total - 1) (Z.of_nat num_uavs))
          with (Z.min current_total (Z.of_nat num_uavs)) by lia.
        split; [reflexivity|]. split; [exact Ha|].
        rewrite Hs, (dict_set_sum _ _ _ _ Hn). lia.
    + exists temp_alloc. rewrite Z.min_l by lia. split; [reflexivity|]. split; [exact Hk | lia].
Qed.

Lemma lower_total_optimal_stuck (fuel : nat) (temp_alloc : pydict Z) (current_total : Z)
    (m : string) (n : Z) :
  py_min_key threat_weights = Ok m ->
  dict_get temp_alloc m = Ok n ->
  (Z.max n 0 < current_total - Z.of_nat num_uavs)%Z ->
  lower_total_optimal fuel threat_weights num_uavs temp_alloc current_total = None.
Proof.
  intros Hm. revert temp_alloc current_total n.
  induction fuel as [|fuel IH]; intros temp_alloc current_total n Hn Hex; simpl;
    destruct (Z.ltb_spec (Z.of_nat num_uavs) current_total) as [Hlt|Hge]; try lia;
    [reflexivity|].
  rewrite Hm. change (Ok m ≫= ?g) with (g m). cbv beta.
  rewrite Hn. change (Ok n ≫= ?g) with (g n). cbv beta. simpl loop_bind.
  destruct (Z.ltb_spec 0 n) as [Hpos|Hneg]; cbn [fst snd].
  - apply (IH _ _ (n - 1)%Z); [apply (dict_get_set _ _ _ _ Hn) | lia].
  - apply (IH _ _ n); [exact Hn | lia].
Qed.

End Allocation.

Lemma raise_total_skip (fuel : nat) (threat_weights : pydict Q) (num_uavs : nat)
    (temp_alloc : pydict Z) (current_total : Z) :
  (Z.of_nat num_uavs <= current_total)%Z ->
  raise_total fuel threat_weights num_uavs temp_alloc current_total
  = Some (Ok (temp_alloc, current_total)).
Proof.
  intros Hle. destruct fuel; simpl;
    destruct (Z.ltb_spec current_total (Z.of_nat num_uavs)); try lia; reflexivity.
Qed.

Lemma lower_total_optimal_skip (fuel : nat) (threat_weights : pydict Q) (num_uavs : nat)
    (temp_alloc : pydict Z) (current_total : Z) :
  (current_total <= Z.of_nat num_uavs)%Z ->
  lower_total_optimal fuel threat_weights num_uavs temp_alloc current_total
  = Some (Ok (temp_alloc, current_total)).
Proof.
  intros Hle. destruct fuel; simpl;
    destruct (Z.ltb_spec (Z.of_nat num_uavs) current_total); try lia; reflexivity.
Qed.

Lemma missile_weights_keys (threat_weights : pydict Q) :
  threat_weights.*1 ≡ₚ MISSILES_INITIAL_keys ->
  threat_weights <> []
  /\ (forall m, m ∈ threat_weights.*1 -> m ∈ MISSILES_INITIAL_keys)
  /\ (forall m, m ∈ MISSILES_INITIAL_keys -> m ∈ threat_weights.*1)
  /\ NoDup MISSILES_INITIAL_keys.
Proof.
  intros Hp. split; [|split; [|split]].
  - intros ->. apply Permutation_length in Hp. discriminate.
  - intros m Hm. rewrite <- Hp. exact Hm.
  - intros m Hm. rewrite Hp. exact Hm.
  - apply NoDup_ListNoDup. repeat constructor; simpl; intuition discriminate.
Qed.

(** X22: when the allocation of 5.问题五py转为cpp/task_allocator.py ends.
    For a dict of weights whose keys are the three missiles, let [n] be
    the rounded number of carriers of the missile of the least weight and
    [excess] the sum of the rounded numbers minus the 5 carriers.  If
    [excess <= max n 0] the two loops end, without an exception, and the
    numbers then sum to 5.  Otherwise the second loop never ends: the
    missile of the least weight has no carrier left to give up and the
    total is not counted down, whatever the number of iterations. *)
Theorem allocation_requirements_optimal_ends_iff (threat_weights : pydict Q) :
  threat_weights.*1 ≡ₚ MISSILES_INITIAL_keys ->
  exists temp_alloc m n,
    rounded_allocation threat_weights MISSILES_INITIAL_keys 5 = Ok temp_alloc
    /\ py_min_key threat_weights = Ok m
    /\ dict_get temp_alloc m = Ok n
    /\ let excess := (py_sum_int (snd <$> temp_alloc) - 5)%Z in
       ((excess <= Z.max n 0)%Z ->
        exists fuel alloc,
          allocation_requirements_optimal fuel threat_weights = Some (Ok alloc)
          /\ alloc.*1 = MISSILES_INITIAL_keys
          /\ py_sum_int (snd <$> alloc) = 5%Z)
       /\ ((Z.max n 0 < excess)%Z ->
           forall fuel, allocation_requirements_optimal fuel threat_weights = None).
Proof.
  intros Hp. destruct (missile_weights_keys _ Hp) as (Hne & Hkeys & Hget & Hnd).
  destruct (rounded_allocation_ok threat_weights MISSILES_INITIAL_keys 5 Hget Hnd)
    as (temp_alloc & Hround & Hk).
  destruct (py_min_key_elem threat_weights Hne) as (m & Hm & Hin).
  destruct (dict_get_Ok temp_alloc m) as [n Hn]; [rewrite Hk; apply Hkeys; exact Hin|].
  exists temp_alloc, m, n. split; [exact Hround|]. split; [exact Hm|]. split; [exact Hn|].
  intros excess. unfold allocation_requirements_optimal.
  change (py_sorted MISSILES_INITIAL_keys) with MISSILES_INITIAL_keys.
  change (length (py_sorted UAVS_INITIAL_keys)) with 5%nat.
  rewrite Hround. simpl loop_bind. split.
  - intros Hex. destruct (Z.le_gt_cases (py_sum_int (snd <$> temp_alloc)) 5) as [Hle|Hgt].
    + exists (Z.to_nat (5 - py_sum_int (snd <$> temp_alloc))).
      destruct (raise_total_ok threat_weights MISSILES_INITIAL_keys 5 Hne Hkeys
                  (Z.to_nat (5 - py_sum_int (snd <$> temp_alloc))) temp_alloc
                  (py_sum_int (snd <$> temp_alloc)) Hk ltac:(simpl; lia))
        as (alloc & Hrun & Ha & Hs).
      exists alloc. rewrite Hrun. simpl loop_bind.
      rewrite lower_total_optimal_skip by (simpl; lia). simpl.
      split; [reflexivity|]. split; [exact Ha|]. rewrite Hs. simpl. lia.
    + exists (Z.to_nat (py_sum_int (snd <$> temp_alloc) - 5)).
      rewrite raise_total_skip by (simpl; lia). simpl loop_bind.
      destruct (lower_total_optimal_ok threat_weights MISSILES_INITIAL_keys 5
                  (Z.to_nat (py_sum_int (snd <$> temp_alloc) - 5)) temp_alloc
                  (py_sum_int (snd <$> temp_alloc)) m n Hk Hm Hn
                  ltac:(unfold excess in Hex; simpl; lia) ltac:(simpl; lia))
        as (alloc & Hrun & Ha & Hs).
      exists alloc. cbn [fst snd]. rewrite Hrun. simpl.
      split; [reflexivity|]. split; [exact Ha|]. rewrite Hs. simpl. lia.
  - intros Hex fuel. rewrite raise_total_skip by (unfold excess in Hex; simpl; lia).
    simpl loop_bind. cbn [fst snd].
    rewrite (lower_total_optimal_stuck threat_weights 5 fuel temp_alloc _ m n Hm Hn);
      [reflexivity|]. unfold excess in Hex. simpl. lia.
Qed.

(** ** The greedy assignment *)

Lemma elem_of_concat {A : Type} (x : A) (ls : list (list A)) (l : list A) :
  x ∈ l -> l ∈ ls -> x ∈ concat ls.
Proof.
  intros Hx Hl. apply list_elem_of_In, in_concat. exists l.
  split; apply list_elem_of_In; assumption.
Qed.

Lemma assigned_carriers_set (assignments : pydict (pydict nat)) (missile_id : string)
    (uav_alloc : pydict nat) (u : string) :
  dict_get assignments missile_id = Ok uav_alloc ->
  u ∉ uav_alloc.*1 ->
  assigned_carriers (dict_set assignments missile_id (dict_set uav_alloc u 3%nat))
  ≡ₚ u :: assigned_carriers assignments.
Proof.
  intros Hg Hu. destruct (dict_get_split _ _ _ Hg) as (l1 & l2 & -> & _ & Hset).
  rewrite Hset, (dict_set_fresh uav_alloc u 3%nat Hu). unfold assigned_carriers.
  rewrite !fmap_app, !fmap_cons, !concat_app, !concat_cons. cbn [snd].
  rewrite fmap_app. simpl. rewrite <- !app_assoc. simpl.
  rewrite Permutation_middle. apply Permutation_app_head.
  rewrite (Permutation_app_comm (uav_alloc.*1) (u :: _)). simpl. constructor.
  rewrite Permutation_app_comm. reflexivity.
Qed.

Section Greedy.
Variable costs : pydict (pydict Q).
Variable allocation_requirements : pydict Z.
Variables uav_ids missile_ids : list string.
Hypothesis Hcosts :
  forall u, u ∈ uav_ids ->
    exists row, dict_get costs u = Ok row
                /\ forall m, m ∈ missile_ids -> exists c, dict_get row m = Ok c.
Hypothesis Halloc : allocation_requirements.*1 = missile_ids.
Hypothesis Hnd : NoDup uav_ids.

Lemma candidates_of_ok (missile_id : string) (assigned_uavs : gset string)
    (ids : list string) :
  missile_id ∈ missile_ids ->
  (forall u, u ∈ ids -> u ∈ uav_ids) ->
  NoDup ids ->
  exists candidates,
    candidates_of costs missile_id assigned_uavs ids = Ok candidates
    /\ NoDup candidates.*1
    /\ forall u, u ∈ candidates.*1 -> u ∈ ids /\ u ∉ assigned_uavs.
Proof.
  intros Hm. induction ids as [|u ids IH]; intros Hsub Hnd'; simpl.
  - exists []. split; [reflexivity|]. split; [constructor|]. intros u Hu. inversion Hu.
  - apply NoDup_cons in Hnd' as [Hu Hnd'].
    destruct IH as (tl & Hrun & Hndtl & Hin); [intros u' Hu'; apply Hsub; right; exact Hu' | exact Hnd' |].
    destruct (decide (u ∈ assigned_uavs)) as [Hass|Hfree].
    + exists tl. split; [exact Hrun|]. split; [exact Hndtl|].
      intros u' Hu'. destruct (Hin u' Hu') as [H1 H2]. split; [right; exact H1 | exact H2].
    + destruct (Hcosts u (Hsub u ltac:(left))) as (row & Hrow & Hc).
      destruct (Hc missile_id Hm) as [c Hcm].
      rewrite Hrow. change (Ok row ≫= ?g) with (g row). cbv beta.
      rewrite Hcm. change (Ok c ≫= ?g) with (g c). cbv beta.
      rewrite Hrun. change (Ok tl ≫= ?g) with (g tl). cbv beta.
      exists ((u, c) :: tl). split; [reflexivity|]. rewrite fmap_cons. cbn [fst]. split.
      * apply NoDup_cons. split; [|exact Hndtl]. intros Hu'. apply Hu. apply (Hin u Hu').
      * intros u' Hu'. apply elem_of_cons in Hu' as [->|Hu'].
        -- split; [left | exact Hfree].
        -- destruct (Hin u' Hu') as [H1 H2]. split; [right; exact H1 | exact H2].
Qed.

Lemma assign_candidates_ok (candidates : list (string * Q)) (missile_id : string)
    (indices : list nat) (assignments : pydict (pydict nat)) (assigned_uavs : gset string) :
  missile_id ∈ missile_ids ->
  NoDup candidates.*1 ->
  (forall u, u ∈ candidates.*1 -> u ∈ uav_ids) ->
  NoDup indices ->
  (forall i, i ∈ indices ->
     exists c, candidates !! i = Some c /\ fst c ∉ assigned_uavs) ->
  assignment_kept uav_ids missile_ids assignments assigned_uavs ->
  exists st,
    assign_candidates candidates missile_id indices assignments assigned_uavs = Ok st
    /\ assignment_kept uav_ids missile_ids (fst st) (snd st).
Proof.
  intros Hm Hndc Hsub. revert assignments assigned_uavs.
  induction indices as [|i indices IH]; intros assignments assigned_uavs Hndi Hfree Hok; simpl.
  - eexists. split; [reflexivity | exact Hok].
  - apply NoDup_cons in Hndi as [Hi Hndi].
    destruct (Hfree i ltac:(left)) as (c & Hc & Hcfree). rewrite Hc.
    change (Ok c ≫= ?g) with (g c). cbv beta.
    destruct Hok as (Hk & Hnda & Hass & Hall).
    destruct (dict_get_Ok assignments missile_id) as [uav_alloc Hua]; [rewrite Hk; exact Hm|].
    rewrite Hua. change (Ok uav_alloc ≫= ?g) with (g uav_alloc). cbv beta.
    assert (fst c ∉ assigned_carriers assignments) as Hnew.
    { intros Hin. apply Hcfree. apply Hass. exact Hin. }
    assert (fst c ∉ uav_alloc.*1) as Hnew'.
    { intros Hin. apply Hnew. unfold assigned_carriers.
      apply (elem_of_concat _ _ (uav_alloc.*1)); [exact Hin|].
      apply list_elem_of_fmap. exists (missile_id, uav_alloc). split; [reflexivity|].
      apply dict_get_elem. exact Hua. }
    pose proof (assigned_carriers_set assignments missile_id uav_alloc (fst c) Hua Hnew')
      as Hperm.
    apply IH; [exact Hndi| |].
    + intros j Hj. destruct (Hfree j ltac:(right; exact Hj)) as (c' & Hc' & Hc'free).
      exists c'. split; [exact Hc'|]. intros Hin.
      apply elem_of_union in Hin as [Hin|Hin]; [|exact (Hc'free Hin)].
      apply elem_of_singleton in Hin.
      assert (i = j) as ->.
      { eapply NoDup_lookup; [exact Hndc| |].
        - rewrite list_lookup_fmap, Hc. reflexivity.
        - rewrite list_lookup_fmap, Hc'. simpl. f_equal. exact Hin. }
      exact (Hi Hj).
    + split; [|split; [|split]].
      * rewrite (dict_set_keys _ _ _ _ Hua). exact Hk.
      * rewrite Hperm. apply NoDup_cons. split; [exact Hnew | exact Hnda].
      * intros u Hu. rewrite Hperm in Hu. apply elem_of_cons in Hu as [->|Hu].
        -- apply elem_of_union. left. apply elem_of_singleton. reflexivity.
        -- apply elem_of_union. right. apply Hass. exact Hu.
      * destruct (dict_get_split _ _ _ Hua) as (l1 & l2 & -> & _ & Hset).
        rewrite Hset. apply Forall_app in Hall as [H1 H2].
        apply Forall_cons in H2 as [H2 H3]. apply Forall_app. split; [exact H1|].
        apply Forall_cons. split; [|exact H3]. cbn [snd] in *.
        rewrite (dict_set_fresh uav_alloc (fst c) 3%nat Hnew').
        apply Forall_app. split; [exact H2|]. apply Forall_singleton. split; [|reflexivity].
        apply Hsub. apply list_elem_of_fmap. exists c. split; [reflexivity|].
        eapply list_elem_of_lookup_2. exact Hc.
Qed.

Lemma assign_missiles_ok (order : list string) (assignments : pydict (pydict nat))
    (assigned_uavs : gset string) :
  assignment_kept uav_ids missile_ids assignments assigned_uavs ->
  exists result assigned,
    assign_missiles costs allocation_requirements uav_ids order assignments assigned_uavs
    = Ok result
    /\ assignment_kept uav_ids missile_ids result assigned.
Proof.
  revert assignments assigned_uavs.
  induction order as [|missile_id order IH]; intros assignments assigned_uavs Hok; simpl.
  - exists assignments, assigned_uavs. split; [reflexivity | exact Hok].
  - destruct (dict_get allocation_requirements missile_id) as [n|e] eqn:En;
      [|apply IH; exact Hok].
    destruct (n =? 0)%Z eqn:E0; [apply IH; exact Hok|].
    assert (missile_id ∈ missile_ids) as Hm.
    { rewrite <- Halloc. apply list_elem_of_fmap. exists (missile_id, n).
      split; [reflexivity|]. apply dict_get_elem. exact En. }
    destruct (candidates_of_ok missile_id assigned_uavs uav_ids Hm (fun u Hu => Hu) Hnd)
      as (candidates & Hrun & Hndc & Hin).
    rewrite Hrun. change (Ok candidates ≫= ?g) with (g candidates). cbv beta.
    set (sorted := sorted_by (fun y x => Qltb (snd y) (snd x)) candidates).
    assert (sorted ≡ₚ candidates) as Hperm by apply sorted_by_perm.
    destruct (assign_candidates_ok sorted missile_id
                (seq 0 (Z.to_nat (Z.min n (Z.of_nat (length sorted)))))
                assignments assigned_uavs Hm) as (st & Hst & Hok').
    + rewrite Hperm. exact Hndc.
    + intros u Hu. rewrite Hperm in Hu. apply (Hin u Hu).
    + apply NoDup_seq.
    + intros i Hi. apply elem_of_seq in Hi.
      destruct (lookup_lt_is_Some_2 sorted i ltac:(lia)) as [c Hc].
      exists c. split; [exact Hc|]. apply (Hin (fst c)). rewrite <- Hperm.
      apply list_elem_of_fmap. exists c. split; [reflexivity|].
      eapply list_elem_of_lookup_2. exact Hc.
    + exact Hok.
    + rewrite Hst. change (Ok st ≫= ?g) with (g st). cbv beta. apply IH. exact Hok'.
Qed.

End Greedy.

Lemma dict_get_Forall {V : Type} (P : string * V -> Prop) (d : pydict V) (k : string) (v : V) :
  Forall P d -> dict_get d k = Ok v -> P (k, v).
Proof.
  intros Hall Hg. rewrite Forall_forall in Hall. apply Hall, dict_get_elem, Hg.
Qed.

Lemma UAVS_INITIAL_has (u : string) : u ∈ UAVS_INITIAL_keys -> is_Some (UAVS_INITIAL !! u).
Proof.
  unfold UAVS_INITIAL_keys. intros Hu.
  repeat (apply elem_of_cons in Hu as [->|Hu]; [eexists; vm_compute; reflexivity|]).
  inversion Hu.
Qed.

Lemma MISSILES_INITIAL_has (m : string) :
  m ∈ MISSILES_INITIAL_keys -> is_Some (MISSILES_INITIAL !! m).
Proof.
  unfold MISSILES_INITIAL_keys. intros Hm.
  repeat (apply elem_of_cons in Hm as [->|Hm]; [eexists; vm_compute; reflexivity|]).
  inversion Hm.
Qed.

Lemma UAVS_INITIAL_keys_NoDup : NoDup UAVS_INITIAL_keys.
Proof. apply NoDup_ListNoDup. repeat constructor; simpl; intuition discriminate. Qed.

Lemma uav_missile_costs_ok `{NumPy} :
  exists costs,
    uav_missile_costs UAVS_INITIAL_keys MISSILES_INITIAL_keys = Ok costs
    /\ forall u, u ∈ UAVS_INITIAL_keys ->
         exists row, dict_get costs u = Ok row
                     /\ forall m, m ∈ MISSILES_INITIAL_keys -> exists c, dict_get row m = Ok c.
Proof.
  assert (NoDup MISSILES_INITIAL_keys) as Hndm.
  { apply NoDup_ListNoDup. repeat constructor; simpl; intuition discriminate. }
  unfold uav_missile_costs.
  set (inner := fun u_id : string => dict_comprehension _ MISSILES_INITIAL_keys []).
  assert (forall u, u ∈ UAVS_INITIAL_keys ->
            exists row, inner u = Ok row /\ row.*1 = MISSILES_INITIAL_keys) as Hinner.
  { intros u Hu. unfold inner.
    destruct (dict_comprehension_fresh
                (fun m_id =>
                   uav_spec ← match UAVS_INITIAL !! u with
                              | Some spec => Ok spec
                              | None => Raise KeyError
                              end;
                   missile_spec ← match MISSILES_INITIAL !! m_id with
                                  | Some spec => Ok spec
                                  | None => Raise KeyError
                                  end;
                   Ok (calculate_engagement_time_cost uav_spec missile_spec))
                MISSILES_INITIAL_keys [] Hndm) as (new & Hrun & Hk & _).
    - intros k _ Hin. inversion Hin.
    - intros m Hm. destruct (UAVS_INITIAL_has u Hu) as [us ->].
      destruct (MISSILES_INITIAL_has m Hm) as [ms ->]. eexists. reflexivity.
    - exists new. split; [exact Hrun | exact Hk]. }
  destruct (dict_comprehension_fresh inner UAVS_INITIAL_keys [] UAVS_INITIAL_keys_NoDup)
    as (costs & Hrun & Hk & Hall).
  - intros k _ Hin. inversion Hin.
  - intros u Hu. destruct (Hinner u Hu) as (row & Hrow & _). exists row. exact Hrow.
  - exists costs. split; [exact Hrun|]. intros u Hu.
    destruct (dict_get_Ok costs u) as [row Hrow]; [rewrite Hk; exact Hu|].
    exists row. split; [exact Hrow|].
    pose proof (dict_get_Forall _ _ _ _ Hall Hrow) as Hf. cbn [fst snd] in Hf.
    destruct (Hinner u Hu) as (row' & Hrow' & Hkeys). rewrite Hf in Hrow'.
    injection Hrow' as <-. intros m Hm. apply dict_get_Ok. rewrite Hkeys. exact Hm.
Qed.

Lemma allocation_requirements_threat_ok (threat_weights : pydict Q) :
  threat_weights.*1 ≡ₚ MISSILES_INITIAL_keys ->
  exists fuel alloc,
    allocation_requirements_threat fuel threat_weights MISSILES_INITIAL_keys 5
    = Some (Ok alloc)
    /\ alloc.*1 = MISSILES_INITIAL_keys.
Proof.
  intros Hp. destruct (missile_weights_keys _ Hp) as (Hne & Hkeys & Hget & Hnd).
  destruct (rounded_allocation_ok threat_weights MISSILES_INITIAL_keys 5 Hget Hnd)
    as (temp_alloc & Hround & Hk).
  set (total := py_sum_int (snd <$> temp_alloc)).
  exists (Z.to_nat (Z.abs (total - 5))).
  unfold allocation_requirements_threat. rewrite Hround. simpl loop_bind. fold total.
  destruct (raise_total_ok threat_weights MISSILES_INITIAL_keys 5 Hne Hkeys
              (Z.to_nat (Z.abs (total - 5))) temp_alloc total Hk ltac:(simpl; lia))
    as (alloc & Hrun & Ha & _).
  rewrite Hrun. simpl loop_bind. cbn [fst snd].
  destruct (lower_total_threat_ok threat_weights MISSILES_INITIAL_keys 5 Hne Hkeys
              (Z.to_nat (Z.abs (total - 5))) alloc (Z.max total (Z.of_nat 5)) Ha ltac:(simpl; lia))
    as (alloc' & total' & Hrun' & Ha').
  rewrite Hrun'. simpl. exists alloc'. split; [reflexivity | exact Ha'].
Qed.

(** X23: the greedy allocator gives no carrier two missiles.  For a dict of
    weights whose keys are the three missiles, [assign_tasks_by_threat] of
    5.问题五py转为cpp3/task_allocator.py ends without an exception; the
    assignment it returns has an entry for each missile, in the order of
    [MISSILES_INITIAL]; no carrier is under two missiles, nor twice under
    one; and every carrier in it is one of [UAVS_INITIAL], with 3
    munitions. *)
Theorem assign_tasks_by_threat_disjoint `{NumPy} (threat_weights : pydict Q) :
  threat_weights.*1 ≡ₚ MISSILES_INITIAL_keys ->
  exists fuel assignments,
    assign_tasks_by_threat fuel threat_weights = Some (Ok assignments)
    /\ assignments.*1 = MISSILES_INITIAL_keys
    /\ NoDup (assigned_carriers assignments)
    /\ Forall (fun entry =>
                 Forall (fun q => fst q ∈ UAVS_INITIAL_keys /\ snd q = 3%nat) (snd entry))
         assignments.
Proof.
  intros Hp. destruct (allocation_requirements_threat_ok threat_weights Hp)
    as (fuel & alloc & Halloc & Hk).
  destruct uav_missile_costs_ok as (costs & Hcosts & Hrows).
  assert (NoDup MISSILES_INITIAL_keys) as Hndm.
  { apply NoDup_ListNoDup. repeat constructor; simpl; intuition discriminate. }
  destruct (dict_comprehension_fresh (fun _ : string => Ok (@nil (string * nat)))
              MISSILES_INITIAL_keys [] Hndm) as (assignments & Hinit & Hkeys & Hempty).
  { intros k _ Hin. inversion Hin. }
  { intros k _. eexists. reflexivity. }
  simpl app in Hinit.
  assert (Forall (fun entry : string * pydict nat => snd entry = []) assignments) as Hnil.
  { eapply Forall_impl; [exact Hempty|]. intros entry He. cbv beta in *.
    injection He as He. symmetry. exact He. }
  assert (assigned_carriers assignments = []) as Hnone.
  { clear -Hnil. unfold assigned_carriers.
    induction Hnil as [|entry l He _ IH]; [reflexivity|].
    rewrite fmap_cons, concat_cons. cbv beta. rewrite IH.
    destruct entry as [k uav_alloc]. cbn [snd] in He |- *. subst uav_alloc. reflexivity. }
  destruct (assign_missiles_ok costs alloc UAVS_INITIAL_keys MISSILES_INITIAL_keys
              Hrows Hk UAVS_INITIAL_keys_NoDup
              (fst <$> sorted_by (fun y x => Qltb (snd x) (snd y)) threat_weights)
              assignments ∅) as (result & assigned & Hrun & Hok).
  { split; [exact Hkeys|]. split; [rewrite Hnone; constructor|].
    split; [intros u Hu; rewrite Hnone in Hu; inversion Hu|].
    eapply Forall_impl; [exact Hnil|]. intros [k uav_alloc] He. cbn [snd] in He |- *.
    subst uav_alloc. constructor. }
  exists fuel, result. unfold assign_tasks_by_threat.
  change (length UAVS_INITIAL_keys) with 5%nat. rewrite Halloc. simpl loop_bind.
  rewrite Hcosts. change (Ok costs ≫= ?g) with (g costs). cbv beta.
  simpl in Hinit. injection Hinit as Hinit. rewrite Hinit, Hrun. destruct Hok as (H1 & H2 & _ & H4).
  split; [reflexivity|]. split; [exact H1|]. split; [exact H2 | exact H4].
Qed.

(** ** The executable generator meets what is relied on *)

Lemma lcg_unit_range (s : Z) : 0 <= lcg_unit s /\ lcg_unit s <= 1.
Proof.
  unfold lcg_unit, Qle. simpl.
  pose proof (Z.mod_pos_bound (s / 65536) 1000 ltac:(lia)). lia.
Qed.

Lemma lcg_random_range : @NpRandomRange Z lcg_random.
Proof.
  split.
  - intros low high w Hb. eexists _, _. split; [reflexivity|].
    destruct (lcg_unit_range w) as [H0 H1].
    assert (0 <= (high - low) * lcg_unit w) by (apply Qmult_le_0_compat; lra).
    assert (0 <= (high - low) * (1 - lcg_unit w)) by (apply Qmult_le_0_compat; lra).
    split; lra.
  - intros loc scale w _. eexists _, _. reflexivity.
Qed.

Lemma lcg_random_choice : @NpRandomChoice Z lcg_random.
Proof.
  split.
  - intros a size w Hs. simpl.
    replace (size <=? length a)%nat with true by (symmetry; apply Nat.leb_le; exact Hs).
    eexists _, _. split; [reflexivity|]. split.
    + rewrite length_take, length_rotate. lia.
    + apply Forall_forall. intros r Hr. apply elem_of_take in Hr as (i & Hr & _).
      eapply elem_of_rotate. eapply list_elem_of_lookup_2. exact Hr.
  - intros a size w Hs. simpl.
    replace (size <=? length a)%nat with false by (symmetry; apply Nat.leb_gt; exact Hs).
    eexists. reflexivity.
Qed.

Lemma clip_bounds_proper : proper_bounds clip_cfg.
Proof.
  split; [reflexivity|]. split; [reflexivity|].
  repeat constructor; vm_compute; discriminate.
Qed.

Lemma clip_outcome_returns :
  @optimize Z lcg_random clip_cfg (clip_self, clip_world)
  = (Ok clip_result, (fst (snd clip_outcome), snd (snd clip_outcome))).
Proof. vm_compute. reflexivity. Qed.

(** ** Runs on the executable implementations *)

Lemma handle_boundary_within_bounds_witness :
  exists y w',
    @handle_boundary Z lcg_random clip_cfg [7; -6.5] 3%Z = (Ok y, w')
    /\ length y = 2%nat /\ within_bounds clip_cfg y.
Proof.
  destruct (@handle_boundary_within_bounds Z lcg_random lcg_random_range clip_cfg [7; -6.5] 3%Z
              clip_bounds_proper eq_refl) as (y & w' & Hy & Hlen & Hin & _).
  exists y, w'. split; [exact Hy|]. split; [exact Hlen | exact Hin].
Defined.

Lemma generate_parameters_ranges_witness :
  exists F CR w',
    @generate_parameters Z lcg_random (AdaptiveParameters_init 100) 42%Z = (Ok (F, CR), w')
    /\ 0 < F /\ F <= 2 /\ 0 <= CR /\ CR <= 1.
Proof.
  destruct (@generate_parameters_ranges Z lcg_random lcg_random_range
              (AdaptiveParameters_init 100) 42%Z ltac:(vm_compute; discriminate)
              ltac:(vm_compute; discriminate))
    as (F & CR & w' & Hrun & H1 & H2 & H3 & H4 & _).
  exists F, CR, w'. repeat split; assumption.
Defined.

Lemma select_strategy_probabilities_witness :
  exists weights : list Q,
    mapM (strategy_weight (strategy_selector clip_self))
      [DE_RAND_1; DE_BEST_1; DE_CURRENT_TO_BEST_1; DE_RAND_2] = Ok weights
    /\ np_sum ((fun x => x / np_sum weights) <$> weights) == 1.
Proof.
  destruct (@select_strategy_probabilities Z lcg_random (strategy_selector clip_self) 0%Z
              (StrategySelector_init_ok _) ltac:(discriminate))
    as (weights & Hw & _ & _ & _ & Hsum & _).
  exists weights. split; [exact Hw | exact Hsum].
Defined.

Lemma mutate_needs_individuals_witness :
  (exists mutant w',
     @mutate Z lcg_random [[1; 2]; [3; 4]; [5; 6]; [7; 8]; [9; 10]; [11; 12]] 0 1 DE_RAND_2 0.5 7%Z
     = (Ok mutant, w') /\ length mutant = 2%nat)
  /\ exists w',
       @mutate Z lcg_random [[1; 2]; [3; 4]; [5; 6]; [7; 8]; [9; 10]] 0 1 DE_RAND_2 0.5 7%Z
       = (Raise ValueError, w').
Proof.
  split.
  - apply (@mutate_needs_individuals Z lcg_random lcg_random_choice
             [[1; 2]; [3; 4]; [5; 6]; [7; 8]; [9; 10]; [11; 12]] 0 1 DE_RAND_2 0.5 7%Z 2);
      [repeat constructor | simpl; lia | simpl; lia | simpl; lia].
  - apply (@mutate_needs_individuals Z lcg_random lcg_random_choice
             [[1; 2]; [3; 4]; [5; 6]; [7; 8]; [9; 10]] 0 1 DE_RAND_2 0.5 7%Z 2);
      [repeat constructor | simpl; lia | simpl; lia | simpl; lia | right; reflexivity].
Defined.

Lemma update_population_size_keeps_individuals_witness :
  length (population (update_population_size sphere_cfg
                        (set_generation 1 (set_fitness [3; 1; 2; 5; 4; 0]
                           (set_population [[3]; [1]; [2]; [5]; [4]; [0]] sphere_self)))))
  = 5%nat.
Proof.
  destruct (update_population_size_keeps_individuals sphere_cfg
              (set_generation 1 (set_fitness [3; 1; 2; 5; 4; 0]
                 (set_population [[3]; [1]; [2]; [5]; [4]; [0]] sphere_self))) eq_refl)
    as (_ & _ & _ & _ & _).
  vm_compute. reflexivity.
Defined.

Lemma initialize_population_shape_witness :
  exists self' w',
    @initialize_population Z lcg_random clip_cfg (clip_self, clip_world) = (Ok tt, (self', w'))
    /\ length (population self') = 6%nat
    /\ Forall (fun x => length x = 2%nat /\ within_bounds clip_cfg x) (population self').
Proof.
  destruct (@initialize_population_shape Z lcg_random lcg_random_range
              clip_cfg clip_self clip_world) as [_ Hinit].
  destruct (Hinit clip_bounds_proper
              ltac:(intros x w; eexists _, _; reflexivity) ltac:(simpl; lia))
    as (self' & w' & Hrun & Hp & _ & Hin & _).
  exists self', w'. split; [exact Hrun|]. split; [exact Hp | exact Hin].
Defined.

Lemma optimize_result_within_bounds_witness :
  fst clip_outcome = Ok clip_result
  /\ within_bounds clip_cfg (res_x clip_result)
  /\ Forall (within_bounds clip_cfg) (res_final_population clip_result).
Proof.
  split; [unfold clip_outcome; rewrite clip_outcome_returns; reflexivity|].
  destruct (@optimize_result_within_bounds Z lcg_random lcg_random_range clip_cfg
              clip_bounds_proper clip_self (fst (snd clip_outcome)) clip_world
              (snd (snd clip_outcome)) clip_result clip_outcome_returns)
    as (_ & Hin & _ & Hall).
  split; [exact Hin | exact Hall].
Defined.

Lemma optimize_result_is_best_found_witness :
  exists best : Q,
    res_fun clip_result = Fin best
    /\ best == np_sum ((fun xi => xi ^ 2) <$> res_x clip_result)
    /\ res_x clip_result ∈ res_final_population clip_result.
Proof.
  destruct (@optimize_result_is_best_found Z lcg_random clip_cfg
              (fun x => np_sum ((fun xi => xi ^ 2) <$> x)) ltac:(intros x w; reflexivity)
              clip_self (fst (snd clip_outcome)) clip_world
              (snd (snd clip_outcome)) clip_result clip_outcome_returns)
    as (best & Hb & Hf & Hx & _).
  exists best. split; [exact Hb|]. split; [exact Hf | exact Hx].
Defined.

Lemma optimize_result_accounting_witness :
  length (res_convergence_history clip_result) = S (res_nit clip_result)
  /\ last (res_convergence_history clip_result) = Some (res_fun clip_result)
  /\ S (res_nit clip_result) = 1%nat.
Proof.
  destruct (@optimize_result_accounting Z lcg_random clip_cfg
              clip_self (fst (snd clip_outcome)) clip_world
              (snd (snd clip_outcome)) clip_result eq_refl clip_outcome_returns)
    as (_ & _ & Hpos).
  destruct (Hpos ltac:(simpl; lia)) as (Hlen & _ & Hlast & _).
  split; [exact Hlen|]. split; [exact Hlast|]. vm_compute. reflexivity.
Defined.

Lemma Qsqrt_floor_nonneg (x : Q) : 0 <= Qsqrt_floor x.
Proof.
  unfold Qsqrt_floor, Qle. simpl.
  pose proof (Z.sqrt_nonneg (Qnum (Qred x) * Z.pos (Qden (Qred x)))). lia.
Qed.

Lemma check_circle_in_cone_monotone_witness :
  0.02 <= 0.05
  /\ (@check_circle_in_cone rational_numpy (Vec3 0 200 0) (Vec3 1 0 0) 0.02
        (Vec3 0 200 0) 7 (Vec3 0 0 (-1)) = true ->
      @check_circle_in_cone rational_numpy (Vec3 0 200 0) (Vec3 1 0 0) 0.05
        (Vec3 0 200 0) 7 (Vec3 0 0 (-1)) = true).
Proof.
  assert (0.02 <= 0.05) as Ha by (unfold Qle; simpl; lia).
  split; [exact Ha|].
  apply (@check_circle_in_cone_monotone rational_numpy (Vec3 0 200 0) (Vec3 1 0 0) 0.02 0.05
           (Vec3 0 200 0) 7 (Vec3 0 0 (-1)) Ha).
Defined.

Lemma missile_reaches_target_witness :
  exists m,
    @Missile_init rational_numpy "M1" = Ok m
    /\ 0 < @calculate_time_to_impact rational_numpy "M1"
    /\ veq (Missile_get_position m (@calculate_time_to_impact rational_numpy "M1")) (Vec3 0 0 0).
Proof.
  destruct (@Missile_init rational_numpy "M1") as [m|e] eqn:Em;
    [|vm_compute in Em; discriminate].
  assert (0 < @calculate_time_to_impact rational_numpy "M1") as Hpos by (vm_compute; reflexivity).
  exists m. split; [reflexivity|]. split; [exact Hpos|].
  apply (@missile_reaches_target rational_numpy "M1" m Em Hpos).
Defined.

Lemma uav_flies_level_witness :
  exists uav,
    @UAV_init "FY1" = Ok uav
    /\ UAV_get_position uav 3 = Raise ValueError
    /\ exists p,
         UAV_get_position (@set_flight_strategy rational_numpy uav 120 0.1) 3 = Ok p
         /\ vz p == vz (uav_start_pos uav).
Proof.
  destruct (@UAV_init "FY1") as [uav|e] eqn:Eu; [|vm_compute in Eu; discriminate].
  destruct (@uav_flies_level rational_numpy euler_scipy "FY1" uav 120 0.1 3 Eu)
    as (Hraise & _ & p & Hp & Hz & _).
  exists uav. split; [reflexivity|]. split; [exact Hraise|].
  exists p. split; [exact Hp | exact Hz].
Defined.

Lemma threat_scores_in_unit_interval_witness :
  0 <= @calculate_criticality rational_numpy "M2"
  /\ @calculate_criticality rational_numpy "M2" <= 1
  /\ 0 <= @calculate_difficulty rational_numpy "M2"
  /\ @calculate_difficulty rational_numpy "M2" <= 1
  /\ 0 <= @calculate_time_to_impact rational_numpy "M2".
Proof.
  apply (@threat_scores_in_unit_interval rational_numpy Qsqrt_floor_nonneg "M2").
Defined.

Lemma problem2_score_bounds_witness :
  exists self,
    problem2_optimizer = Ok self
    /\ @objective_function12 rational_numpy euler_scipy self _parse_decision_variables_p2
         [100; 0.1; 1] = Raise ValueError.
Proof.
  destruct problem2_optimizer as [self|e] eqn:Es; [|vm_compute in Es; discriminate].
  exists self. split; [reflexivity|].
  destruct (@problem2_score_bounds rational_numpy euler_scipy "M1" {[ "FY1"%string := 1%nat ]}
              self [100; 0.1; 1] Es) as (Hshort & _).
  apply Hshort. discriminate.
Defined.

Lemma decoded_strategy_structure_witness :
  exists self strategy,
    one_carrier_optimizer = Ok self
    /\ _parse_decision_variables self [100; 0.1; 1.5; 3.6; 2.5; 9] = Ok strategy
    /\ strategy.*1 = uav_ids self.
Proof.
  destruct one_carrier_optimizer as [self|e] eqn:Es; [|vm_compute in Es; discriminate].
  assert (uav_ids self = ["FY1"%string] /\ missile_ids self = ["M1"%string]
          /\ num_missiles self = 1%nat
          /\ uav_grenade_counts self = {[ "FY1"%string := 1%nat ]}) as (Hu & Hm & Hn & Hc).
  { vm_compute in Es. injection Es as <-. repeat split; reflexivity. }
  destruct (decoded_strategy_structure self [100; 0.1; 1.5; 3.6; 2.5; 9] 5)
    as (strategy & Hrun & Hkeys & _).
  - rewrite Hu, Hc. reflexivity.
  - simpl. lia.
  - rewrite Hu. apply NoDup_singleton.
  - rewrite Hn, Hm. reflexivity.
  - rewrite Hn. lia.
  - repeat constructor; unfold Qle; simpl; lia.
  - exists self, strategy. split; [reflexivity|]. split; [exact Hrun | exact Hkeys].
Defined.

Lemma problem5_bounds_fit_decoder_witness :
  exists self bounds strategy,
    problem5_optimizer = Ok self
    /\ problem5_bounds (uav_grenade_counts self) (uav_ids self) = Ok bounds
    /\ length bounds = 55%nat
    /\ _parse_decision_variables self (fst <$> bounds) = Ok strategy
    /\ strategy.*1 = uav_ids self.
Proof.
  destruct problem5_optimizer as [self|e] eqn:Es; [|vm_compute in Es; discriminate].
  assert (uav_ids self = ALL_UAV_IDS /\ missile_ids self = ALL_MISSILE_IDS
          /\ num_missiles self = 3%nat
          /\ uav_grenade_counts self = UAV_GRENADE_COUNTS) as (Hu & Hm & Hn & Hc).
  { unfold problem5_optimizer, GlobalOptimizer_init in Es. vm_compute in Es.
    injection Es as <-. repeat split; reflexivity. }
  destruct (problem5_bounds (uav_grenade_counts self) (uav_ids self)) as [bounds|e] eqn:Eb;
    [|rewrite Hu, Hc in Eb; vm_compute in Eb; discriminate].
  assert (length bounds = 55%nat) as Hlen.
  { rewrite Hu, Hc in Eb. vm_compute in Eb. injection Eb as <-. reflexivity. }
  assert (Forall (fun b : Q * Q => fst b <= snd b) bounds) as Hord.
  { rewrite Hu, Hc in Eb. vm_compute in Eb. injection Eb as <-.
    repeat constructor; unfold Qle; simpl; lia. }
  destruct (problem5_bounds_fit_decoder self (fst <$> bounds) bounds Eb)
    as (_ & strategy & Hrun & Hkeys & _).
  - apply Forall2_fmap_l, Forall_Forall2_diag. eapply Forall_impl; [exact Hord|].
    intros b Hb. split; [apply Qle_refl | exact Hb].
  - rewrite Hu. apply NoDup_ListNoDup. vm_compute.
    repeat constructor; simpl; intuition discriminate.
  - rewrite Hn, Hm. reflexivity.
  - rewrite Hn. lia.
  - exists self, bounds, strategy. split; [reflexivity|].
    split; [exact Eb|]. split; [exact Hlen|]. split; [exact Hrun | exact Hkeys].
Defined.

Lemma find_max_effective_deploy_time_result_witness :
  exists v,
    @find_max_effective_deploy_time rational_numpy euler_scipy "FY2" "M1" [] = Ok v
    /\ v == - 0.4.
Proof.
  destruct (UAV_init "FY2") as [uav|e] eqn:Eu; [|vm_compute in Eu; discriminate].
  destruct (@Missile_init rational_numpy "M1") as [missile|e] eqn:Em;
    [|vm_compute in Em; discriminate].
  destruct (@find_max_effective_deploy_time_result rational_numpy euler_scipy
              "FY2" "M1" uav missile [] Eu Em) as [Hempty _].
  apply Hempty. reflexivity.
Defined.

Lemma allocation_requirements_optimal_ends_iff_witness :
  allocation_requirements_optimal 1000
    [("M1"%string, 0.3); ("M2"%string, 0.7); ("M3"%string, 0.0)]
  = None.
Proof.
  destruct (allocation_requirements_optimal_ends_iff
              [("M1"%string, 0.3); ("M2"%string, 0.7); ("M3"%string, 0.0)]
              ltac:(reflexivity)) as (temp_alloc & m & n & Hround & Hm & Hn & _ & Hstuck).
  vm_compute in Hround. injection Hround as <-.
  vm_compute in Hm. injection Hm as <-.
  vm_compute in Hn. injection Hn as <-.
  apply Hstuck. reflexivity.
Defined.

Lemma assign_tasks_by_threat_disjoint_witness :
  exists fuel assignments,
    @assign_tasks_by_threat rational_numpy fuel (@assess_threat_weights rational_numpy None)
    = Some (Ok assignments)
    /\ NoDup (assigned_carriers assignments).
Proof.
  assert ((@assess_threat_weights rational_numpy None).*1 ≡ₚ MISSILES_INITIAL_keys) as Hkeys.
  { assert ((@assess_threat_weights rational_numpy None).*1 = MISSILES_INITIAL_keys) as ->
      by (vm_compute; reflexivity). reflexivity. }
  destruct (@assign_tasks_by_threat_disjoint rational_numpy
              (@assess_threat_weights rational_numpy None) Hkeys)
    as (fuel & assignments & Hrun & _ & Hnd & _).
  exists fuel, assignments. split; [exact Hrun | exact Hnd].
Defined.
